(** * tsickle: the annotation pass and the module-rewrite pass

    A shallow embedding of [src/tsickle.ts]: the JSDoc comment parser
    [getJSDocAnnotation], the [Annotator] (enum rewriting, interface
    records, externs generation) and the [PostProcessor] (CommonJS to
    goog.module rewriting), followed by the properties proved about them.

    Conventions of the embedding.
    - A JavaScript string is a [string]; every character is a code unit
      below 256.
    - An object mutated through [this] is a field of an explicit state
      record that every method takes and returns.
    - [this.output] is a reference that can point to either of two arrays;
      it is modelled by a selector ([Sink]) over the two buffers.
    - [throw] is an explicit result constructor ([Fault]).
    - Enum constants are integers ([Z]); JavaScript numbers are exact on
      them up to 2^53. *)

From Stdlib Require Import String Ascii List ZArith Bool Arith Lia DecimalString.
Set Warnings "-register-all".
Import ListNotations.
Local Open Scope string_scope.
Local Open Scope list_scope.
Local Open Scope nat_scope.

(** ** JavaScript strings *)

Module Js.

Definition isWhiteSpace (c : ascii) : bool :=
  let n := nat_of_ascii c in
  ((9 <=? n) && (n <=? 13)) || (n =? 32) || (n =? 160).

Definition isLineTerminator (c : ascii) : bool :=
  let n := nat_of_ascii c in (n =? 10) || (n =? 13).

Definition isEmpty (s : string) : bool :=
  match s with EmptyString => true | String _ _ => false end.

(** [if (s)] on a string: the empty string is falsy. *)
Definition truthy (s : string) : bool := negb (isEmpty s).

Fixpoint trimStart (s : string) : string :=
  match s with
  | EmptyString => EmptyString
  | String c r => if isWhiteSpace c then trimStart r else s
  end.

Fixpoint trimEnd (s : string) : string :=
  match s with
  | EmptyString => EmptyString
  | String c r =>
      let r' := trimEnd r in
      if isWhiteSpace c && isEmpty r' then EmptyString else String c r'
  end.

(** [s.trim()] *)
Definition trim (s : string) : string := trimEnd (trimStart s).

(** [s.slice(from, to)] for non-negative offsets. *)
Definition slice (from to : nat) (s : string) : string :=
  substring from (to - from) s.

(** [s.substr(n)] *)
Definition substr (n : nat) (s : string) : string :=
  substring n (String.length s - n) s.

Fixpoint takeWhile (p : ascii -> bool) (s : string) : string :=
  match s with
  | EmptyString => EmptyString
  | String c r => if p c then String c (takeWhile p r) else EmptyString
  end.

Fixpoint dropWhile (p : ascii -> bool) (s : string) : string :=
  match s with
  | EmptyString => EmptyString
  | String c r => if p c then dropWhile p r else s
  end.

Definition endsWith (suffix s : string) : bool :=
  let n := String.length suffix in
  let m := String.length s in
  (n <=? m) && String.eqb (substring (m - n) n s) suffix.

(** [s.split('\n')] *)
Fixpoint splitLines (s : string) : list string :=
  match s with
  | EmptyString => [EmptyString]
  | String c r =>
      if (nat_of_ascii c =? 10)%nat then EmptyString :: splitLines r
      else match splitLines r with
           | [] => [String c EmptyString]
           | l :: ls => String c l :: ls
           end
  end.

(** [parts.join(sep)] *)
Definition join (sep : string) (parts : list string) : string :=
  String.concat sep parts.

(** A template literal or a chain of [+] on strings. *)
Definition cat (parts : list string) : string := String.concat EmptyString parts.

(** [n.toString()] for an integer of magnitude below 10^21, which
    JavaScript prints as its decimal digits. *)
Definition numberToString (z : Z) : string :=
  NilZero.string_of_int (Z.to_int z).

(** [s[0] === c] *)
Definition firstCharIs (c : ascii) (s : string) : bool :=
  match s with
  | String d _ => Ascii.eqb c d
  | EmptyString => false
  end.

End Js.

(** ** JavaScript objects used as string-keyed maps

    An object literal [{}] that the code fills by [o[k] = v] and reads by
    [o.hasOwnProperty(k)], [o[k]] and [Object.keys(o)].  Own properties are
    kept in creation order; assigning to an existing key keeps its place.
    Assigning a primitive to the key [__proto__] reaches the accessor
    inherited from [Object.prototype], which ignores it: no own property is
    created.  [Object.keys] lists array-index keys first, so creation order
    is what it returns only for keys that are not decimal numerals: the
    statements below that depend on a key being stored, or on the order of
    the keys, assume [plainKey] of the keys they are about. *)

Module JsObject.

Definition t (V : Type) := list (string * V).

Definition empty {V} : t V := [].

(** [o.hasOwnProperty(k)] when the call reaches the method of
    [Object.prototype]; [callHasOwnProperty] below is the call on an object
    that may have an own property of that name, which hides the method. *)
Definition hasOwnProperty {V} (k : string) (o : t V) : bool :=
  existsb (fun kv => String.eqb (fst kv) k) o.

Fixpoint get {V} (k : string) (o : t V) : option V :=
  match o with
  | [] => None
  | (k', v) :: r => if String.eqb k' k then Some v else get k r
  end.

Fixpoint put {V} (k : string) (v : V) (o : t V) : t V :=
  match o with
  | [] => [(k, v)]
  | (k', v') :: r =>
      if String.eqb k' k then (k', v) :: r else (k', v') :: put k v r
  end.

(** [o[k] = v].  Under the key [__proto__] a primitive is ignored and an
    object becomes the prototype: no own property is created either way. *)
Definition set {V} (k : string) (v : V) (o : t V) : t V :=
  if String.eqb k "__proto__" then o else put k v o.

(** [Object.keys(o)] *)
Definition keys {V} (o : t V) : list string := map fst o.

Definition isDigit (c : ascii) : bool :=
  let n := nat_of_ascii c in (48 <=? n) && (n <=? 57).

Fixpoint allDigits (s : string) : bool :=
  match s with
  | EmptyString => true
  | String c r => isDigit c && allDigits r
  end.

(** A key that is not [__proto__], does not shadow the inherited
    [hasOwnProperty] that the code calls on these objects, and is not a
    decimal numeral. *)
Definition plainKey (k : string) : bool :=
  negb (String.eqb k "__proto__") && negb (String.eqb k "hasOwnProperty")
  && negb (negb (Js.isEmpty k) && allDigits k).

End JsObject.

(** ** JSDoc comments *)

Record JSDocTag := mkTag {
  tagName : option string;
  parameterName : option string;
  type : option string;
  optional : bool;
  restParam : bool;
  destructuring : bool;
  text : option string
}.

(** An object literal with only [tagName] and [text] possibly set. *)
Definition simpleTag (name text : option string) : JSDocTag :=
  mkTag name None None false false false text.

(** What [getJSDocAnnotation] can do: return [{tags}], return [null], or
    throw an [Error] with a message. *)
Inductive JSDocResult :=
| Tags (tags : list JSDocTag)
| NotJSDoc
| Fault (message : string).

(** The first pattern of [getJSDocAnnotation]: the whole comment is a
    slash and two stars, any characters (captured, as few as possible), a
    star and a slash.  Returns the captured group. *)
Definition matchJSDoc (comment : string) : option string :=
  if String.prefix "/**" comment && (5 <=? String.length comment)
     && Js.endsWith "*/" comment
  then Some (substring 3 (String.length comment - 5) comment)
  else None.

(** Length of a match, at the head of [s], of blanks followed by a star and
    a space, if there is one. *)
Definition starPrefixLength (s : string) : option nat :=
  let ws := Js.takeWhile Js.isWhiteSpace s in
  if String.prefix "* " (Js.dropWhile Js.isWhiteSpace s)
  then Some (String.length ws + 2) else None.

(** The [replace] that strips the star at the front of each line, with the
    flags [g] and [m].  [skip] characters of a match remain
    to be dropped; [lineStart] tells whether the previous character was a
    line terminator (or there was none). *)
Fixpoint stripStars (skip : nat) (lineStart : bool) (s : string) : string :=
  match s with
  | EmptyString => EmptyString
  | String c r =>
      match skip with
      | S k => stripStars k false r
      | O =>
          match (if lineStart then starPrefixLength s else None) with
          | Some n => stripStars (n - 1) false r
          | None => String c (stripStars 0 (Js.isLineTerminator c) r)
          end
      end
  end.

Definition notWhiteSpace (c : ascii) : bool := negb (Js.isWhiteSpace c).
Definition isSpace (c : ascii) : bool := (nat_of_ascii c =? 32)%nat.
Definition notLineTerminator (c : ascii) : bool := negb (Js.isLineTerminator c).

(** The tag pattern of the loop: an [@], a non-empty run of non-blank
    characters (the tag name), spaces, and the rest of the line up to a line
    terminator (the text).  Returns the two captured groups. *)
Definition matchTagLine (line : string) : option (string * string) :=
  match line with
  | String "@"%char rest =>
      let name := Js.takeWhile notWhiteSpace rest in
      if Js.isEmpty name then None
      else
        let after := Js.dropWhile isSpace (Js.dropWhile notWhiteSpace rest) in
        Some (name, Js.takeWhile notLineTerminator after)
  | _ => None
  end.

(** The parameter pattern: a non-empty run of non-blank characters (the
    parameter name), at most one space, and the rest up to a line
    terminator.  Returns the two captured groups. *)
Definition matchParamName (text : string) : option (string * string) :=
  let name := Js.takeWhile notWhiteSpace text in
  if Js.isEmpty name then None
  else
    let after := Js.dropWhile notWhiteSpace text in
    let after' := match after with
                  | String " "%char r => r
                  | _ => after
                  end in
    Some (name, Js.takeWhile notLineTerminator after').

(** [tags[tags.length - 1].text += ' ' + extra]; an absent [text] is
    [undefined], which string concatenation prints. *)
Fixpoint appendToLast (extra : string) (tags : list JSDocTag) : list JSDocTag :=
  match tags with
  | [] => []
  | [t] =>
      let old := match text t with Some s => s | None => "undefined" end in
      [mkTag (tagName t) (parameterName t) (type t) (optional t) (restParam t)
             (destructuring t) (Some (Js.cat [old; " "; extra]))]
  | t :: r => t :: appendToLast extra r
  end.

(** The body of the [for (let line of lines)] loop for a line that matched
    the tag pattern. *)
Definition parseTagLine (name text : string) : string + JSDocTag :=
  if String.eqb name "type" then inl "@type annotations are not allowed"
  else if (String.eqb name "param" || String.eqb name "return")
          && Js.firstCharIs "{"%char text
  then inl "type annotations (using {...}) are not allowed"
  else
    let '(parameterName, text) :=
      if String.eqb name "param" then
        match matchParamName text with
        | Some (p, t) => (Some p, t)
        | None => (None, text)
        end
      else (None, text) in
    inr (mkTag (Some name) parameterName None false false false
               (if Js.truthy text then Some text else None)).

Fixpoint parseLines (lines : list string) (tags : list JSDocTag) : JSDocResult :=
  match lines with
  | [] => Tags tags
  | line :: rest =>
      match matchTagLine line with
      | Some (name, text) =>
          match parseTagLine name text with
          | inl message => Fault message
          | inr tag => parseLines rest (tags ++ [tag])
          end
      | None =>
          match tags with
          | [] => parseLines rest [simpleTag None (Some (Js.trim line))]
          | _ => parseLines rest (appendToLast (Js.trim line) tags)
          end
      end
  end.

(** The lines the loop runs over. *)
Definition docLines (body : string) : list string :=
  Js.splitLines (stripStars 0 true (Js.trim body)).

Definition getJSDocAnnotation (comment : string) : JSDocResult :=
  match matchJSDoc comment with
  | None => NotJSDoc
  | Some body => parseLines (docLines body) []
  end.

(** ** Syntax trees

    The part of the TypeScript AST that the modelled methods read.  Source
    positions are offsets into the text of the file. *)

Definition LF : string := String (ascii_of_nat 10) EmptyString.
Definition DQ : string := String (ascii_of_nat 34) EmptyString.

Record Range := mkRange {
  getFullStart : nat;   (* includes leading trivia *)
  getStart : nat;
  getEnd : nat
}.

(** [node.flags]: the three bits the code tests. *)
Record Flags := mkFlags {
  Ambient : bool;
  Const : bool;
  Export : bool
}.

Record NodeInfo := mkInfo {
  range : Range;
  flags : Flags
}.

(** The checker's [ts.Type] objects are opaque here: a type is identified
    by a number. *)
Inductive Ty := TypeId (id : nat).

Inductive NameKind :=
| Identifier
| StringLiteral
| ArrayBindingPattern
| ObjectBindingPattern
| ComputedPropertyName.

Definition kindName (k : NameKind) : string :=
  match k with
  | Identifier => "Identifier"
  | StringLiteral => "StringLiteral"
  | ArrayBindingPattern => "ArrayBindingPattern"
  | ObjectBindingPattern => "ObjectBindingPattern"
  | ComputedPropertyName => "ComputedPropertyName"
  end.

Definition isIdentifier (k : NameKind) : bool :=
  match k with Identifier => true | _ => false end.

(** A name node: its kind, its source text ([getText()]) and, for a string
    literal, its [text] (the contents without the quotes). *)
Record Name := mkName {
  nameKind : NameKind;
  nameRange : Range;
  nameGetText : string;
  nameText : string
}.

Definition getIdentifierText (identifier : Name) : string :=
  nameGetText identifier.

Record ParameterDeclaration := mkParameter {
  paramName : Name;
  paramSymbolName : string;       (* paramSym.getName(), possibly escaped *)
  paramType : Ty;                 (* getTypeOfSymbolAtLocation *)
  paramTypeArgument0 : Ty;        (* typeArguments[0] of that type *)
  paramInitializer : bool;        (* initializer !== undefined *)
  paramQuestionToken : bool;
  paramDotDotDotToken : bool
}.

(** A [ts.SignatureDeclaration] with what the checker says about its
    signature.  The declaration's parameter nodes and the signature's
    parameter symbols, which the code walks in step, are one list. *)
Record FunctionLike := mkFunctionLike {
  fnInfo : NodeInfo;
  fnIsConstructor : bool;         (* kind === SyntaxKind.Constructor *)
  fnName : Name;
  fnParameters : list ParameterDeclaration;
  fnReturnType : Ty               (* getReturnTypeOfSignature *)
}.

Inductive MemberKind :=
| Property (name : Name)           (* PropertySignature, PropertyDeclaration *)
| Method (m : FunctionLike)        (* MethodSignature, MethodDeclaration *)
| Constructor (c : FunctionLike)
| OtherMember (kind : string) (name : option Name).   (* e.g. IndexSignature *)

Record Member := mkMember {
  memberInfo : NodeInfo;
  memberKind : MemberKind;
  memberType : Ty                  (* getTypeAtLocation(member) *)
}.

(** A class or interface declaration. *)
Record TypeDecl := mkTypeDecl {
  declName : Name;
  declType : Ty;
  typeParameters : bool;           (* present? *)
  heritageClauses : bool;          (* present? *)
  members : list Member
}.

Record VariableDeclaration := mkVariableDeclaration {
  varInfo : NodeInfo;
  varName : Name;
  varType : Ty
}.

(** An initializer expression: only its extent matters here. *)
Record Expression := mkExpression { exprRange : Range }.

Record EnumMember := mkEnumMember {
  enumMemberName : Name;
  initializer : option Expression;
  constantValue : option Z         (* getConstantValue(member) *)
}.

Record EnumDecl := mkEnumDecl {
  enumName : Name;
  enumMembers : list EnumMember
}.

Inductive Node :=
| ModuleDeclaration (info : NodeInfo) (name : Name) (body : Node)
| ModuleBlock (info : NodeInfo) (statements : list Node)
| ClassDeclaration (info : NodeInfo) (decl : TypeDecl)
| InterfaceDeclaration (info : NodeInfo) (decl : TypeDecl)
| FunctionDeclaration (info : NodeInfo) (f : FunctionLike)
| VariableStatement (info : NodeInfo) (declarations : list VariableDeclaration)
| EnumDeclaration (info : NodeInfo) (decl : EnumDecl)
| OtherNode (info : NodeInfo) (kind : string).   (* ts.SyntaxKind[node.kind] *)

Definition nodeInfo (n : Node) : NodeInfo :=
  match n with
  | ModuleDeclaration i _ _ | ModuleBlock i _ | ClassDeclaration i _
  | InterfaceDeclaration i _ | FunctionDeclaration i _
  | VariableStatement i _ | EnumDeclaration i _ | OtherNode i _ => i
  end.

(** ** The state of an [Annotator] *)

Record Diagnostic := mkDiagnostic {
  diagStart : nat;
  messageText : string
}.

(** Which array [this.output] refers to. *)
Inductive Sink := MainOutput | ExternsOutput.

(** The fields of the object.  [skeletonLog] is a history variable, not a
    field of the class: it lists the dotted path of every namespace skeleton
    that [visitExterns] has emitted, and no method reads it. *)
Record Annotator := mkAnnotator {
  mainOutput : list string;
  externsOutput : list string;
  output : Sink;
  diagnostics : list Diagnostic;
  emittedNamespaces : JsObject.t bool;
  skeletonLog : list string
}.

(** A new [Annotator]. *)
Definition newAnnotator : Annotator :=
  mkAnnotator [] [] MainOutput [] JsObject.empty [].

Definition setOutput (o : Sink) (s : Annotator) : Annotator :=
  mkAnnotator (mainOutput s) (externsOutput s) o (diagnostics s)
              (emittedNamespaces s) (skeletonLog s).

Definition markEmitted (nsName : string) (s : Annotator) : Annotator :=
  mkAnnotator (mainOutput s) (externsOutput s) (output s) (diagnostics s)
              (JsObject.set nsName true (emittedNamespaces s)) (skeletonLog s).

Definition logSkeleton (nsName : string) (s : Annotator) : Annotator :=
  mkAnnotator (mainOutput s) (externsOutput s) (output s) (diagnostics s)
              (emittedNamespaces s) (skeletonLog s ++ [nsName]).

(** Modelled from the spec: the base rewrite engine [Rewriter]
    ([rewriter.ts]) is not part of the sources; [emit] appends synthesized
    text to the current sink, [writeRange] copies a range of the file, and
    [error] collects a diagnostic with its position. *)
Definition emit (str : string) (s : Annotator) : Annotator :=
  match output s with
  | MainOutput =>
      mkAnnotator (mainOutput s ++ [str]) (externsOutput s) (output s)
                  (diagnostics s) (emittedNamespaces s) (skeletonLog s)
  | ExternsOutput =>
      mkAnnotator (mainOutput s) (externsOutput s ++ [str]) (output s)
                  (diagnostics s) (emittedNamespaces s) (skeletonLog s)
  end.

Definition error (start : nat) (message : string) (s : Annotator) : Annotator :=
  mkAnnotator (mainOutput s) (externsOutput s) (output s)
              (diagnostics s ++ [mkDiagnostic start message])
              (emittedNamespaces s) (skeletonLog s).

Definition errorUnimplementedKind (name : Name) (where_ : string)
    (s : Annotator) : Annotator :=
  error (getStart (nameRange name))
        (Js.cat [kindName (nameKind name); " not implemented in "; where_]) s.

(** Emitting a list of chunks, one [emit] each. *)
Definition emits (chunks : list string) (s : Annotator) : Annotator :=
  fold_left (fun s c => emit c s) chunks s.

Definition unescapeName (name : string) : string :=
  if String.prefix "___" name then Js.substr 1 name else name.

(** The initial value of the exported [closureExternsBlacklist]. *)
Definition defaultExternsBlacklist : list string :=
  ["exports"; "global"; "module"; "WorkerGlobalScope"; "Symbol"].

(** [list.indexOf(x) >= 0] *)
Definition includes (x : string) (l : list string) : bool :=
  existsb (String.eqb x) l.

(** ** The annotation pass *)

Section Annotation.

(** The text of the file being processed. *)
Variable fileText : string.
(** [options.untyped] *)
Variable untyped : bool.
(** [TypeTranslator.translate] ([type-translator.ts] is not part of the
    sources), as a function of the type and of the [destructuring] flag. *)
Variable translate : Ty -> bool -> string.
(** [ts.getLeadingCommentRanges(text, 0)]: the [(pos, end)] ranges of the
    comments at the head of [text]; the empty list stands for [undefined]. *)
Variable getLeadingCommentRanges : string -> list (nat * nat).
(** [Rewriter.escapeForComment] *)
Variable escapeForComment : string -> string.
(** [Rewriter.visit] on an initializer expression. *)
Variable visit : Expression -> Annotator -> Annotator.
(** The current value of [closureExternsBlacklist]. *)
Variable closureExternsBlacklist : list string.
(** The cases of [maybeProcess] for a class and for a function that are not
    ambient; they recurse through [Rewriter.visit]. *)
Variable processClass : NodeInfo -> TypeDecl -> Annotator -> bool * Annotator.
Variable processFunction : NodeInfo -> FunctionLike -> Annotator -> bool * Annotator.

Definition writeRange (from to : nat) (s : Annotator) : Annotator :=
  let text := Js.slice from to fileText in
  if Js.truthy text then emit text s else s.

Definition getFullText (r : Range) : string :=
  Js.slice (getFullStart r) (getEnd r) fileText.

Definition getText (r : Range) : string :=
  Js.slice (getStart r) (getEnd r) fileText.

Definition typeToClosure (type : Ty) (destructuring : bool) : string :=
  if untyped then "?" else translate type destructuring.

(** [getJSDoc]: [None] is [null]. *)
Definition getJSDoc (node : Range) (s : Annotator)
    : option (list JSDocTag) * Annotator :=
  let text := getFullText node in
  match last (map Some (getLeadingCommentRanges text)) None with
  | None => (None, s)
  | Some (pos, end_) =>
      let comment := Js.slice pos end_ text in
      match getJSDocAnnotation comment with
      | Tags tags => (Some tags, s)
      | NotJSDoc => (None, s)
      | Fault message => (None, error (getFullStart node + pos) message s)
      end
  end.

Definition orEmpty (doc : option (list JSDocTag)) : list JSDocTag :=
  match doc with Some tags => tags | None => [] end.

Definition isTagNamed (name : string) (tag : JSDocTag) : bool :=
  match tagName tag with Some n => String.eqb n name | None => false end.

(** [if (x)] on an optional string: absent and empty are both falsy. *)
Definition present (x : option string) : bool :=
  match x with Some v => Js.truthy v | None => false end.

Definition valueOf (x : option string) : string :=
  match x with Some v => v | None => "undefined" end.

(** The text of the first [@param] tag for [name], if the loop finds one. *)
Definition findParamText (name : string) (tags : list JSDocTag) : option (option string) :=
  match find (fun t => isTagNamed "param" t
                       && match parameterName t with
                          | Some p => String.eqb p name
                          | None => false
                          end) tags with
  | Some t => Some (text t)
  | None => None
  end.

Definition paramTag (jsDoc : list JSDocTag) (p : ParameterDeclaration) : JSDocTag :=
  let name := unescapeName (paramSymbolName p) in
  let destructuring :=
    match nameKind (paramName p) with
    | ArrayBindingPattern | ObjectBindingPattern => true
    | _ => false
    end in
  let type := if paramDotDotDotToken p then paramTypeArgument0 p else paramType p in
  mkTag (Some "param") (Some name) (Some (typeToClosure type destructuring))
        (paramInitializer p || paramQuestionToken p)
        (paramDotDotDotToken p) false
        (match findParamText name jsDoc with Some t => t | None => None end).

Definition returnTag (jsDoc : list JSDocTag) (f : FunctionLike) : list JSDocTag :=
  if fnIsConstructor f then []
  else
    let returnDoc := match find (isTagNamed "return") jsDoc with
                     | Some t => text t
                     | None => None
                     end in
    [mkTag (Some "return") None (Some (typeToClosure (fnReturnType f) false))
           false false false returnDoc].

(** The chunks emitted for one tag of the new comment. *)
Definition tagChunks (tag : JSDocTag) : list string :=
  [" * "]
  ++ (if present (tagName tag) then [Js.cat ["@"; valueOf (tagName tag)]] else [])
  ++ (if present (type tag) then
        [" {"] ++ (if restParam tag then ["..."] else [])
        ++ [valueOf (type tag)]
        ++ (if optional tag then ["="] else []) ++ ["}"]
      else [])
  ++ (if present (parameterName tag)
      then [Js.cat [" "; valueOf (parameterName tag)]] else [])
  ++ (if present (text tag) then [Js.cat [" "; valueOf (text tag)]] else [])
  ++ [LF].

Definition emitFunctionType (fnDecl : FunctionLike) (extraTags : list JSDocTag)
    (s : Annotator) : Annotator :=
  let '(doc, s) := getJSDoc (range (fnInfo fnDecl)) s in
  let jsDoc := orEmpty doc in
  let newDoc :=
    extraTags
    ++ filter (fun t => negb (isTagNamed "param" t || isTagNamed "return" t)) jsDoc
    ++ map (paramTag jsDoc) (fnParameters fnDecl)
    ++ returnTag jsDoc fnDecl in
  let s := emit (Js.cat [LF; "/**"; LF]) s in
  let s := emits (flat_map tagChunks newDoc) s in
  emit (Js.cat [" */"; LF]) s.

Definition memberName (m : Member) : option Name :=
  match memberKind m with
  | Property n => Some n
  | Method f => Some (fnName f)
  | Constructor _ => None
  | OtherMember _ n => n
  end.

(** [propertyName]: [None] is [null]. *)
Definition propertyName (prop : Member) : option string :=
  match memberName prop with
  | None => None
  | Some n =>
      match nameKind n with
      | Identifier => Some (getIdentifierText n)
      | StringLiteral => Some (nameText n)
      | _ => None
      end
  end.

Definition existingAnnotation (tags : list JSDocTag) : string :=
  Js.cat (map (fun t => if present (tagName t)
                        then Js.cat ["@"; valueOf (tagName t); LF]
                        else Js.cat [valueOf (text t); LF]) tags).

Definition visitProperty (namespace : list string) (p : Member)
    (s : Annotator) : Annotator :=
  if present (propertyName p) then
    let name := valueOf (propertyName p) in
    let '(doc, s) := getJSDoc (range (memberInfo p)) s in
    let existing := existingAnnotation (orEmpty doc) in
    let s := emit " /**" s in
    let s := if Js.truthy existing then emit (Js.cat [" "; existing]) s else s in
    let s := emit (Js.cat [" @type {"; typeToClosure (memberType p) false; "} */"; LF]) s in
    emit (Js.cat [Js.join "." (namespace ++ [name]); ";"; LF]) s
  else
    emit (Js.cat ["/* TODO: handle strange member:"; LF;
                  escapeForComment (getText (range (memberInfo p))); LF;
                  "*/"; LF]) s.

Definition emitInterface (iface : TypeDecl) (s : Annotator) : Annotator :=
  if untyped then s
  else
    let s := emit (Js.cat [LF; "/** @record */"; LF]) s in
    let s := emit (Js.cat ["function "; getIdentifierText (declName iface); "() {}"; LF]) s in
    let s := if typeParameters iface
             then emit (Js.cat ["// TODO: type parameters."; LF]) s else s in
    let s := if heritageClauses iface
             then emit (Js.cat ["// TODO: derived interfaces."; LF]) s else s in
    let memberNamespace := [getIdentifierText (declName iface); "prototype"] in
    fold_left (fun s elem => visitProperty memberNamespace elem s) (members iface) s.

Definition emitJSDocType (type : Ty) (s : Annotator) : Annotator :=
  let s := emit " /**" s in
  emit (Js.cat [" @type {"; typeToClosure type false; "} */"]) s.

(** *** Externs *)

Definition writeExternsFunction (name params : string) (namespace : list string)
    (s : Annotator) : Annotator :=
  if 0 <? length namespace then
    let name := Js.join "." (namespace ++ [name]) in
    emit (Js.cat [name; " = function("; params; ") {};"; LF]) s
  else
    emit (Js.cat ["function "; name; "("; params; ") {}"; LF]) s.

Definition parameterNames (f : FunctionLike) : string :=
  Js.join ", " (map (fun p => nameGetText (paramName p)) (fnParameters f)).

Definition constructorsOf (ms : list Member) : list FunctionLike :=
  flat_map (fun m => match memberKind m with
                     | Constructor c => [c]
                     | _ => []
                     end) ms.

(** The body of the loop over the members in [writeExternsType]. *)
Definition writeExternsMember (typeName : string) (namespace : list string)
    (member : Member) (s : Annotator) : Annotator :=
  match memberKind member with
  | Property name =>
      let s := emitJSDocType (memberType member) s in
      emit (Js.cat [LF; typeName; ".prototype."; nameGetText name; ";"; LF]) s
  | Method m =>
      let s := emitFunctionType m [] s in
      emit (Js.cat [typeName; ".prototype."; nameGetText (fnName m); " = ";
                    "function("; parameterNames m; ") {};"; LF]) s
  | Constructor _ => s
  | OtherMember kind name =>
      let name := match name with
                  | Some n => namespace ++ [nameGetText n]
                  | None => namespace
                  end in
      emit (Js.cat [LF; "/* TODO: "; kind; " in "; Js.join "." name; " */"; LF]) s
  end.

Definition writeExternsType (isClass : bool) (decl : TypeDecl)
    (namespace : list string) (s : Annotator) : Annotator :=
  let typeName := Js.join "." (namespace ++ [nameGetText (declName decl)]) in
  let s := markEmitted typeName s in
  if includes typeName closureExternsBlacklist then s
  else
    let s := markEmitted typeName s in
    let '(paramNames, s) :=
      if isClass then
        match constructorsOf (members decl) with
        | ctor :: more =>
            let s := match more with
                     | second :: _ =>
                         error (getStart (range (fnInfo second)))
                               "multiple constructor signatures in declarations" s
                     | [] => s
                     end in
            let s := emitFunctionType ctor
                       [simpleTag (Some "constructor") None;
                        simpleTag (Some "struct") None] s in
            (parameterNames ctor, s)
        | [] => (EmptyString, emit (Js.cat ["/** @constructor @struct */"; LF]) s)
        end
      else (EmptyString, emit (Js.cat ["/** @record @struct */"; LF]) s) in
    let s := writeExternsFunction (nameGetText (declName decl)) paramNames namespace s in
    fold_left (fun s member => writeExternsMember typeName namespace member s)
              (members decl) s.

Definition writeExternsVariable (decl : VariableDeclaration)
    (namespace : list string) (s : Annotator) : Annotator :=
  if isIdentifier (nameKind (varName decl)) then
    let qualifiedName := Js.join "." (namespace ++ [getIdentifierText (varName decl)]) in
    if includes qualifiedName closureExternsBlacklist then s
    else
      let s := emitJSDocType (varType decl) s in
      if 0 <? length namespace
      then emit (Js.cat [LF; qualifiedName; ";"; LF]) s
      else emit (Js.cat [LF; "var "; qualifiedName; ";"; LF]) s
  else errorUnimplementedKind (varName decl) "externs for variable" s.

Definition writeExternsEnum (decl : EnumDecl) (namespace : list string)
    (s : Annotator) : Annotator :=
  let namespace := namespace ++ [getIdentifierText (enumName decl)] in
  let s := emit (Js.cat [LF; "/** @const */"; LF]) s in
  let s := emit (Js.cat [Js.join "." namespace; " = {};"; LF]) s in
  fold_left (fun s member =>
               let memberName := nameGetText (enumMemberName member) in
               let name := Js.join "." (namespace ++ [memberName]) in
               let s := emit (Js.cat ["/** @const {number} */"; LF]) s in
               emit (Js.cat [name; ";"; LF]) s)
            (enumMembers decl) s.

(** The skeleton of a namespace: the two [emit]s guarded by
    [emittedNamespaces.hasOwnProperty(nsName)]. *)
Definition emitNamespaceSkeleton (namespace : list string) (s : Annotator) : Annotator :=
  let s := emit (Js.cat ["/** @const */"; LF]) s in
  let s := if 1 <? length namespace
           then emit (Js.cat [Js.join "." namespace; " = {};"; LF]) s
           else emit (Js.cat ["var "; Js.join "," namespace; " = {};"; LF]) s in
  logSkeleton (Js.join "." namespace) s.

(** [visitExterns] on the runs in which no call throws;
    [visitExternsOutcome] below has the exception that the test of
    [emittedNamespaces] can raise. *)
Fixpoint visitExterns (node : Node) (namespace : list string) (s : Annotator)
    {struct node} : Annotator :=
  let originalOutput := output s in
  let s := setOutput ExternsOutput s in
  let s :=
    match node with
    | ModuleDeclaration _ name body =>
        match nameKind name with
        | Identifier =>
            let namespace := namespace ++ [getIdentifierText name] in
            let nsName := Js.join "." namespace in
            let s := if JsObject.hasOwnProperty nsName (emittedNamespaces s)
                     then s else emitNamespaceSkeleton namespace s in
            let s := markEmitted nsName s in
            visitExterns body namespace s
        | StringLiteral => s
        | _ => errorUnimplementedKind name "externs generation of namespace" s
        end
    | ModuleBlock _ statements =>
        (fix visitAll (stmts : list Node) (s : Annotator) : Annotator :=
           match stmts with
           | [] => s
           | stmt :: rest => visitAll rest (visitExterns stmt namespace s)
           end) statements s
    | ClassDeclaration _ decl => writeExternsType true decl namespace s
    | InterfaceDeclaration _ decl => writeExternsType false decl namespace s
    | FunctionDeclaration _ f =>
        let s := emitFunctionType f [] s in
        writeExternsFunction (nameGetText (fnName f)) (parameterNames f) namespace s
    | VariableStatement _ declarations =>
        fold_left (fun s decl => writeExternsVariable decl namespace s) declarations s
    | EnumDeclaration _ decl => writeExternsEnum decl namespace s
    | OtherNode _ kind =>
        emit (Js.cat [LF; "/* TODO: "; kind; " in "; Js.join "." namespace; " */"; LF]) s
    end in
  setOutput originalOutput s.

(** *** Enums *)

(** The first loop of [maybeProcessEnum]: the object [members] and the
    counter [i].  The constants and the counter are integers; the
    arithmetic is that of the program while they stay below 2^53 in
    magnitude ([safeConstants] below). *)
Definition gatherMember (acc : JsObject.t (Z + Expression) * Z) (member : EnumMember)
    : JsObject.t (Z + Expression) * Z :=
  let '(members, i) := acc in
  let memberName := nameGetText (enumMemberName member) in
  match initializer member with
  | Some init =>
      match constantValue member with
      | Some enumConstValue =>
          (JsObject.set memberName (inl enumConstValue) members, (enumConstValue + 1)%Z)
      | None => (JsObject.set memberName (inr init) members, i)
      end
  | None => (JsObject.set memberName (inl i) members, (i + 1)%Z)
  end.

Definition gatherMembers (ms : list EnumMember) : JsObject.t (Z + Expression) :=
  fst (fold_left gatherMember ms (JsObject.empty, 0%Z)).

(** The body of the loop that emits the [foo.BAR = 0;] lines. *)
Definition emitEnumAssignment (name : string) (s : Annotator)
    (entry : string * (Z + Expression)) : Annotator :=
  let '(member, value) := entry in
  let s := if negb untyped then emit (Js.cat ["/** @type {number} */"; LF]) s else s in
  let s := emit (Js.cat [name; "."; member; " = "]) s in
  let s := match value with
           | inl number => emit (Js.numberToString number) s
           | inr node => visit node s
           end in
  emit (Js.cat [";"; LF]) s.

(** The body of the loop that emits the [foo[foo.BAR] = 'BAR';] lines. *)
Definition emitEnumReverse (name : string) (s : Annotator) (member : string) : Annotator :=
  emit (Js.cat [name; "["; name; "."; member; "] = "; DQ; member; DQ; ";"; LF]) s.

Definition emitEnumHeader (fl : Flags) (name : string) (s : Annotator) : Annotator :=
  let s := emit LF s in
  let s := if Export fl then emit "export " s else s in
  let s := emit (Js.cat ["type "; name; " = number;"; LF]) s in
  let s := if Export fl then emit "export " s else s in
  emit (Js.cat ["let "; name; ": any = {};"; LF]) s.

Definition maybeProcessEnum (info : NodeInfo) (node : EnumDecl) (s : Annotator)
    : bool * Annotator :=
  if Const (flags info) then (false, s)
  else
    let members := gatherMembers (enumMembers node) in
    let name := nameGetText (enumName node) in
    let s := emitEnumHeader (flags info) name s in
    let s := fold_left (emitEnumAssignment name) members s in
    let s := fold_left (emitEnumReverse name) (JsObject.keys members) s in
    (true, s).

(** *** The intercept hook of the traversal *)

Definition maybeProcess (node : Node) (s : Annotator) : bool * Annotator :=
  let r := range (nodeInfo node) in
  if Ambient (flags (nodeInfo node)) then
    let s := visitExterns node [] s in
    (true, writeRange (getFullStart r) (getEnd r) s)
  else
    match node with
    | InterfaceDeclaration _ decl =>
        let s := emitInterface decl s in
        (true, writeRange (getFullStart r) (getEnd r) s)
    | ClassDeclaration info decl => processClass info decl s
    | FunctionDeclaration info f => processFunction info f s
    | EnumDeclaration info decl => maybeProcessEnum info decl s
    | _ => (false, s)
    end.

(** The [externs] field of the result of [annotate]; [None] is [null]. *)
Definition externsOf (s : Annotator) : option string :=
  if 0 <? length (externsOutput s)
  then Some (Js.cat [Js.cat ["/** @externs */"; LF]; Js.cat (externsOutput s)])
  else None.

End Annotation.

(** ** The module-rewrite pass *)

Module PostProcessor.

Inductive SyntaxKind :=
| StringLiteral
| Identifier
| CallExpression
| PropertyAccessExpression
| OtherKind.

Definition isKind (k k' : SyntaxKind) : bool :=
  match k, k' with
  | StringLiteral, StringLiteral | Identifier, Identifier
  | CallExpression, CallExpression
  | PropertyAccessExpression, PropertyAccessExpression
  | OtherKind, OtherKind => true
  | _, _ => false
  end.

(** An expression of the compiled JavaScript, as a generic tree.  [text] is
    the contents of a string literal or the source text of an identifier.
    The children of a call are the callee and then the arguments; those of a
    property access are the object and then the member name. *)
Inductive JsNode :=
| mkNode (kind : SyntaxKind) (range : Range) (text : string) (children : list JsNode).

Definition kind (n : JsNode) : SyntaxKind := let '(mkNode k _ _ _) := n in k.
Definition nodeRange (n : JsNode) : Range := let '(mkNode _ r _ _) := n in r.
Definition nodeText (n : JsNode) : string := let '(mkNode _ _ t _) := n in t.
Definition children (n : JsNode) : list JsNode := let '(mkNode _ _ _ c) := n in c.

Record VariableDeclaration := mkVariableDeclaration {
  name : JsNode;
  initializer : option JsNode
}.

(** A top-level statement. *)
Inductive Statement :=
| ExpressionStatement (range : Range) (expression : JsNode)
| VariableStatement (range : Range) (declarations : list VariableDeclaration)
| OtherStatement (range : Range) (children : list JsNode).

Definition statementRange (stmt : Statement) : Range :=
  match stmt with
  | ExpressionStatement r _ | VariableStatement r _ | OtherStatement r _ => r
  end.

Record State := mkState {
  output : list string;
  namespaceImports : JsObject.t bool;
  moduleVariables : JsObject.t string;
  strippedStrict : bool;
  unusedIndex : nat
}.

Definition newPostProcessor : State :=
  mkState [] JsObject.empty JsObject.empty false 0.

Definition emit (str : string) (s : State) : State :=
  mkState (output s ++ [str]) (namespaceImports s) (moduleVariables s)
          (strippedStrict s) (unusedIndex s).

Section Process.

Variable fileName : string.
Variable fileText : string.
(** The resolver supplied by the caller. *)
Variable pathToModuleName : string -> string -> string.

Definition writeRange (from to : nat) (s : State) : State :=
  let text := Js.slice from to fileText in
  if Js.truthy text then emit text s else s.

(** [maybeProcess] of the [PostProcessor]: the rewrite of [x.default] for a
    namespace import [x].  [None] stands for [false]. *)
Definition maybeProcess (node : JsNode) (s : State) : option State :=
  match kind node, children node with
  | PropertyAccessExpression, [expression; name] =>
      if negb (String.eqb (nodeText name) "default") then None
      else if negb (isKind (kind expression) Identifier) then None
      else
        let lhs := nodeText expression in
        if negb (JsObject.hasOwnProperty lhs (namespaceImports s)) then None
        else
          let s := writeRange (getFullStart (nodeRange node)) (getStart (nodeRange node)) s in
          Some (emit (Js.cat [lhs; "        "]) s)
  | _, _ => None
  end.

(** Modelled from the spec: [Rewriter.visit] ([rewriter.ts] is not part of
    the sources) gives each node to [maybeProcess] and, when that declines,
    copies the node's text verbatim around its children, which it visits in
    turn. *)
Fixpoint visit (node : JsNode) (s : State) {struct node} : State :=
  match maybeProcess node s with
  | Some s' => s'
  | None =>
      let '(mkNode _ r _ cs) := node in
      let '(pos, s) :=
        (fix visitChildren (cs : list JsNode) (acc : nat * State) : nat * State :=
           match cs with
           | [] => acc
           | child :: rest =>
               let '(pos, s) := acc in
               let s := writeRange pos (getFullStart (nodeRange child)) s in
               visitChildren rest (getEnd (nodeRange child), visit child s)
           end) cs (getFullStart r, s) in
      writeRange pos (getEnd r) s
  end.

(** [visit] on a statement: no statement kind is intercepted. *)
Definition visitStatement (stmt : Statement) (s : State) : State :=
  let cs := match stmt with
            | ExpressionStatement _ e => [e]
            | VariableStatement _ ds =>
                flat_map (fun d => name d :: match initializer d with
                                             | Some i => [i]
                                             | None => []
                                             end) ds
            | OtherStatement _ cs => cs
            end in
  let r := statementRange stmt in
  let '(pos, s) :=
    fold_left (fun (acc : nat * State) child =>
                 let '(pos, s) := acc in
                 let s := writeRange pos (getFullStart (nodeRange child)) s in
                 (getEnd (nodeRange child), visit child s))
              cs (getFullStart r, s) in
  writeRange pos (getEnd r) s.

Definition isUseStrict (node : Statement) : bool :=
  match node with
  | ExpressionStatement _ expr =>
      if negb (isKind (kind expr) StringLiteral) then false
      else String.eqb (nodeText expr) "use strict"
  | _ => false
  end.

(** [isRequire]: [None] is [null]. *)
Definition isRequire (call : JsNode) : option string :=
  match children call with
  | expression :: arguments =>
      if negb (isKind (kind expression) Identifier) then None
      else if negb (String.eqb (nodeText expression) "require") then None
      else match arguments with
           | [arg] =>
               if negb (isKind (kind arg) StringLiteral) then None
               else Some (nodeText arg)
           | _ => None
           end
  | [] => None
  end.

Definition isExportRequire (call : JsNode) : option string :=
  match children call with
  | expression :: arguments =>
      if negb (isKind (kind expression) Identifier) then None
      else if negb (String.eqb (nodeText expression) "__export") then None
      else match arguments with
           | [arg] =>
               if negb (isKind (kind arg) CallExpression) then None
               else isRequire arg
           | _ => None
           end
  | [] => None
  end.

(** [if (require)] on the result of [isRequire]. *)
Definition truthyRequire (require : option string) : option string :=
  match require with
  | Some r => if Js.truthy r then Some r else None
  | None => None
  end.

Definition setModuleVariable (modName varName : string) (s : State) : State :=
  mkState (output s) (namespaceImports s)
          (JsObject.set modName varName (moduleVariables s))
          (strippedStrict s) (unusedIndex s).

Definition setNamespaceImport (varName : string) (s : State) : State :=
  mkState (output s) (JsObject.set varName true (namespaceImports s))
          (moduleVariables s) (strippedStrict s) (unusedIndex s).

Definition setStrippedStrict (s : State) : State :=
  mkState (output s) (namespaceImports s) (moduleVariables s) true (unusedIndex s).

Definition incrementUnusedIndex (s : State) : State :=
  mkState (output s) (namespaceImports s) (moduleVariables s)
          (strippedStrict s) (S (unusedIndex s)).

(** The part of [emitRewrittenRequires] after the call has been found:
    [varName] is [None] when the statement declares no variable. *)
Definition rewriteRequire (r : Range) (varName : option string) (call : JsNode)
    (s : State) : bool * State :=
  match truthyRequire (isRequire call) with
  | None => (false, s)
  | Some require =>
      let '(varName, s) :=
        match varName with
        | Some v => (v, s)
        | None =>
            (Js.cat ["unused_"; Js.numberToString (Z.of_nat (unusedIndex s)); "_"],
             incrementUnusedIndex s)
        end in
      let '(modName, s) :=
        if String.prefix "goog:" require
        then (Js.substr 5 require, setNamespaceImport varName s)
        else (pathToModuleName fileName require, s) in
      let s := writeRange (getFullStart r) (getStart r) s in
      if JsObject.hasOwnProperty modName (moduleVariables s) then
        let bound := match JsObject.get modName (moduleVariables s) with
                     | Some v => v
                     | None => "undefined"
                     end in
        (true, emit (Js.cat ["var "; varName; " = "; bound; ";"]) s)
      else
        let s := emit (Js.cat ["var "; varName; " = goog.require('"; modName; "');"]) s in
        (true, setModuleVariable modName varName s)
  end.

Definition emitRewrittenRequires (node : Statement) (s : State) : bool * State :=
  match node with
  | VariableStatement r declarations =>
      match declarations with
      | [decl] =>
          if negb (isKind (kind (name decl)) Identifier) then (false, s)
          else
            let varName := nodeText (name decl) in
            match initializer decl with
            | Some call =>
                if negb (isKind (kind call) CallExpression) then (false, s)
                else rewriteRequire r (if Js.truthy varName then Some varName else None)
                                    call s
            | None => (false, s)
            end
      | _ => (false, s)
      end
  | ExpressionStatement r expr =>
      if negb (isKind (kind expr) CallExpression) then (false, s)
      else
        match truthyRequire (isExportRequire expr) with
        | Some require =>
            let modName := pathToModuleName fileName require in
            let s := writeRange (getFullStart r) (getStart r) s in
            let s := emit (Js.cat ["__export(goog.require('"; modName; "'));"]) s in
            (true, setModuleVariable modName "*" s)
        | None => rewriteRequire r None expr s
        end
  | OtherStatement _ _ => (false, s)
  end.

Definition visitTopLevel (node : Statement) (s : State) : State :=
  match node with
  | ExpressionStatement r _ =>
      if negb (strippedStrict s) && isUseStrict node then
        setStrippedStrict (writeRange (getFullStart r) (getStart r) s)
      else
        let '(rewritten, s') := emitRewrittenRequires node s in
        if rewritten then s' else visitStatement node s'
  | VariableStatement _ _ =>
      let '(rewritten, s') := emitRewrittenRequires node s in
      if rewritten then s' else visitStatement node s'
  | OtherStatement _ _ => visitStatement node s
  end.

(** The loop of [process] over the statements, from offset [pos]. *)
Fixpoint processStatements (stmts : list Statement) (pos : nat) (s : State)
    : nat * State :=
  match stmts with
  | [] => (pos, s)
  | stmt :: rest =>
      let s := writeRange pos (getFullStart (statementRange stmt)) s in
      let s := visitTopLevel stmt s in
      processStatements rest (getEnd (statementRange stmt)) s
  end.

(** [process]: the output text and [referencedModules]. *)
Definition process (statements : list Statement) : string * list string :=
  let moduleName := pathToModuleName EmptyString fileName in
  let s := emit (Js.cat ["goog.module('"; moduleName; "');"]) newPostProcessor in
  let '(pos, s) := processStatements statements 0 s in
  let s := writeRange pos (String.length fileText) s in
  (Js.cat (output s), JsObject.keys (moduleVariables s)).

End Process.

End PostProcessor.

(** ** Conditions on the input *)

(** The dotted paths that [visitExterns] records in [emittedNamespaces]
    while visiting [node] under [namespace] are all plain keys. *)
Fixpoint plainPaths (namespace : list string) (node : Node) : bool :=
  match node with
  | ModuleDeclaration _ name body =>
      match nameKind name with
      | Identifier =>
          JsObject.plainKey (Js.join "." (namespace ++ [getIdentifierText name]))
          && plainPaths (namespace ++ [getIdentifierText name]) body
      | _ => true
      end
  | ModuleBlock _ statements => forallb (plainPaths namespace) statements
  | ClassDeclaration _ decl | InterfaceDeclaration _ decl =>
      JsObject.plainKey (Js.join "." (namespace ++ [nameGetText (declName decl)]))
  | _ => true
  end.

(** The state in which every path in the log of skeletons is logged once
    and is recorded in [emittedNamespaces]. *)
Definition skeletonsOnce (s : Annotator) : Prop :=
  NoDup (skeletonLog s)
  /\ forall p, In p (skeletonLog s) ->
               JsObject.hasOwnProperty p (emittedNamespaces s) = true.

(** The values of the members of an enum as the specification words them:
    walk the members in declaration order with an implicit counter [i]; a
    member with a constant initializer takes that constant and resets the
    counter to the constant plus one; a member without initializer takes the
    counter, which then goes up by one; a member whose initializer is not a
    constant keeps its initializer expression.  (This definition is the
    specification's; [gatherMembers] is the code's.) *)
Fixpoint enumValues (i : Z) (ms : list EnumMember) : list (string * (Z + Expression)) :=
  match ms with
  | [] => []
  | m :: rest =>
      let n := nameGetText (enumMemberName m) in
      match initializer m, constantValue m with
      | Some _, Some c => (n, inl c) :: enumValues (c + 1) rest
      | Some init, None => (n, inr init) :: enumValues i rest
      | None, _ => (n, inl i) :: enumValues (i + 1) rest
      end
  end.

Definition enumMemberNames (ms : list EnumMember) : list string :=
  map (fun m => nameGetText (enumMemberName m)) ms.

(** ** Relations between states of the annotator *)

(** [frames s s']: going from [s] to [s'] keeps the sink selector and the
    log of skeletons, forgets no emitted namespace, and, while the sink is
    the externs buffer, leaves the main buffer untouched. *)
Definition frames (s s' : Annotator) : Prop :=
  output s' = output s
  /\ skeletonLog s' = skeletonLog s
  /\ (forall k, JsObject.hasOwnProperty k (emittedNamespaces s) = true ->
                JsObject.hasOwnProperty k (emittedNamespaces s') = true)
  /\ (output s = ExternsOutput -> mainOutput s' = mainOutput s).

(** [untouched s s']: same sink selector, same main buffer, and no emitted
    namespace forgotten. *)
Definition untouched (s s' : Annotator) : Prop :=
  output s' = output s
  /\ mainOutput s' = mainOutput s
  /\ (forall k, JsObject.hasOwnProperty k (emittedNamespaces s) = true ->
                JsObject.hasOwnProperty k (emittedNamespaces s') = true).

(** A tag line that the parser must reject: an [@type] tag, or an [@param]
    or [@return] tag whose text opens with a brace. *)
Definition handWrittenType (name text : string) : Prop :=
  name = "type"
  \/ ((name = "param" \/ name = "return") /\ Js.firstCharIs "{"%char text = true).

(** ** Induction on syntax trees *)

Section NodeInduction.

Variable P : Node -> Prop.
Hypothesis onModuleDeclaration :
  forall info name body, P body -> P (ModuleDeclaration info name body).
Hypothesis onModuleBlock :
  forall info statements, Forall P statements -> P (ModuleBlock info statements).
Hypothesis onClass : forall info decl, P (ClassDeclaration info decl).
Hypothesis onInterface : forall info decl, P (InterfaceDeclaration info decl).
Hypothesis onFunction : forall info f, P (FunctionDeclaration info f).
Hypothesis onVariables : forall info ds, P (VariableStatement info ds).
Hypothesis onEnum : forall info decl, P (EnumDeclaration info decl).
Hypothesis onOther : forall info kind, P (OtherNode info kind).

Fixpoint Node_induction (node : Node) : P node :=
  match node with
  | ModuleDeclaration info name body =>
      onModuleDeclaration info name body (Node_induction body)
  | ModuleBlock info statements =>
      onModuleBlock info statements
        ((fix all (l : list Node) : Forall P l :=
            match l with
            | [] => Forall_nil P
            | n :: r => Forall_cons n (Node_induction n) (all r)
            end) statements)
  | ClassDeclaration info decl => onClass info decl
  | InterfaceDeclaration info decl => onInterface info decl
  | FunctionDeclaration info f => onFunction info f
  | VariableStatement info ds => onVariables info ds
  | EnumDeclaration info decl => onEnum info decl
  | OtherNode info kind => onOther info kind
  end.

End NodeInduction.

(** Induction on the expressions of the module-rewrite pass. *)

Section JsNodeInduction.

Import PostProcessor.

Variable P : JsNode -> Prop.
Hypothesis onNode : forall k r t cs, Forall P cs -> P (mkNode k r t cs).

Fixpoint JsNode_induction (n : JsNode) : P n :=
  match n with
  | mkNode k r t cs =>
      onNode k r t cs
        ((fix all (l : list JsNode) : Forall P l :=
            match l with
            | [] => Forall_nil P
            | c :: rest => Forall_cons c (JsNode_induction c) (all rest)
            end) cs)
  end.

End JsNodeInduction.

(** ** The statements of the module-rewrite pass *)

Module Requires.

Import PostProcessor.

Definition noRange : Range := mkRange 0 0 0.

(** [require("R")] *)
Definition requireCall (R : string) : JsNode :=
  mkNode CallExpression noRange EmptyString
         [mkNode Identifier noRange "require" []; mkNode StringLiteral noRange R []].

(** [var X = require("R");] *)
Definition varRequire (r : Range) (X R : string) : Statement :=
  VariableStatement r
    [mkVariableDeclaration (mkNode Identifier noRange X []) (Some (requireCall R))].

(** [__export(require("R"));] *)
Definition exportRequire (r : Range) (R : string) : Statement :=
  ExpressionStatement r
    (mkNode CallExpression noRange EmptyString
            [mkNode Identifier noRange "__export" []; requireCall R]).

Section Resolution.

Variable fileName : string.
Variable fileText : string.
Variable pathToModuleName : string -> string -> string.

(** The module identifier of a raw specifier in a [require]. *)
Definition resolve (require : string) : string :=
  if String.prefix "goog:" require then Js.substr 5 require
  else pathToModuleName fileName require.

(** The module that a statement exports from, when it is an
    [__export(require(...))] that the pass rewrites. *)
Definition exportedModule (stmt : Statement) : option string :=
  match stmt with
  | ExpressionStatement _ expr =>
      if isKind (kind expr) CallExpression then
        match truthyRequire (isExportRequire expr) with
        | Some require => Some (pathToModuleName fileName require)
        | None => None
        end
      else None
  | _ => None
  end.

(** The module that a statement requires, when it is a [require] that the
    pass rewrites. *)
Definition requiredModule (stmt : Statement) : option string :=
  match stmt with
  | VariableStatement _ [decl] =>
      if isKind (kind (name decl)) Identifier then
        match initializer decl with
        | Some call =>
            if isKind (kind call) CallExpression
            then option_map resolve (truthyRequire (isRequire call))
            else None
        | None => None
        end
      else None
  | ExpressionStatement _ expr =>
      if isKind (kind expr) CallExpression
      then option_map resolve (truthyRequire (isRequire expr))
      else None
  | _ => None
  end.

(** The module a statement refers to, either way.  A leading [use strict]
    refers to none. *)
Definition referencedModule (stmt : Statement) : option string :=
  match exportedModule stmt with
  | Some m => Some m
  | None => requiredModule stmt
  end.

Definition referencedModulesOf (stmts : list Statement) : list string :=
  flat_map (fun stmt => match referencedModule stmt with
                        | Some m => [m]
                        | None => []
                        end) stmts.

(** The state in which [process] starts its loop. *)
Definition startState : State :=
  emit (Js.cat ["goog.module('"; pathToModuleName EmptyString fileName; "');"])
       newPostProcessor.

(** The state in which [process] hands to [visitTopLevel] the statement of
    range [next] that follows the statements [before]. *)
Definition stateAt (before : list Statement) (next : Range) : State :=
  let '(pos, s) := processStatements fileName fileText pathToModuleName before 0 startState in
  writeRange fileText pos (getFullStart next) s.

End Resolution.

(** The distinct elements of a list in the order of their first
    occurrences, after those of [seen]. *)
Fixpoint firstOccurrences (seen l : list string) : list string :=
  match l with
  | [] => seen
  | x :: r => firstOccurrences (if includes x seen then seen else seen ++ [x]) r
  end.

(** Everything in the state but the output. *)
Definition bindings (s : State) : JsObject.t bool * JsObject.t string * bool * nat :=
  (namespaceImports s, moduleVariables s, strippedStrict s, unusedIndex s).

(** The state after the bookkeeping of a namespace import, if [R] is one. *)
Definition importedAs (R X : string) (s : State) : State :=
  if String.prefix "goog:" R then setNamespaceImport X s else s.

(** The file [x;'use strict';]: its text and its two statements. *)
Definition lateStrictText : string := "x;'use strict';".
Definition lateStrict : list Statement :=
  [ OtherStatement (mkRange 0 0 2) [mkNode Identifier (mkRange 0 0 1) "x" []];
    ExpressionStatement (mkRange 2 2 15)
      (mkNode StringLiteral (mkRange 2 2 14) "use strict" []) ].

Definition moduleNameOfPath (context path : string) : string := path.

End Requires.

From Stdlib Require DecimalPos DecimalZ.

(** ** Further notions about documentation comments *)

(** What [getJSDocAnnotation] builds: a tag carries no type and no flag, is
    never an [@type] tag, and has a parameter name only if it is an
    [@param] tag. *)
Definition parsedTag (t : JSDocTag) : Prop :=
  type t = None /\ optional t = false /\ restParam t = false
  /\ destructuring t = false
  /\ tagName t <> Some "type"
  /\ (parameterName t <> None -> tagName t = Some "param").

(** The names of the tags of a list, in order. *)
Definition tagNames (tags : list JSDocTag) : list string :=
  flat_map (fun t => match tagName t with Some n => [n] | None => [] end) tags.

(** The names on the lines that the tag pattern matches, in order. *)
Definition tagLineNames (lines : list string) : list string :=
  flat_map (fun l => match matchTagLine l with Some (n, _) => [n] | None => [] end)
           lines.

(** No line is a tag line. *)
Definition plainLines (lines : list string) : Prop :=
  Forall (fun l => matchTagLine l = None) lines.

(** ** Further notions about the annotation pass *)

(** The members of an enum numbered from [start]: the [k]-th member with the
    value [start + k]. *)
Definition numberedFrom (start : Z) (ms : list EnumMember) : list (string * (Z + Expression)) :=
  map (fun km : nat * EnumMember =>
         (nameGetText (enumMemberName (snd km)), inl (start + Z.of_nat (fst km))%Z))
      (combine (seq 0 (length ms)) ms).

Definition uninitialized (ms : list EnumMember) : Prop :=
  Forall (fun m => initializer m = None) ms.

(** The array [newDoc.tags] that [emitFunctionType] builds before it emits
    the comment, given the tags [jsDoc] of the existing comment. *)
Definition functionTags (untyped : bool) (translate : Ty -> bool -> string)
    (jsDoc extraTags : list JSDocTag) (fnDecl : FunctionLike) : list JSDocTag :=
  extraTags
  ++ filter (fun t => negb (isTagNamed "param" t || isTagNamed "return" t)) jsDoc
  ++ map (paramTag untyped translate jsDoc) (fnParameters fnDecl)
  ++ returnTag untyped translate jsDoc fnDecl.

(** [appends s s']: the three sequences that the annotator accumulates have
    only grown at their end. *)
Definition appends (s s' : Annotator) : Prop :=
  (exists more, mainOutput s' = mainOutput s ++ more)
  /\ (exists more, externsOutput s' = externsOutput s ++ more)
  /\ (exists more, diagnostics s' = diagnostics s ++ more).

(** ** [export * from ...]

    [expandSymbolsFromExportStar], given what the checker answers: the
    symbols in scope ([locals], each with its name and whether one of its
    declarations is an import specifier) and the names of the exports of the
    module.  The field [generatedExports], which no other modelled method
    reads, is passed in and returned beside the list of names. *)

Record LocalSymbol := mkLocalSymbol {
  localName : string;
  hasImportSpecifier : bool
}.

Definition localSetOf (locals : list LocalSymbol) : JsObject.t bool :=
  fold_left (fun localSet local =>
               if hasImportSpecifier local then localSet
               else JsObject.set (localName local) true localSet)
            locals JsObject.empty.

(** The body of the loop over the exports: the pair is [generatedExports]
    and [reexports]. *)
Definition reexportStep (localSet : JsObject.t bool)
    (acc : JsObject.t bool * JsObject.t bool) (name : string)
    : JsObject.t bool * JsObject.t bool :=
  let '(generatedExports, reexports) := acc in
  if JsObject.hasOwnProperty name localSet then acc
  else if JsObject.hasOwnProperty name generatedExports then acc
  else (JsObject.set name true generatedExports, JsObject.set name true reexports).

Definition expandSymbolsFromExportStar (locals : list LocalSymbol)
    (exports : list string) (generatedExports : JsObject.t bool)
    : list string * JsObject.t bool :=
  let localSet := localSetOf locals in
  let '(generatedExports, reexports) :=
    fold_left (reexportStep localSet) exports (generatedExports, JsObject.empty) in
  (JsObject.keys reexports, generatedExports).

(** ** The type-annotations helper of a class *)

(** A parameter of a constructor: whether it has a visibility modifier
    ([p.flags & VISIBILITY_FLAGS]), and the parameter as the declaration
    that [visitProperty] reads. *)
Record ConstructorParameter := mkConstructorParameter {
  hasVisibility : bool;
  asDeclaration : Member
}.

(** A member of a class as [emitTypeAnnotationsHelper] sorts it. *)
Inductive ClassElement :=
| ConstructorElement (parameters : list ConstructorParameter)
| PropertyElement (isStatic : bool) (prop : Member)
| OtherElement.

Section TypeAnnotationsHelper.

Variable fileText : string.
Variable untyped : bool.
Variable translate : Ty -> bool -> string.
Variable getLeadingCommentRanges : string -> list (nat * nat).
Variable escapeForComment : string -> string.

Definition constructorElements (ms : list ClassElement) : list (list ConstructorParameter) :=
  flat_map (fun m => match m with ConstructorElement ps => [ps] | _ => [] end) ms.

Definition staticProperties (ms : list ClassElement) : list Member :=
  flat_map (fun m => match m with PropertyElement true p => [p] | _ => [] end) ms.

Definition nonStaticProperties (ms : list ClassElement) : list Member :=
  flat_map (fun m => match m with PropertyElement false p => [p] | _ => [] end) ms.

Definition parameterProperties (ms : list ClassElement) : list Member :=
  match constructorElements ms with
  | ctor :: _ => map asDeclaration (filter hasVisibility ctor)
  | [] => []
  end.

Definition visitProperties (namespace : list string) (ps : list Member)
    (s : Annotator) : Annotator :=
  fold_left (fun s p => visitProperty fileText untyped translate getLeadingCommentRanges
                                      escapeForComment namespace p s) ps s.

Definition emitTypeAnnotationsHelper (className : string) (ms : list ClassElement)
    (s : Annotator) : Annotator :=
  let paramProps := parameterProperties ms in
  let nonStaticProps := nonStaticProperties ms in
  let staticProps := staticProperties ms in
  if (length nonStaticProps =? 0) && (length paramProps =? 0) && (length staticProps =? 0)
  then s
  else
    let s := emit (Js.cat [LF; LF; "  static _tsickle_typeAnnotationsHelper() {"; LF]) s in
    let s := visitProperties [className] staticProps s in
    let memberNamespace := [className; "prototype"] in
    let s := visitProperties memberNamespace nonStaticProps s in
    let s := visitProperties memberNamespace paramProps s in
    emit (Js.cat ["  }"; LF]) s.

End TypeAnnotationsHelper.

(** The names that [expandSymbolsFromExportStar] counts as local exports. *)
Definition localExports (locals : list LocalSymbol) : list string :=
  map localName (filter (fun l => negb (hasImportSpecifier l)) locals).

(** ** Further notions about the module-rewrite pass *)

Module Imports.

Import PostProcessor Requires.

(** [X.default] *)
Definition defaultAccess (r rx rd : Range) (X : string) : JsNode :=
  mkNode PropertyAccessExpression r EmptyString
         [mkNode Identifier rx X []; mkNode Identifier rd "default" []].

(** How [emitRewrittenRequires] reads a statement: not as a require, as an
    [__export(require(R))], or as a [require(R)] with or without a variable
    to bind. *)
Inductive Reading :=
| NotARequire
| ExportOf (R : string)
| RequireOf (variable : option string) (R : string).

Definition readStatement (stmt : Statement) : Reading :=
  match stmt with
  | VariableStatement _ [decl] =>
      if isKind (kind (name decl)) Identifier then
        match initializer decl with
        | Some call =>
            if isKind (kind call) CallExpression then
              match truthyRequire (isRequire call) with
              | Some R =>
                  RequireOf (if Js.truthy (nodeText (name decl))
                             then Some (nodeText (name decl)) else None) R
              | None => NotARequire
              end
            else NotARequire
        | None => NotARequire
        end
      else NotARequire
  | ExpressionStatement _ expr =>
      if isKind (kind expr) CallExpression then
        match truthyRequire (isExportRequire expr) with
        | Some R => ExportOf R
        | None =>
            match truthyRequire (isRequire expr) with
            | Some R => RequireOf None R
            | None => NotARequire
            end
        end
      else NotARequire
  | _ => NotARequire
  end.

(** The statement is a require of a namespace ([goog:...]). *)
Definition isNamespaceRequire (stmt : Statement) : bool :=
  match readStatement stmt with
  | RequireOf _ R => String.prefix "goog:" R
  | _ => false
  end.

(** The statement is a require that binds no variable of its own. *)
Definition needsFreshName (stmt : Statement) : bool :=
  match readStatement stmt with
  | RequireOf None _ => true
  | _ => false
  end.

(** The name made up for the [i]-th such require. *)
Definition unusedName (i : nat) : string :=
  Js.cat ["unused_"; Js.numberToString (Z.of_nat i); "_"].

Section Rewritten.

Variable fileName : string.
Variable fileText : string.
Variable pathToModuleName : string -> string -> string.

(** The result of rewriting a require of [R] that binds [variable]. *)
Definition rewritten (r : Range) (variable : option string) (R : string) (s : State)
    : State :=
  let X := match variable with Some X => X | None => unusedName (unusedIndex s) end in
  let s0 := match variable with Some _ => s | None => incrementUnusedIndex s end in
  let s1 := if String.prefix "goog:" R then setNamespaceImport X s0 else s0 in
  let s2 := writeRange fileText (getFullStart r) (getStart r) s1 in
  let m := resolve fileName pathToModuleName R in
  if JsObject.hasOwnProperty m (moduleVariables s)
  then emit (Js.cat ["var "; X; " = ";
                     match JsObject.get m (moduleVariables s) with
                     | Some v => v
                     | None => "undefined"
                     end; ";"]) s2
  else setModuleVariable m X (emit (Js.cat ["var "; X; " = goog.require('"; m; "');"]) s2).

End Rewritten.

(** [outputGrows s s']: the output has only grown at its end. *)
Definition outputGrows (s s' : State) : Prop :=
  exists more, output s' = output s ++ more.

End Imports.

(** ** Exceptions in the externs walk

    [visitExterns] tests [this.emittedNamespaces.hasOwnProperty(nsName)].
    [emittedNamespaces] is a plain object, so [hasOwnProperty] is found on
    [Object.prototype] unless the object has an own property of that name:
    once [writeExternsType] has recorded a class or an interface named
    [hasOwnProperty], the own property holds [true], and the call is a
    [TypeError].  Nothing in [visitExterns] or in its callers catches it, and
    the assignment [this.output = originalOutput] at the end of the method
    is not in a [finally]: the exception leaves every enclosing call of
    [visitExterns] without running it. *)

(** [o.hasOwnProperty(k)] as a call: [None] is the [TypeError]. *)
Definition callHasOwnProperty {V} (k : string) (o : JsObject.t V) : option bool :=
  if JsObject.hasOwnProperty "hasOwnProperty" o then None
  else Some (JsObject.hasOwnProperty k o).

(** How a call of [visitExterns] ends: it returns, or an exception leaves
    it; either way with the state the object is then in. *)
Inductive Outcome :=
| Returned (s : Annotator)
| Thrown (s : Annotator).

(** The statement [this.output = originalOutput], which only a call that
    reaches the end of the method runs. *)
Definition restoreOutput (originalOutput : Sink) (o : Outcome) : Outcome :=
  match o with
  | Returned s => Returned (setOutput originalOutput s)
  | Thrown s => Thrown s
  end.

(** A loop whose body can throw: the exception ends it. *)
Section ForEach.

Context {A : Type}.
Variable body : A -> Annotator -> Outcome.

Fixpoint forEachUntilThrown (l : list A) (s : Annotator) : Outcome :=
  match l with
  | [] => Returned s
  | x :: rest =>
      match body x s with
      | Returned s => forEachUntilThrown rest s
      | Thrown s => Thrown s
      end
  end.

End ForEach.

(** No own property hides the method [hasOwnProperty] of
    [emittedNamespaces]. *)
Definition unshadowed (s : Annotator) : Prop :=
  JsObject.hasOwnProperty "hasOwnProperty" (emittedNamespaces s) = false.

Section ExternsOutcome.

Variable fileText : string.
Variable untyped : bool.
Variable translate : Ty -> bool -> string.
Variable getLeadingCommentRanges : string -> list (nat * nat).
Variable closureExternsBlacklist : list string.

(** [visitExterns] with the exception.  On the runs that return, it is
    [visitExterns] (see [visitExternsOutcome_returned]). *)
Fixpoint visitExternsOutcome (node : Node) (namespace : list string) (s : Annotator)
    {struct node} : Outcome :=
  let originalOutput := output s in
  let s := setOutput ExternsOutput s in
  restoreOutput originalOutput
    match node with
    | ModuleDeclaration _ name body =>
        match nameKind name with
        | Identifier =>
            let namespace := namespace ++ [getIdentifierText name] in
            let nsName := Js.join "." namespace in
            match callHasOwnProperty nsName (emittedNamespaces s) with
            | None => Thrown s
            | Some seen =>
                let s := if seen then s else emitNamespaceSkeleton namespace s in
                let s := markEmitted nsName s in
                visitExternsOutcome body namespace s
            end
        | StringLiteral => Returned s
        | _ => Returned (errorUnimplementedKind name "externs generation of namespace" s)
        end
    | ModuleBlock _ statements =>
        (fix visitAll (stmts : list Node) (s : Annotator) : Outcome :=
           match stmts with
           | [] => Returned s
           | stmt :: rest =>
               match visitExternsOutcome stmt namespace s with
               | Returned s => visitAll rest s
               | Thrown s => Thrown s
               end
           end) statements s
    | ClassDeclaration _ decl =>
        Returned (writeExternsType fileText untyped translate getLeadingCommentRanges
                                   closureExternsBlacklist true decl namespace s)
    | InterfaceDeclaration _ decl =>
        Returned (writeExternsType fileText untyped translate getLeadingCommentRanges
                                   closureExternsBlacklist false decl namespace s)
    | FunctionDeclaration _ f =>
        let s := emitFunctionType fileText untyped translate getLeadingCommentRanges f [] s in
        Returned (writeExternsFunction (nameGetText (fnName f)) (parameterNames f)
                                       namespace s)
    | VariableStatement _ declarations =>
        Returned (fold_left (fun s decl =>
                               writeExternsVariable untyped translate
                                 closureExternsBlacklist decl namespace s)
                            declarations s)
    | EnumDeclaration _ decl => Returned (writeExternsEnum decl namespace s)
    | OtherNode _ kind =>
        Returned (emit (Js.cat [LF; "/* TODO: "; kind; " in "; Js.join "." namespace;
                                " */"; LF]) s)
    end.

(** The externs walk over the ambient declarations of a run, one call of
    [visitExterns] from the top level for each, until one throws. *)
Definition externsRun (nodes : list Node) (s : Annotator) : Outcome :=
  forEachUntilThrown (fun node s => visitExternsOutcome node [] s) nodes s.

End ExternsOutcome.

(** The state without the set of emitted namespaces: two states that agree
    on it differ at most in [emittedNamespaces]. *)
Definition buffers (s : Annotator)
    : list string * list string * Sink * list Diagnostic * list string :=
  (mainOutput s, externsOutput s, output s, diagnostics s, skeletonLog s).

(** The state [s] with [e] for its set of emitted namespaces. *)
Definition withNamespaces (e : JsObject.t bool) (s : Annotator) : Annotator :=
  mkAnnotator (mainOutput s) (externsOutput s) (output s) (diagnostics s) e
              (skeletonLog s).

(** [independent f]: the method [f] neither reads nor writes
    [emittedNamespaces]. *)
Definition independent (f : Annotator -> Annotator) : Prop :=
  forall e s, f (withNamespaces e s) = withNamespaces e (f s).

(** ** Enum constants as JavaScript numbers

    The counter [i] and the constants are JavaScript numbers.  On integers
    of magnitude below 2^53 their arithmetic is exact and [toString] prints
    the decimal digits, which is what [gatherMember] and
    [Js.numberToString] do on [Z]; from 2^53 on, [i + 1] rounds.  An enum is
    within that range when each constant of an initializer, and the counter
    that runs on from it over the members of the enum, stays below 2^53 in
    magnitude. *)
Definition safeConstant (total : Z) (m : EnumMember) : Prop :=
  match initializer m, constantValue m with
  | Some _, Some c => (- 2 ^ 53 < c /\ c + total < 2 ^ 53)%Z
  | _, _ => True
  end.

Definition safeConstants (ms : list EnumMember) : Prop :=
  (Z.of_nat (length ms) < 2 ^ 53)%Z
  /\ Forall (safeConstant (Z.of_nat (length ms))) ms.

(** A value of a member that is an integer is within the range. *)
Definition safeValue (entry : string * (Z + Expression)) : Prop :=
  match snd entry with
  | inl v => (- 2 ^ 53 < v < 2 ^ 53)%Z
  | inr _ => True
  end.

(** ** Comments in the usual layout *)

(** [n] spaces. *)
Fixpoint spaces (n : nat) : string :=
  match n with
  | O => EmptyString
  | S k => String " "%char (spaces k)
  end.

(** A line that opens with a tag that carries a hand-written type: [@type]
    alone or followed by a blank, or [@param] or [@return] followed by one or
    more spaces and an opening brace. *)
Inductive typedTagLine : string -> Prop :=
| typeAlone : typedTagLine "@type"
| typeThenBlank (c : ascii) (rest : string) :
    Js.isWhiteSpace c = true -> typedTagLine ("@type" ++ String c rest)
| paramThenBrace (n : nat) (rest : string) :
    typedTagLine ("@param" ++ spaces (S n) ++ "{" ++ rest)
| returnThenBrace (n : nat) (rest : string) :
    typedTagLine ("@return" ++ spaces (S n) ++ "{" ++ rest).

Fixpoint forallChars (p : ascii -> bool) (s : string) : bool :=
  match s with
  | EmptyString => true
  | String c r => p c && forallChars p r
  end.

(** The body of a documentation comment written the usual way: a line
    break after the opening, each line behind a space, a star and a space,
    and the closing on a line of its own behind a space. *)
Definition laidOut (lines : list string) : string :=
  Js.cat [LF; Js.join LF (map (fun l => (" * " ++ l)%string) lines); LF; " "].

(** The text of the lines [rest] that follow a line, with and without the
    star in front of each. *)
Fixpoint starred (rest : list string) : string :=
  match rest with
  | [] => EmptyString
  | l :: r => (LF ++ " * " ++ l ++ starred r)%string
  end.

Fixpoint unstarred (rest : list string) : string :=
  match rest with
  | [] => EmptyString
  | l :: r => (LF ++ l ++ unstarred r)%string
  end.

(** The lines that can be laid out that way and read back: none has a line
    terminator, and the last one is not empty and does not end with a
    blank. *)
Definition layable (lines : list string) : Prop :=
  Forall (fun l => forallChars notLineTerminator l = true) lines
  /\ last lines EmptyString <> EmptyString
  /\ Js.trimEnd (last lines EmptyString) = last lines EmptyString.

(** ** The chunks of a property declaration *)

Definition currentBuffer (s : Annotator) : list string :=
  match output s with
  | MainOutput => mainOutput s
  | ExternsOutput => externsOutput s
  end.

(** Going from [s] to [s'] appends [chunks] to the current buffer and
    keeps the sink selector. *)
Definition emitsChunks (s s' : Annotator) (chunks : list string) : Prop :=
  currentBuffer s' = currentBuffer s ++ chunks /\ output s' = output s.

Section PropertyChunks.

Variable fileText : string.
Variable untyped : bool.
Variable translate : Ty -> bool -> string.
Variable getLeadingCommentRanges : string -> list (nat * nat).
Variable escapeForComment : string -> string.

(** The tags of the documentation comment of a declaration, if it has one
    that parses. *)
Definition docTags (node : Range) : list JSDocTag :=
  match last (map Some (getLeadingCommentRanges (getFullText fileText node))) None with
  | Some (pos, end_) =>
      match getJSDocAnnotation (Js.slice pos end_ (getFullText fileText node)) with
      | Tags tags => tags
      | _ => []
      end
  | None => []
  end.

(** The declaration of the property [p] under [namespace]: the opening of
    a comment, the names of the tags of its own comment if any, its type,
    and the qualified name as a statement; or a note for a member whose name
    is neither an identifier nor a string. *)
Definition propertyChunks (namespace : list string) (p : Member) : list string :=
  match propertyName p with
  | Some name =>
      if Js.truthy name then
        let existing := existingAnnotation (docTags (range (memberInfo p))) in
        [" /**"]
        ++ (if Js.truthy existing then [Js.cat [" "; existing]] else [])
        ++ [Js.cat [" @type {"; typeToClosure untyped translate (memberType p) false;
                    "} */"; LF];
            Js.cat [Js.join "." (namespace ++ [name]); ";"; LF]]
      else [Js.cat ["/* TODO: handle strange member:"; LF;
                    escapeForComment (getText fileText (range (memberInfo p))); LF;
                    "*/"; LF]]
  | None => [Js.cat ["/* TODO: handle strange member:"; LF;
                     escapeForComment (getText fileText (range (memberInfo p))); LF;
                     "*/"; LF]]
  end.

End PropertyChunks.

(** ** The shapes of the statements that the module-rewrite pass rewrites *)

Module Shapes.

Import PostProcessor.

(** [require("R")] with the ranges of its nodes. *)
Definition requireCallAt (rc rf ra : Range) (R : string) : JsNode :=
  mkNode CallExpression rc EmptyString
         [mkNode Identifier rf "require" []; mkNode StringLiteral ra R []].

(** [var X = require("R");] with the ranges of its nodes. *)
Definition varRequireAt (r rn rc rf ra : Range) (X R : string) : Statement :=
  VariableStatement r
    [mkVariableDeclaration (mkNode Identifier rn X []) (Some (requireCallAt rc rf ra R))].

(** [__export(require("R"));] with the ranges of its nodes. *)
Definition exportRequireAt (r re rx rc rf ra : Range) (R : string) : Statement :=
  ExpressionStatement r
    (mkNode CallExpression re EmptyString
            [mkNode Identifier rx "__export" []; requireCallAt rc rf ra R]).

(** A call whose callee is the identifier [f] and whose only argument is
    [arg]. *)
Definition callOf (f : string) (arg call : JsNode) : Prop :=
  kind call = CallExpression
  /\ exists callee, children call = [callee; arg]
                    /\ kind callee = Identifier /\ nodeText callee = f.

(** [call] is [require("R")] with a non-empty [R]. *)
Definition requireOf (R : string) (call : JsNode) : Prop :=
  R <> EmptyString
  /\ exists arg, callOf "require" arg call /\ kind arg = StringLiteral /\ nodeText arg = R.

(** The three statements that are rewritten: [var x = require("R")] with
    one declaration, whose name is an identifier; [require("R")] as a
    statement; [__export(require("R"))] as a statement. *)
Inductive requireForm : Statement -> Prop :=
| varForm (r : Range) (x call : JsNode) (R : string) :
    kind x = Identifier -> requireOf R call ->
    requireForm (VariableStatement r [mkVariableDeclaration x (Some call)])
| bareForm (r : Range) (call : JsNode) (R : string) :
    requireOf R call -> requireForm (ExpressionStatement r call)
| exportForm (r : Range) (call inner : JsNode) (R : string) :
    callOf "__export" inner call -> requireOf R inner ->
    requireForm (ExpressionStatement r call).

(** [stmt] is [var X = require("R");], at the range [r]. *)
Definition bindsRequire (stmt : Statement) (r : Range) (X R : string) : Prop :=
  exists x call,
    stmt = VariableStatement r [mkVariableDeclaration x (Some call)]
    /\ kind x = Identifier /\ nodeText x = X /\ requireOf R call.

End Shapes.

(** ** Concrete inputs *)

Module Examples.

Definition noRange : Range := mkRange 0 0 0.

Definition identifier (s : string) : Name := mkName Identifier noRange s s.

Definition plainInfo : NodeInfo := mkInfo noRange (mkFlags false false false).
Definition ambientInfo : NodeInfo := mkInfo noRange (mkFlags true false false).

(** [enum E { A, B = 5, C }] *)
Definition enumABC : EnumDecl :=
  mkEnumDecl (identifier "E")
    [ mkEnumMember (identifier "A") None (Some 0%Z);
      mkEnumMember (identifier "B") (Some (mkExpression noRange)) (Some 5%Z);
      mkEnumMember (identifier "C") None (Some 6%Z) ].

(** [declare enum E { A }] *)
Definition declareEnumE : Node :=
  EnumDeclaration ambientInfo
    (mkEnumDecl (identifier "E") [mkEnumMember (identifier "A") None (Some 0%Z)]).

(** [interface I { x: number }], with and without [declare]. *)
Definition interfaceI : TypeDecl :=
  mkTypeDecl (identifier "I") (TypeId 0) false false
    [mkMember plainInfo (Property (identifier "x")) (TypeId 1)].

Definition declareInterfaceI : Node := InterfaceDeclaration ambientInfo interfaceI.
Definition plainInterfaceI : Node := InterfaceDeclaration plainInfo interfaceI.

(** [declare class K { constructor(); constructor(); }] *)
Definition constructorK : FunctionLike :=
  mkFunctionLike plainInfo true (identifier "constructor") [] (TypeId 0).

Definition declareClassK : Node :=
  ClassDeclaration ambientInfo
    (mkTypeDecl (identifier "K") (TypeId 0) false false
       [ mkMember plainInfo (Constructor constructorK) (TypeId 0);
         mkMember plainInfo (Constructor constructorK) (TypeId 0) ]).

(** [declare namespace a { namespace b {} namespace b {} }] *)
Definition declareNamespaceA : Node :=
  ModuleDeclaration ambientInfo (identifier "a")
    (ModuleBlock ambientInfo
       [ ModuleDeclaration ambientInfo (identifier "b") (ModuleBlock ambientInfo []);
         ModuleDeclaration ambientInfo (identifier "b") (ModuleBlock ambientInfo []) ]).

(** Collaborators that do nothing. *)
Definition noTranslate (t : Ty) (destructuring : bool) : string := "number".
Definition noComments (text : string) : list (nat * nat) := [].
Definition noEscape (text : string) : string := text.
Definition noVisit (e : Expression) (s : Annotator) : Annotator := s.
Definition noClass (i : NodeInfo) (d : TypeDecl) (s : Annotator) := (false, s).
Definition noFunction (i : NodeInfo) (f : FunctionLike) (s : Annotator) := (false, s).

(** A function preceded by two comments, the first of which has an [@type]
    tag: the text and the comment ranges the scanner reports for it. *)
Definition twoCommentsText : string :=
  "/** @type {x} */ /** @export */ function f() {}".
Definition twoCommentsRanges (text : string) : list (nat * nat) := [(0, 16); (17, 31)].
Definition functionF : FunctionLike :=
  mkFunctionLike (mkInfo (mkRange 0 32 47) (mkFlags false false false)) false
                 (identifier "f") [] (TypeId 0).

End Examples.

(** ** More concrete inputs *)

Module MoreExamples.

Import Examples.

(** [enum E { X, Y, Z }] *)
Definition membersXYZ : list EnumMember :=
  [ mkEnumMember (identifier "X") None (Some 0%Z);
    mkEnumMember (identifier "Y") None (Some 1%Z);
    mkEnumMember (identifier "Z") None (Some 2%Z) ].

Definition memberA : EnumMember := mkEnumMember (identifier "A") None (Some 0%Z).
Definition memberB5 : EnumMember :=
  mkEnumMember (identifier "B") (Some (mkExpression noRange)) (Some 5%Z).
Definition memberC : EnumMember := mkEnumMember (identifier "C") None (Some 6%Z).

(** A comment of three lines: two of text and a closing one. *)
Definition twoLineBody : string :=
  Js.cat [LF; " * one"; LF; " *   two"; LF; " "].

(** [declare class Symbol {}] and [declare namespace Symbol {}] *)
Definition classSymbol : TypeDecl :=
  mkTypeDecl (identifier "Symbol") (TypeId 0) false false [].

(** A class with the one field [x]. *)
Definition fieldX : Member := mkMember plainInfo (Property (identifier "x")) (TypeId 1).
Definition classWithField : list ClassElement := [PropertyElement false fieldX].

(** A file that exports [x] itself and re-exports a module exporting [x]
    and [y]. *)
Definition localsX : list LocalSymbol := [mkLocalSymbol "x" false].
Definition exportsXY : list string := ["x"; "y"].

(** [var a = 1, b = 2;] *)
Definition twoDeclarations : PostProcessor.Statement :=
  PostProcessor.VariableStatement noRange
    [ PostProcessor.mkVariableDeclaration
        (PostProcessor.mkNode PostProcessor.Identifier noRange "a" []) None;
      PostProcessor.mkVariableDeclaration
        (PostProcessor.mkNode PostProcessor.Identifier noRange "b" []) None ].

(** [require("a");] *)
Definition bareRequireA : PostProcessor.Statement :=
  PostProcessor.ExpressionStatement noRange (Requires.requireCall "a").

End MoreExamples.

(** ** Further concrete inputs *)

Module FurtherExamples.

Import Examples.

(** The file [declare enum E { A, B = 5, C }] and its one statement. *)
Definition declareEnumText : string := "declare enum E { A, B = 5, C }".
Definition declareEnumABC : Node :=
  EnumDeclaration (mkInfo (mkRange 0 0 30) (mkFlags true false false)) enumABC.

(** [declare class hasOwnProperty {}] and [declare namespace x {}] *)
Definition declareClassHasOwnProperty : Node :=
  ClassDeclaration ambientInfo
    (mkTypeDecl (identifier "hasOwnProperty") (TypeId 0) false false []).
Definition declareNamespaceX : Node :=
  ModuleDeclaration ambientInfo (identifier "x") (ModuleBlock ambientInfo []).

(** [declare class C {}] *)
Definition declareClassC : Node :=
  ClassDeclaration ambientInfo (mkTypeDecl (identifier "C") (TypeId 0) false false []).

(** The lines of a comment with a typed [@param] tag. *)
Definition typedParamLines : list string :=
  ["Adds one."; "@param {number} x the number"; "@return the sum"].

(** A class with a static field [y], a field [x] and a constructor with the
    parameter property [z]. *)
Definition fieldY : Member := mkMember plainInfo (Property (identifier "y")) (TypeId 2).
Definition fieldZ : Member := mkMember plainInfo (Property (identifier "z")) (TypeId 3).
Definition classWithThree : list ClassElement :=
  [ PropertyElement false MoreExamples.fieldX;
    ConstructorElement [mkConstructorParameter true fieldZ];
    PropertyElement true fieldY ].

(** The file [var a = require('m');var b = require('m');] *)
Definition twoRequiresText : string := "var a = require('m');var b = require('m');".
Definition requireA : PostProcessor.Statement :=
  Shapes.varRequireAt (mkRange 0 0 21) (mkRange 3 4 5) (mkRange 7 8 20)
                      (mkRange 7 8 15) (mkRange 16 16 19) "a" "m".
Definition requireB : PostProcessor.Statement :=
  Shapes.varRequireAt (mkRange 21 21 42) (mkRange 24 25 26) (mkRange 28 29 41)
                      (mkRange 28 29 36) (mkRange 37 37 40) "b" "m".

(** The file [var a = require('m');__export(require('m'));var b = require('m');] *)
Definition exportBetweenText : string :=
  "var a = require('m');__export(require('m'));var b = require('m');".
Definition exportBetween : list PostProcessor.Statement :=
  [ requireA;
    Shapes.exportRequireAt (mkRange 21 21 44) (mkRange 21 21 43) (mkRange 21 21 29)
                           (mkRange 30 30 42) (mkRange 30 30 37) (mkRange 38 38 41) "m";
    Shapes.varRequireAt (mkRange 44 44 65) (mkRange 47 48 49) (mkRange 51 52 64)
                        (mkRange 51 52 59) (mkRange 60 60 63) "b" "m" ].

(** [require('a', 'b');] *)
Definition requireTwoArguments : PostProcessor.Statement :=
  PostProcessor.ExpressionStatement noRange
    (PostProcessor.mkNode PostProcessor.CallExpression noRange EmptyString
       [ PostProcessor.mkNode PostProcessor.Identifier noRange "require" [];
         PostProcessor.mkNode PostProcessor.StringLiteral noRange "a" [];
         PostProcessor.mkNode PostProcessor.StringLiteral noRange "b" [] ]).

End FurtherExamples.

(** * Properties *)

(** ** Strings and objects *)

Lemma append_length (a b : string) :
  String.length (a ++ b)%string = String.length a + String.length b.
Proof. induction a as [|c a IH]; simpl; [reflexivity | now rewrite IH]. Qed.

Lemma substring_all (b : string) : substring 0 (String.length b) b = b.
Proof. induction b as [|c b IH]; simpl; [reflexivity | now rewrite IH]. Qed.

Lemma substring_skip (a b : string) (n : nat) :
  substring (String.length a) n (a ++ b)%string = substring 0 n b.
Proof. induction a as [|c a IH]; simpl; [reflexivity | exact IH]. Qed.

Lemma substring_head (a b : string) :
  substring 0 (String.length a) (a ++ b)%string = a.
Proof.
  induction a as [|c a IH]; simpl.
  - destruct b; reflexivity.
  - now rewrite IH.
Qed.

Lemma endsWith_append (a b : string) : Js.endsWith b (a ++ b)%string = true.
Proof.
  unfold Js.endsWith. rewrite append_length.
  replace (String.length a + String.length b - String.length b)
    with (String.length a) by lia.
  rewrite substring_skip, substring_all, String.eqb_refl.
  replace (String.length b <=? String.length a + String.length b) with true; [reflexivity|].
  symmetry. apply Nat.leb_le. lia.
Qed.

(** A comment that opens with a slash and two stars and closes with a star
    and a slash is a documentation comment, and the pattern captures what
    lies between. *)
Lemma matchJSDoc_delimited (body : string) :
  matchJSDoc ("/**" ++ body ++ "*/")%string = Some body.
Proof.
  unfold matchJSDoc.
  assert (Hend : Js.endsWith "*/" ("/**" ++ body ++ "*/")%string = true).
  { replace ("/**" ++ body ++ "*/")%string with (("/**" ++ body) ++ "*/")%string.
    - apply endsWith_append.
    - simpl. reflexivity. }
  rewrite Hend.
  assert (Hlen : String.length ("/**" ++ body ++ "*/")%string = 5 + String.length body).
  { rewrite !append_length. simpl. lia. }
  rewrite Hlen.
  replace (5 + String.length body - 5) with (String.length body) by lia.
  change (substring 3 (String.length body) ("/**" ++ body ++ "*/")%string)
    with (substring 0 (String.length body) (body ++ "*/")%string).
  rewrite substring_head.
  replace (5 <=? 5 + String.length body) with true
    by (symmetry; apply Nat.leb_le; lia).
  replace (String.prefix "/**" ("/**" ++ body ++ "*/")%string) with true;
    [reflexivity|].
  simpl. destruct (body ++ "*/")%string; reflexivity.
Qed.

(** ** The documentation-comment parser *)


Lemma parseTagLine_rejects (name text : string) :
  handWrittenType name text -> exists message, parseTagLine name text = inl message.
Proof.
  unfold parseTagLine. intros [-> | [[-> | ->] Hbrace]]; simpl.
  - eexists; reflexivity.
  - rewrite Hbrace. eexists; reflexivity.
  - rewrite Hbrace. eexists; reflexivity.
Qed.

Lemma parseLines_rejects (lines : list string) :
  forall tags line name text,
    In line lines ->
    matchTagLine line = Some (name, text) ->
    handWrittenType name text ->
    exists message, parseLines lines tags = Fault message.
Proof.
  induction lines as [|l rest IH]; intros tags line name text Hin Hmatch Hbad.
  - contradiction.
  - simpl. destruct Hin as [-> | Hin].
    + rewrite Hmatch. destruct (parseTagLine_rejects _ _ Hbad) as [m ->].
      exists m; reflexivity.
    + destruct (matchTagLine l) as [[n t]|].
      * destruct (parseTagLine n t) as [m|tag].
        -- exists m; reflexivity.
        -- eapply IH; eassumption.
      * destruct tags; eapply IH; eassumption.
Qed.

(** ** Objects as maps *)

Lemma hasOwnProperty_put_same {V} (k : string) (v : V) (o : JsObject.t V) :
  JsObject.hasOwnProperty k (JsObject.put k v o) = true.
Proof.
  induction o as [|[k' v'] o IH]; simpl.
  - now rewrite String.eqb_refl.
  - destruct (String.eqb k' k) eqn:E; simpl; rewrite E; simpl; auto.
Qed.

Lemma hasOwnProperty_put_mono {V} (k k' : string) (v : V) (o : JsObject.t V) :
  JsObject.hasOwnProperty k' o = true ->
  JsObject.hasOwnProperty k' (JsObject.put k v o) = true.
Proof.
  induction o as [|[k0 v0] o IH]; simpl; [discriminate|].
  intros H. destruct (String.eqb k0 k); simpl; [exact H|].
  apply orb_true_iff in H. apply orb_true_iff. destruct H; auto.
Qed.

Lemma hasOwnProperty_set_mono {V} (k k' : string) (v : V) (o : JsObject.t V) :
  JsObject.hasOwnProperty k' o = true ->
  JsObject.hasOwnProperty k' (JsObject.set k v o) = true.
Proof.
  unfold JsObject.set. destruct (String.eqb k "__proto__"); auto.
  apply hasOwnProperty_put_mono.
Qed.

Lemma plainKey_not_proto (k : string) :
  JsObject.plainKey k = true -> String.eqb k "__proto__" = false.
Proof.
  unfold JsObject.plainKey. destruct (String.eqb k "__proto__"); simpl; auto.
Qed.

Lemma hasOwnProperty_set_same {V} (k : string) (v : V) (o : JsObject.t V) :
  JsObject.plainKey k = true ->
  JsObject.hasOwnProperty k (JsObject.set k v o) = true.
Proof.
  intros H. unfold JsObject.set. rewrite (plainKey_not_proto _ H).
  apply hasOwnProperty_put_same.
Qed.

Lemma hasOwnProperty_keys {V} (k : string) (o : JsObject.t V) :
  JsObject.hasOwnProperty k o = true <-> In k (JsObject.keys o).
Proof.
  unfold JsObject.keys. induction o as [|[k' v'] o IH]; simpl.
  - split; [discriminate | contradiction].
  - rewrite orb_true_iff, IH, String.eqb_eq. tauto.
Qed.

Lemma put_fresh {V} (k : string) (v : V) (o : JsObject.t V) :
  ~ In k (JsObject.keys o) -> JsObject.put k v o = o ++ [(k, v)].
Proof.
  unfold JsObject.keys. induction o as [|[k' v'] o IH]; simpl; intros H.
  - reflexivity.
  - destruct (String.eqb k' k) eqn:E.
    + apply String.eqb_eq in E. tauto.
    + rewrite IH; [reflexivity | tauto].
Qed.

(** ** What the methods of the annotator leave alone *)


Lemma frames_refl (s : Annotator) : frames s s.
Proof. unfold frames; auto. Qed.

Lemma frames_trans (s1 s2 s3 : Annotator) :
  frames s1 s2 -> frames s2 s3 -> frames s1 s3.
Proof.
  unfold frames. intros (O1 & L1 & E1 & M1) (O2 & L2 & E2 & M2).
  repeat split.
  - congruence.
  - congruence.
  - auto.
  - intros H. rewrite M2, M1; auto. congruence.
Qed.

Lemma frames_emit (str : string) (s : Annotator) : frames s (emit str s).
Proof.
  unfold frames, emit. destruct (output s) eqn:E; simpl; repeat split; auto.
  discriminate.
Qed.

Lemma frames_error (start : nat) (m : string) (s : Annotator) :
  frames s (error start m s).
Proof. unfold frames, error; simpl; auto. Qed.

Lemma frames_markEmitted (k : string) (s : Annotator) : frames s (markEmitted k s).
Proof.
  unfold frames, markEmitted; simpl; repeat split; auto.
  intros k'. apply hasOwnProperty_set_mono.
Qed.

Lemma frames_fold {A} (f : Annotator -> A -> Annotator) (l : list A) :
  (forall s a, frames s (f s a)) -> forall s, frames s (fold_left f l s).
Proof.
  intros Hf. induction l as [|a l IH]; intros s; simpl.
  - apply frames_refl.
  - eapply frames_trans; [apply Hf | apply IH].
Qed.

Lemma frames_emits (chunks : list string) (s : Annotator) : frames s (emits chunks s).
Proof. unfold emits. apply frames_fold. intros; apply frames_emit. Qed.

Lemma frames_if (b : bool) (s s1 s2 : Annotator) :
  frames s s1 -> frames s s2 -> frames s (if b then s1 else s2).
Proof. destruct b; auto. Qed.

Create HintDb frames.

#[local] Hint Resolve frames_refl frames_emit frames_error frames_markEmitted
  frames_emits frames_if : frames.

Ltac frames_chain :=
  repeat first
    [ apply frames_refl
    | apply frames_emit
    | apply frames_emits
    | apply frames_error
    | apply frames_markEmitted
    | eapply frames_trans; [| first [apply frames_emit | apply frames_emits
                                     | apply frames_error | apply frames_markEmitted]] ].

Section AnnotationFrames.

Variable fileText : string.
Variable untyped : bool.
Variable translate : Ty -> bool -> string.
Variable getLeadingCommentRanges : string -> list (nat * nat).
Variable closureExternsBlacklist : list string.

Lemma frames_getJSDoc (node : Range) (s : Annotator) :
  frames s (snd (getJSDoc fileText getLeadingCommentRanges node s)).
Proof.
  unfold getJSDoc.
  destruct (last _ None) as [[pos end_]|]; simpl; [|apply frames_refl].
  destruct (getJSDocAnnotation _); simpl; auto with frames.
Qed.

Lemma frames_emitFunctionType (f : FunctionLike) (extra : list JSDocTag) (s : Annotator) :
  frames s (emitFunctionType fileText untyped translate getLeadingCommentRanges f extra s).
Proof.
  unfold emitFunctionType.
  pose proof (frames_getJSDoc (range (fnInfo f)) s) as H.
  destruct (getJSDoc _ _ _ s) as [doc s1]; simpl in H.
  eapply frames_trans; [exact H|]. frames_chain.
Qed.

Lemma frames_emitJSDocType (ty : Ty) (s : Annotator) :
  frames s (emitJSDocType untyped translate ty s).
Proof. unfold emitJSDocType. frames_chain. Qed.

Lemma frames_writeExternsFunction (name params : string) (ns : list string) (s : Annotator) :
  frames s (writeExternsFunction name params ns s).
Proof. unfold writeExternsFunction. destruct (0 <? length ns); apply frames_emit. Qed.

Lemma frames_writeExternsMember (typeName : string) (ns : list string) (m : Member)
    (s : Annotator) :
  frames s (writeExternsMember fileText untyped translate getLeadingCommentRanges
                               typeName ns m s).
Proof.
  unfold writeExternsMember. destruct (memberKind m) as [n|f|c|k n].
  - eapply frames_trans; [apply frames_emitJSDocType | apply frames_emit].
  - eapply frames_trans; [apply frames_emitFunctionType | apply frames_emit].
  - apply frames_refl.
  - apply frames_emit.
Qed.

Lemma frames_writeExternsType (isClass : bool) (decl : TypeDecl) (ns : list string)
    (s : Annotator) :
  frames s (writeExternsType fileText untyped translate getLeadingCommentRanges
                             closureExternsBlacklist isClass decl ns s).
Proof.
  unfold writeExternsType.
  destruct (includes _ closureExternsBlacklist); [apply frames_markEmitted|].
  set (s1 := markEmitted _ (markEmitted _ s)).
  assert (H1 : frames s s1).
  { eapply frames_trans; apply frames_markEmitted. }
  match goal with
  | |- frames s (let '(p, s0) := ?X in _) =>
      assert (H2 : frames s (snd X)); [|destruct X as [p s2]; simpl in H2]
  end.
  { destruct isClass.
    - destruct (constructorsOf (members decl)) as [|ctor more]; simpl.
      + eapply frames_trans; [exact H1 | apply frames_emit].
      + eapply frames_trans; [|apply frames_emitFunctionType].
        destruct more; [exact H1|].
        eapply frames_trans; [exact H1 | apply frames_error].
    - simpl. eapply frames_trans; [exact H1 | apply frames_emit]. }
  eapply frames_trans; [exact H2|].
  eapply frames_trans; [apply frames_writeExternsFunction|].
  apply frames_fold. intros. apply frames_writeExternsMember.
Qed.

Lemma frames_writeExternsVariable (decl : VariableDeclaration) (ns : list string)
    (s : Annotator) :
  frames s (writeExternsVariable untyped translate closureExternsBlacklist decl ns s).
Proof.
  unfold writeExternsVariable, errorUnimplementedKind.
  destruct (isIdentifier _); [|apply frames_error].
  destruct (includes _ _); [apply frames_refl|].
  destruct (0 <? length ns);
    (eapply frames_trans; [apply frames_emitJSDocType | apply frames_emit]).
Qed.

Lemma frames_writeExternsEnum (decl : EnumDecl) (ns : list string) (s : Annotator) :
  frames s (writeExternsEnum decl ns s).
Proof.
  unfold writeExternsEnum.
  eapply frames_trans; [|apply frames_fold; intros; frames_chain].
  frames_chain.
Qed.

End AnnotationFrames.


(** ** The externs walk *)


Lemma untouched_refl (s : Annotator) : untouched s s.
Proof. unfold untouched; auto. Qed.

Lemma untouched_trans (s1 s2 s3 : Annotator) :
  untouched s1 s2 -> untouched s2 s3 -> untouched s1 s3.
Proof.
  unfold untouched. intros (O1 & M1 & E1) (O2 & M2 & E2).
  repeat split; [congruence | congruence | auto].
Qed.

Lemma frames_untouched (s s' : Annotator) :
  output s = ExternsOutput -> frames s s' -> untouched s s'.
Proof. unfold frames, untouched. intros H (O & _ & E & M). auto. Qed.

(** The walk as the code has it: swap the sink, run the body of the
    [switch], swap back. *)
Lemma untouched_swap (s y : Annotator) :
  untouched (setOutput ExternsOutput s) y ->
  untouched s (setOutput (output s) y).
Proof.
  unfold untouched, setOutput; simpl. intros (O & M & E). auto.
Qed.

Lemma untouched_emitNamespaceSkeleton (ns : list string) (s : Annotator) :
  output s = ExternsOutput -> untouched s (emitNamespaceSkeleton ns s).
Proof.
  intros H. unfold emitNamespaceSkeleton.
  match goal with
  | |- untouched s (logSkeleton _ ?x) => assert (F : frames s x)
  end.
  { eapply frames_trans; [apply frames_emit|].
    destruct (1 <? length ns); apply frames_emit. }
  destruct (frames_untouched _ _ H F) as (O & M & E).
  unfold untouched, logSkeleton; simpl. auto.
Qed.

Section Externs.

Variable fileText : string.
Variable untyped : bool.
Variable translate : Ty -> bool -> string.
Variable getLeadingCommentRanges : string -> list (nat * nat).
Variable closureExternsBlacklist : list string.

Local Abbreviation visitExterns' :=
  (visitExterns fileText untyped translate getLeadingCommentRanges closureExternsBlacklist).

Lemma visitExterns_block (info : NodeInfo) (stmts : list Node) (ns : list string)
    (s : Annotator) :
  visitExterns' (ModuleBlock info stmts) ns s
  = setOutput (output s)
      (fold_left (fun s stmt => visitExterns' stmt ns s) stmts
                 (setOutput ExternsOutput s)).
Proof.
  reflexivity.
Qed.

Lemma visitExterns_untouched (node : Node) :
  forall ns s, untouched s (visitExterns' node ns s).
Proof.
  induction node using Node_induction; intros ns s.
  - (* a namespace *)
    simpl. apply untouched_swap.
    destruct (nameKind name);
      try (apply frames_untouched; [reflexivity|];
           first [apply frames_refl | apply frames_error]).
    eapply untouched_trans; [|apply IHnode].
    eapply untouched_trans;
      [|apply frames_untouched; [|apply frames_markEmitted]].
    + destruct (JsObject.hasOwnProperty _ _); [apply untouched_refl|].
      apply untouched_emitNamespaceSkeleton. reflexivity.
    + destruct (JsObject.hasOwnProperty _ _); [reflexivity|].
      apply untouched_emitNamespaceSkeleton. reflexivity.
  - rewrite visitExterns_block. apply untouched_swap.
    generalize (setOutput ExternsOutput s).
    induction H as [|n r Hn Hr IH]; intros x; simpl.
    + apply untouched_refl.
    + eapply untouched_trans; [apply Hn | apply IH].
  - simpl. apply untouched_swap. apply frames_untouched; [reflexivity|].
    apply frames_writeExternsType.
  - simpl. apply untouched_swap. apply frames_untouched; [reflexivity|].
    apply frames_writeExternsType.
  - simpl. apply untouched_swap. apply frames_untouched; [reflexivity|].
    eapply frames_trans; [apply frames_emitFunctionType | apply frames_writeExternsFunction].
  - simpl. apply untouched_swap. apply frames_untouched; [reflexivity|].
    apply frames_fold. intros. apply frames_writeExternsVariable.
  - simpl. apply untouched_swap. apply frames_untouched; [reflexivity|].
    apply frames_writeExternsEnum.
  - simpl. apply untouched_swap. apply frames_untouched; [reflexivity|].
    apply frames_emit.
Qed.

End Externs.

(** ** Skeletons of namespaces *)

Lemma skeletonsOnce_new : skeletonsOnce newAnnotator.
Proof. split; simpl; [constructor | contradiction]. Qed.

Lemma skeletonsOnce_frames (s s' : Annotator) :
  frames s s' -> skeletonsOnce s -> skeletonsOnce s'.
Proof.
  unfold frames, skeletonsOnce. intros (_ & L & E & _) (N & I).
  rewrite L. split; auto.
Qed.

Lemma skeletonsOnce_setOutput (o : Sink) (s : Annotator) :
  skeletonsOnce s <-> skeletonsOnce (setOutput o s).
Proof. unfold skeletonsOnce, setOutput; simpl; tauto. Qed.

(** The guarded emission and the update that follows it. *)
Lemma skeletonsOnce_namespace (ns : list string) (s : Annotator) :
  JsObject.plainKey (Js.join "." ns) = true ->
  skeletonsOnce s ->
  skeletonsOnce
    (markEmitted (Js.join "." ns)
       (if JsObject.hasOwnProperty (Js.join "." ns) (emittedNamespaces s)
        then s else emitNamespaceSkeleton ns s)).
Proof.
  intros Hplain Hs.
  destruct (JsObject.hasOwnProperty _ _) eqn:Hhas.
  - eapply skeletonsOnce_frames; [apply frames_markEmitted | exact Hs].
  - destruct Hs as (N & I). unfold emitNamespaceSkeleton.
    match goal with
    | |- skeletonsOnce (markEmitted _ (logSkeleton _ ?x)) => assert (F : frames s x)
    end.
    { eapply frames_trans; [apply frames_emit|].
      destruct (1 <? length ns); apply frames_emit. }
    destruct F as (_ & L & E & _).
    unfold skeletonsOnce, markEmitted, logSkeleton; simpl. rewrite L. split.
    + apply NoDup_app; [exact N | repeat constructor; simpl; tauto |].
      intros p Hp [<- | []]. apply I in Hp. congruence.
    + intros p Hp. apply in_app_or in Hp. destruct Hp as [Hp | [<- | []]].
      * apply hasOwnProperty_set_mono. auto.
      * apply hasOwnProperty_set_same. exact Hplain.
Qed.

Section ExternsTheorems.

Variable fileText : string.
Variable untyped : bool.
Variable translate : Ty -> bool -> string.
Variable getLeadingCommentRanges : string -> list (nat * nat).
Variable escapeForComment : string -> string.
Variable visit : Expression -> Annotator -> Annotator.
Variable closureExternsBlacklist : list string.
Variable processClass : NodeInfo -> TypeDecl -> Annotator -> bool * Annotator.
Variable processFunction : NodeInfo -> FunctionLike -> Annotator -> bool * Annotator.

Local Abbreviation visitExterns' :=
  (visitExterns fileText untyped translate getLeadingCommentRanges closureExternsBlacklist).
Local Abbreviation maybeProcess' :=
  (maybeProcess fileText untyped translate getLeadingCommentRanges escapeForComment
                visit closureExternsBlacklist processClass processFunction).

Lemma visitExterns_skeletonsOnce (node : Node) :
  forall ns s,
    plainPaths ns node = true -> skeletonsOnce s ->
    skeletonsOnce (visitExterns' node ns s).
Proof.
  induction node using Node_induction; intros ns s Hplain Hs;
    [ | rewrite visitExterns_block | | | | | | ];
    apply -> skeletonsOnce_setOutput;
    apply (proj1 (skeletonsOnce_setOutput ExternsOutput s)) in Hs.
  - simpl in Hplain. destruct (nameKind name).
    + apply andb_true_iff in Hplain. destruct Hplain as [Hkey Hbody].
      apply IHnode; [exact Hbody|].
      exact (skeletonsOnce_namespace (ns ++ [getIdentifierText name])
               (setOutput ExternsOutput s) Hkey Hs).
    + exact Hs.
    + eapply skeletonsOnce_frames; [apply frames_error | exact Hs].
    + eapply skeletonsOnce_frames; [apply frames_error | exact Hs].
    + eapply skeletonsOnce_frames; [apply frames_error | exact Hs].
  - simpl in Hplain. revert Hplain Hs. generalize (setOutput ExternsOutput s).
    induction H as [|n r Hn Hr IH]; intros x Hplain Hx; simpl; [exact Hx|].
    simpl in Hplain. apply andb_true_iff in Hplain. destruct Hplain as [Hp1 Hp2].
    apply IH; [exact Hp2|]. apply Hn; assumption.
  - eapply skeletonsOnce_frames; [apply frames_writeExternsType | exact Hs].
  - eapply skeletonsOnce_frames; [apply frames_writeExternsType | exact Hs].
  - eapply skeletonsOnce_frames; [|exact Hs].
    eapply frames_trans; [apply frames_emitFunctionType | apply frames_writeExternsFunction].
  - eapply skeletonsOnce_frames; [|exact Hs].
    apply frames_fold. intros. apply frames_writeExternsVariable.
  - eapply skeletonsOnce_frames; [apply frames_writeExternsEnum | exact Hs].
  - eapply skeletonsOnce_frames; [apply frames_emit | exact Hs].
Qed.

End ExternsTheorems.

(** ** The set of emitted namespaces and the writers *)

Lemma withNamespaces_own (s : Annotator) : withNamespaces (emittedNamespaces s) s = s.
Proof. destruct s; reflexivity. Qed.

Lemma buffers_withNamespaces (s1 s2 : Annotator) :
  buffers s1 = buffers s2 <-> s1 = withNamespaces (emittedNamespaces s1) s2.
Proof.
  unfold buffers, withNamespaces. destruct s1, s2; simpl. split.
  - intros [= -> -> -> -> ->]. reflexivity.
  - intros [= -> -> -> -> ->]. reflexivity.
Qed.

Lemma emittedNamespaces_independent (f : Annotator -> Annotator) (s : Annotator) :
  independent f -> emittedNamespaces (f s) = emittedNamespaces s.
Proof.
  intros H. rewrite <- (withNamespaces_own s) at 1. rewrite H. reflexivity.
Qed.

Lemma buffers_independent (f : Annotator -> Annotator) (s1 s2 : Annotator) :
  independent f -> buffers s1 = buffers s2 -> buffers (f s1) = buffers (f s2).
Proof.
  intros H E. apply buffers_withNamespaces in E. rewrite E, H. reflexivity.
Qed.

Lemma independent_id : independent (fun s => s).
Proof. intros e s. reflexivity. Qed.

Lemma independent_compose (f g : Annotator -> Annotator) :
  independent f -> independent g -> independent (fun s => g (f s)).
Proof. intros Hf Hg e s. rewrite Hf, Hg. reflexivity. Qed.

Lemma independent_if (b : bool) (f g : Annotator -> Annotator) :
  independent f -> independent g -> independent (fun s => if b then f s else g s).
Proof. destruct b; auto. Qed.

Lemma independent_emit (str : string) : independent (emit str).
Proof. intros e s. unfold emit, withNamespaces; simpl. destruct (output s); reflexivity. Qed.

Lemma independent_error (start : nat) (m : string) : independent (error start m).
Proof. intros e s. reflexivity. Qed.

Lemma independent_logSkeleton (k : string) : independent (logSkeleton k).
Proof. intros e s. reflexivity. Qed.

Lemma independent_fold {A} (f : Annotator -> A -> Annotator) (l : list A) :
  (forall a, independent (fun s => f s a)) -> independent (fun s => fold_left f l s).
Proof.
  intros Hf. induction l as [|a l IH]; intros e s; simpl; [reflexivity|].
  rewrite (Hf a e s). apply IH.
Qed.

Lemma independent_emits (chunks : list string) : independent (emits chunks).
Proof. unfold emits. apply independent_fold. intros a. apply independent_emit. Qed.

Lemma independent_emitNamespaceSkeleton (ns : list string) :
  independent (emitNamespaceSkeleton ns).
Proof.
  intros e s. unfold emitNamespaceSkeleton.
  rewrite independent_emit. destruct (1 <? length ns); rewrite independent_emit; reflexivity.
Qed.

Lemma independent_writeExternsFunction (name params : string) (ns : list string) :
  independent (writeExternsFunction name params ns).
Proof.
  intros e s. unfold writeExternsFunction.
  destruct (0 <? length ns); apply independent_emit.
Qed.

Lemma independent_writeExternsEnum (decl : EnumDecl) (ns : list string) :
  independent (writeExternsEnum decl ns).
Proof.
  intros e s. unfold writeExternsEnum. rewrite !independent_emit.
  apply (independent_fold
           (fun s member =>
              emit (Js.cat [Js.join "." ((ns ++ [getIdentifierText (enumName decl)])
                                         ++ [nameGetText (enumMemberName member)]); ";"; LF])
                   (emit (Js.cat ["/** @const {number} */"; LF]) s))).
  intros a e' s'. rewrite !independent_emit. reflexivity.
Qed.

Section IndependentWriters.

Variable fileText : string.
Variable untyped : bool.
Variable translate : Ty -> bool -> string.
Variable getLeadingCommentRanges : string -> list (nat * nat).
Variable closureExternsBlacklist : list string.

Lemma getJSDoc_withNamespaces (node : Range) (e : JsObject.t bool) (s : Annotator) :
  getJSDoc fileText getLeadingCommentRanges node (withNamespaces e s)
  = (fst (getJSDoc fileText getLeadingCommentRanges node s),
     withNamespaces e (snd (getJSDoc fileText getLeadingCommentRanges node s))).
Proof.
  unfold getJSDoc. destruct (last _ None) as [[pos end_]|]; [|reflexivity].
  destruct (getJSDocAnnotation _); reflexivity.
Qed.

Lemma independent_emitFunctionType (f : FunctionLike) (extra : list JSDocTag) :
  independent (emitFunctionType fileText untyped translate getLeadingCommentRanges f extra).
Proof.
  intros e s. unfold emitFunctionType. rewrite getJSDoc_withNamespaces.
  destruct (getJSDoc _ _ _ s) as [doc s1]. simpl.
  rewrite independent_emit, independent_emits, independent_emit. reflexivity.
Qed.

Lemma independent_emitJSDocType (ty : Ty) : independent (emitJSDocType untyped translate ty).
Proof. intros e s. unfold emitJSDocType. rewrite !independent_emit. reflexivity. Qed.

Lemma independent_writeExternsMember (typeName : string) (ns : list string) (m : Member) :
  independent (writeExternsMember fileText untyped translate getLeadingCommentRanges
                                  typeName ns m).
Proof.
  intros e s. unfold writeExternsMember. destruct (memberKind m) as [n|f|c|k n].
  - rewrite independent_emitJSDocType, independent_emit. reflexivity.
  - rewrite independent_emitFunctionType, independent_emit. reflexivity.
  - reflexivity.
  - apply independent_emit.
Qed.

Lemma independent_writeExternsVariable (decl : VariableDeclaration) (ns : list string) :
  independent (writeExternsVariable untyped translate closureExternsBlacklist decl ns).
Proof.
  intros e s. unfold writeExternsVariable, errorUnimplementedKind.
  destruct (isIdentifier _); [|reflexivity].
  destruct (includes _ _); [reflexivity|].
  destruct (0 <? length ns); cbv zeta;
    rewrite independent_emitJSDocType; apply independent_emit.
Qed.

(** What [writeExternsType] does to the set, and that it does nothing else
    with it. *)
Lemma writeExternsType_withNamespaces (isClass : bool) (decl : TypeDecl)
    (ns : list string) (e : JsObject.t bool) (s : Annotator) :
  let typeName := Js.join "." (ns ++ [nameGetText (declName decl)]) in
  writeExternsType fileText untyped translate getLeadingCommentRanges
                   closureExternsBlacklist isClass decl ns (withNamespaces e s)
  = withNamespaces
      (if includes typeName closureExternsBlacklist
       then JsObject.set typeName true e
       else JsObject.set typeName true (JsObject.set typeName true e))
      (writeExternsType fileText untyped translate getLeadingCommentRanges
                        closureExternsBlacklist isClass decl ns s).
Proof.
  simpl. unfold writeExternsType.
  destruct (includes _ closureExternsBlacklist); [reflexivity|].
  set (t := Js.join "." (ns ++ [nameGetText (declName decl)])).
  change (markEmitted t (markEmitted t (withNamespaces e s)))
    with (withNamespaces (JsObject.set t true (JsObject.set t true e))
                         (markEmitted t (markEmitted t s))).
  generalize (JsObject.set t true (JsObject.set t true e)).
  generalize (markEmitted t (markEmitted t s)).
  intros x e'.
  assert (M : independent
                (fun s => fold_left
                            (fun s member =>
                               writeExternsMember fileText untyped translate
                                 getLeadingCommentRanges t ns member s)
                            (members decl) s)).
  { apply independent_fold. intros a. apply independent_writeExternsMember. }
  destruct isClass.
  - destruct (constructorsOf (members decl)) as [|ctor more].
    + rewrite independent_emit, independent_writeExternsFunction. apply M.
    + destruct more as [|second more].
      * rewrite independent_emitFunctionType, independent_writeExternsFunction. apply M.
      * rewrite independent_error, independent_emitFunctionType,
          independent_writeExternsFunction. apply M.
  - rewrite independent_emit, independent_writeExternsFunction. apply M.
Qed.

End IndependentWriters.

(** ** The externs walk and its exception *)

Lemma hasOwnProperty_put_other {V} (k k' : string) (v : V) (o : JsObject.t V) :
  k <> k' -> JsObject.hasOwnProperty k' (JsObject.put k v o) = JsObject.hasOwnProperty k' o.
Proof.
  intros Hne. induction o as [|[k0 v0] o IH]; simpl.
  - rewrite orb_false_r. apply String.eqb_neq. exact Hne.
  - destruct (String.eqb k0 k) eqn:E; simpl; [reflexivity|]. now rewrite IH.
Qed.

Lemma hasOwnProperty_set_other {V} (k k' : string) (v : V) (o : JsObject.t V) :
  k <> k' -> JsObject.hasOwnProperty k' (JsObject.set k v o) = JsObject.hasOwnProperty k' o.
Proof.
  intros Hne. unfold JsObject.set. destruct (String.eqb k "__proto__"); [reflexivity|].
  apply hasOwnProperty_put_other. exact Hne.
Qed.

Lemma plainKey_not_method (k : string) :
  JsObject.plainKey k = true -> k <> "hasOwnProperty".
Proof.
  unfold JsObject.plainKey. intros H ->. discriminate.
Qed.

Lemma unshadowed_markEmitted (k : string) (s : Annotator) :
  JsObject.plainKey k = true -> unshadowed s -> unshadowed (markEmitted k s).
Proof.
  unfold unshadowed. intros Hk Hs. simpl.
  rewrite hasOwnProperty_set_other; [exact Hs | apply plainKey_not_method; exact Hk].
Qed.

Lemma unshadowed_independent (f : Annotator -> Annotator) (s : Annotator) :
  independent f -> unshadowed s -> unshadowed (f s).
Proof.
  unfold unshadowed. intros Hf Hs. rewrite (emittedNamespaces_independent f s Hf). exact Hs.
Qed.

Lemma unshadowed_setOutput (o : Sink) (s : Annotator) :
  unshadowed s <-> unshadowed (setOutput o s).
Proof. unfold unshadowed, setOutput; simpl; tauto. Qed.

Lemma unshadowed_through (f : Annotator -> Annotator) (o : Sink) (s : Annotator) :
  independent f -> unshadowed s -> unshadowed (setOutput o (f (setOutput ExternsOutput s))).
Proof.
  intros Hf Hs. apply -> unshadowed_setOutput. apply unshadowed_independent; [exact Hf|].
  apply -> unshadowed_setOutput. exact Hs.
Qed.

Section OutcomeTheorems.

Variable fileText : string.
Variable untyped : bool.
Variable translate : Ty -> bool -> string.
Variable getLeadingCommentRanges : string -> list (nat * nat).
Variable escapeForComment : string -> string.
Variable visit : Expression -> Annotator -> Annotator.
Variable closureExternsBlacklist : list string.
Variable processClass : NodeInfo -> TypeDecl -> Annotator -> bool * Annotator.
Variable processFunction : NodeInfo -> FunctionLike -> Annotator -> bool * Annotator.

Local Abbreviation visitExterns' :=
  (visitExterns fileText untyped translate getLeadingCommentRanges closureExternsBlacklist).
Local Abbreviation visitExternsOutcome' :=
  (visitExternsOutcome fileText untyped translate getLeadingCommentRanges
                       closureExternsBlacklist).
Local Abbreviation externsRun' :=
  (externsRun fileText untyped translate getLeadingCommentRanges closureExternsBlacklist).
Local Abbreviation writeExternsType' :=
  (writeExternsType fileText untyped translate getLeadingCommentRanges
                    closureExternsBlacklist).
Local Abbreviation maybeProcess' :=
  (maybeProcess fileText untyped translate getLeadingCommentRanges escapeForComment
                visit closureExternsBlacklist processClass processFunction).

Lemma emittedNamespaces_writeExternsType (isClass : bool) (decl : TypeDecl)
    (ns : list string) (s : Annotator) :
  let typeName := Js.join "." (ns ++ [nameGetText (declName decl)]) in
  emittedNamespaces (writeExternsType' isClass decl ns s)
  = if includes typeName closureExternsBlacklist
    then JsObject.set typeName true (emittedNamespaces s)
    else JsObject.set typeName true (JsObject.set typeName true (emittedNamespaces s)).
Proof.
  simpl. rewrite <- (withNamespaces_own s) at 1.
  rewrite writeExternsType_withNamespaces. reflexivity.
Qed.

Lemma unshadowed_writeExternsType (isClass : bool) (decl : TypeDecl)
    (ns : list string) (s : Annotator) :
  JsObject.plainKey (Js.join "." (ns ++ [nameGetText (declName decl)])) = true ->
  unshadowed s -> unshadowed (writeExternsType' isClass decl ns s).
Proof.
  unfold unshadowed. intros Hk Hs. rewrite emittedNamespaces_writeExternsType.
  pose proof (plainKey_not_method _ Hk) as Hne.
  destruct (includes _ _); rewrite ?hasOwnProperty_set_other by exact Hne; exact Hs.
Qed.

Lemma visitExternsOutcome_block (info : NodeInfo) (stmts : list Node) (ns : list string)
    (s : Annotator) :
  visitExternsOutcome' (ModuleBlock info stmts) ns s
  = restoreOutput (output s)
      (forEachUntilThrown (fun stmt s => visitExternsOutcome' stmt ns s) stmts
                          (setOutput ExternsOutput s)).
Proof. reflexivity. Qed.

Lemma visitExternsOutcome_namespace (info : NodeInfo) (name : Name) (body : Node)
    (ns : list string) (s : Annotator) :
  nameKind name = Identifier ->
  let namespace := ns ++ [getIdentifierText name] in
  let nsName := Js.join "." namespace in
  let entered := setOutput ExternsOutput s in
  visitExternsOutcome' (ModuleDeclaration info name body) ns s
  = if JsObject.hasOwnProperty "hasOwnProperty" (emittedNamespaces s)
    then Thrown entered
    else restoreOutput (output s)
           (visitExternsOutcome' body namespace
              (markEmitted nsName
                 (if JsObject.hasOwnProperty nsName (emittedNamespaces s)
                  then entered else emitNamespaceSkeleton namespace entered))).
Proof.
  intros Hk. simpl. rewrite Hk. unfold callHasOwnProperty. simpl.
  destruct (JsObject.hasOwnProperty "hasOwnProperty" (emittedNamespaces s)); reflexivity.
Qed.

Lemma visitExterns_namespace (info : NodeInfo) (name : Name) (body : Node)
    (ns : list string) (s : Annotator) :
  nameKind name = Identifier ->
  let namespace := ns ++ [getIdentifierText name] in
  let nsName := Js.join "." namespace in
  let entered := setOutput ExternsOutput s in
  visitExterns' (ModuleDeclaration info name body) ns s
  = setOutput (output s)
      (visitExterns' body namespace
         (markEmitted nsName
            (if JsObject.hasOwnProperty nsName (emittedNamespaces s)
             then entered else emitNamespaceSkeleton namespace entered))).
Proof. intros Hk. simpl. rewrite Hk. reflexivity. Qed.

(** A call that returns leaves the state [visitExterns] computes; a call
    that throws leaves the sink on the externs buffer. *)
Lemma visitExternsOutcome_cases (node : Node) :
  forall ns s,
    match visitExternsOutcome' node ns s with
    | Returned s' => s' = visitExterns' node ns s
    | Thrown s' => output s' = ExternsOutput /\ mainOutput s' = mainOutput s
    end.
Proof.
  induction node using Node_induction; intros ns s;
    try (simpl; reflexivity).
  - destruct (nameKind name) eqn:Hk; try (simpl; rewrite Hk; reflexivity).
    rewrite visitExternsOutcome_namespace, visitExterns_namespace by exact Hk.
    destruct (JsObject.hasOwnProperty "hasOwnProperty" (emittedNamespaces s));
      [split; reflexivity|].
    match goal with
    | |- context [visitExternsOutcome' node ?n ?x] =>
        specialize (IHnode n x);
        assert (Hm : mainOutput x = mainOutput s);
        [|destruct (visitExternsOutcome' node n x) as [s'|s']]
    end.
    + simpl. destruct (JsObject.hasOwnProperty _ _); [reflexivity|].
      apply (untouched_emitNamespaceSkeleton _ (setOutput ExternsOutput s)). reflexivity.
    + simpl. rewrite IHnode. reflexivity.
    + simpl. destruct IHnode as [Ho Hmain]. split; [exact Ho | congruence].
  - rewrite visitExternsOutcome_block, visitExterns_block.
    assert (G : forall x,
               match forEachUntilThrown (fun stmt s => visitExternsOutcome' stmt ns s)
                                        statements x with
               | Returned s' => s' = fold_left (fun s stmt => visitExterns' stmt ns s)
                                               statements x
               | Thrown s' => output s' = ExternsOutput /\ mainOutput s' = mainOutput x
               end).
    { induction H as [|n r Hn Hr IH]; intros x; simpl; [reflexivity|].
      specialize (Hn ns x). destruct (visitExternsOutcome' n ns x) as [y|y].
      - subst y. specialize (IH (visitExterns' n ns x)).
        destruct (forEachUntilThrown _ r _) as [z|z]; [exact IH|].
        destruct IH as [Ho Hmain]. split; [exact Ho|].
        rewrite Hmain.
        apply (visitExterns_untouched fileText untyped translate getLeadingCommentRanges
                 closureExternsBlacklist n ns x).
      - exact Hn. }
    specialize (G (setOutput ExternsOutput s)).
    destruct (forEachUntilThrown _ statements _) as [z|z]; simpl.
    + rewrite G. reflexivity.
    + exact G.
Qed.

(** While no recorded name hides the method, the walk returns. *)
Lemma visitExternsOutcome_returns (node : Node) :
  forall ns s,
    plainPaths ns node = true -> unshadowed s ->
    visitExternsOutcome' node ns s = Returned (visitExterns' node ns s)
    /\ unshadowed (visitExterns' node ns s).
Proof.
  induction node using Node_induction; intros ns s Hplain Hs.
  - destruct (nameKind name) eqn:Hk;
      try (simpl; rewrite Hk; split; [reflexivity | exact Hs]).
    simpl in Hplain. rewrite Hk in Hplain.
    apply andb_true_iff in Hplain. destruct Hplain as [Hkey Hbody].
    rewrite visitExternsOutcome_namespace, visitExterns_namespace by exact Hk.
    unfold unshadowed in Hs. rewrite Hs.
    match goal with
    | |- context [visitExternsOutcome' node ?n ?x] =>
        destruct (IHnode n x Hbody) as [E U]
    end.
    + apply unshadowed_markEmitted; [exact Hkey|].
      destruct (JsObject.hasOwnProperty (Js.join _ _) _); [exact Hs|].
      apply (unshadowed_independent (emitNamespaceSkeleton _)
               (setOutput ExternsOutput s));
        [apply independent_emitNamespaceSkeleton | exact Hs].
    + rewrite E. split; [reflexivity | exact U].
  - rewrite visitExternsOutcome_block, visitExterns_block.
    simpl in Hplain.
    assert (G : forall x,
               unshadowed x ->
               forEachUntilThrown (fun stmt s => visitExternsOutcome' stmt ns s)
                                  statements x
               = Returned (fold_left (fun s stmt => visitExterns' stmt ns s) statements x)
               /\ unshadowed (fold_left (fun s stmt => visitExterns' stmt ns s)
                                        statements x)).
    { revert Hplain. clear Hs.
      induction H as [|n r Hn Hr IH]; intros Hplain x Hx; simpl; [auto|].
      simpl in Hplain. apply andb_true_iff in Hplain. destruct Hplain as [H1 H2].
      destruct (Hn ns x H1 Hx) as [E U]. rewrite E. apply IH; assumption. }
    destruct (G (setOutput ExternsOutput s) Hs) as [E U]. rewrite E.
    split; [reflexivity | exact U].
  - simpl in Hplain. split; [reflexivity|]. simpl.
    apply (unshadowed_writeExternsType true decl ns (setOutput ExternsOutput s) Hplain Hs).
  - simpl in Hplain. split; [reflexivity|]. simpl.
    apply (unshadowed_writeExternsType false decl ns (setOutput ExternsOutput s) Hplain Hs).
  - split; [reflexivity|].
    apply (unshadowed_through
             (fun s => writeExternsFunction (nameGetText (fnName f)) (parameterNames f) ns
                         (emitFunctionType fileText untyped translate
                                           getLeadingCommentRanges f [] s)));
      [|exact Hs].
    apply (independent_compose (emitFunctionType _ _ _ _ _ _) (writeExternsFunction _ _ _));
      [apply independent_emitFunctionType | apply independent_writeExternsFunction].
  - split; [reflexivity|].
    apply (unshadowed_through
             (fun s => fold_left (fun s decl => writeExternsVariable untyped translate
                                                  closureExternsBlacklist decl ns s) ds s));
      [|exact Hs].
    apply independent_fold. intros a. apply independent_writeExternsVariable.
  - split; [reflexivity|].
    apply (unshadowed_through (writeExternsEnum decl ns));
      [apply independent_writeExternsEnum | exact Hs].
  - split; [reflexivity|].
    apply (unshadowed_through
             (emit (Js.cat [LF; "/* TODO: "; kind; " in "; Js.join "." ns; " */"; LF])));
      [apply independent_emit | exact Hs].
Qed.


Lemma externsRun_returns (nodes : list Node) :
  forall s,
    forallb (plainPaths []) nodes = true -> unshadowed s -> skeletonsOnce s ->
    externsRun' nodes s
    = Returned (fold_left (fun s n => visitExterns' n [] s) nodes s)
    /\ skeletonsOnce (fold_left (fun s n => visitExterns' n [] s) nodes s).
Proof.
  unfold externsRun.
  induction nodes as [|n r IH]; intros s Hplain Hu Hs; simpl; [auto|].
  simpl in Hplain. apply andb_true_iff in Hplain. destruct Hplain as [H1 H2].
  destruct (visitExternsOutcome_returns n [] s H1 Hu) as [E U]. rewrite E.
  apply IH; [exact H2 | exact U |].
  apply visitExterns_skeletonsOnce; assumption.
Qed.

(** C3, as amended.  In a run of the externs walk over ambient
    declarations whose namespaces, classes and interfaces have dotted paths
    that are plain property names, no call throws, the skeleton of a
    namespace is emitted at most once for a dotted path, and every path whose
    skeleton was emitted is in the set of emitted namespaces: the set is
    consulted before the emission and updated right after it.  A namespace
    whose path is already in the set gets no skeleton; the walk goes on into
    its body.  An ambient enum neither consults nor changes the set.  An
    ambient class or interface records its dotted name in the set and does
    not consult it: what it emits is the same whatever the set holds. *)
Theorem namespace_skeleton_at_most_once :
  (forall nodes,
      forallb (plainPaths []) nodes = true ->
      let s' := fold_left (fun s n => visitExterns' n [] s) nodes newAnnotator in
      externsRun' nodes newAnnotator = Returned s' /\ skeletonsOnce s')
  /\ (forall info name body ns s,
         nameKind name = Identifier ->
         unshadowed s ->
         JsObject.hasOwnProperty (Js.join "." (ns ++ [getIdentifierText name]))
                                 (emittedNamespaces s) = true ->
         visitExternsOutcome' (ModuleDeclaration info name body) ns s
         = restoreOutput (output s)
             (visitExternsOutcome' body (ns ++ [getIdentifierText name])
                (markEmitted (Js.join "." (ns ++ [getIdentifierText name]))
                             (setOutput ExternsOutput s))))
  /\ (forall info decl ns s,
         exists s',
           visitExternsOutcome' (EnumDeclaration info decl) ns s = Returned s'
           /\ emittedNamespaces s' = emittedNamespaces s)
  /\ (forall node info decl ns s1 s2,
         node = ClassDeclaration info decl \/ node = InterfaceDeclaration info decl ->
         buffers s1 = buffers s2 ->
         exists r1 r2,
           visitExternsOutcome' node ns s1 = Returned r1
           /\ visitExternsOutcome' node ns s2 = Returned r2
           /\ buffers r1 = buffers r2
           /\ (JsObject.plainKey (Js.join "." (ns ++ [nameGetText (declName decl)])) = true ->
               JsObject.hasOwnProperty (Js.join "." (ns ++ [nameGetText (declName decl)]))
                                       (emittedNamespaces r1) = true)).
Proof.
  split; [|split; [|split]].
  - intros nodes Hplain. apply externsRun_returns;
      [exact Hplain | reflexivity | apply skeletonsOnce_new].
  - intros info name body ns s Hk Hu Hhas.
    rewrite visitExternsOutcome_namespace by exact Hk.
    unfold unshadowed in Hu. rewrite Hu, Hhas. reflexivity.
  - intros info decl ns s. eexists. split; [reflexivity|]. simpl.
    rewrite (emittedNamespaces_independent (writeExternsEnum decl ns))
      by apply independent_writeExternsEnum.
    reflexivity.
  - intros node info decl ns s1 s2 Hnode Hb.
    assert (G : forall isClass,
               buffers (setOutput (output s1)
                          (writeExternsType' isClass decl ns (setOutput ExternsOutput s1)))
               = buffers (setOutput (output s2)
                            (writeExternsType' isClass decl ns (setOutput ExternsOutput s2)))
               /\ (JsObject.plainKey (Js.join "." (ns ++ [nameGetText (declName decl)])) = true ->
                   JsObject.hasOwnProperty
                     (Js.join "." (ns ++ [nameGetText (declName decl)]))
                     (emittedNamespaces
                        (setOutput (output s1)
                           (writeExternsType' isClass decl ns (setOutput ExternsOutput s1))))
                   = true)).
    { intros isClass. split.
      - assert (E : setOutput ExternsOutput s1
                    = withNamespaces (emittedNamespaces s1) (setOutput ExternsOutput s2)).
        { apply buffers_withNamespaces in Hb. rewrite Hb at 1. reflexivity. }
        assert (O : output s1 = output s2).
        { unfold buffers in Hb. congruence. }
        rewrite E, writeExternsType_withNamespaces, O. reflexivity.
      - intros Hk. simpl. rewrite emittedNamespaces_writeExternsType.
        destruct (includes _ _); apply hasOwnProperty_set_same; exact Hk. }
    destruct Hnode as [-> | ->].
    + destruct (G true) as [G1 G2]. eexists; eexists.
      split; [reflexivity|]. split; [reflexivity|]. split; [exact G1 | exact G2].
    + destruct (G false) as [G1 G2]. eexists; eexists.
      split; [reflexivity|]. split; [reflexivity|]. split; [exact G1 | exact G2].
Qed.

(** C7, as amended.  A call of [visitExterns] that returns leaves the
    sink selector as it found it and has written nothing to the main buffer,
    whatever it visited and whether or not it recorded an error on the way.
    A call that an exception leaves does not restore the selector: it is on
    the externs buffer.  While the recorded paths are plain property names
    no call throws.  So when [maybeProcess] meets an ambient node while the
    sink is the main buffer and the walk returns, the sink is the main buffer
    again: the verbatim copy of the node that follows goes to the main
    buffer, and what the walk emitted is in the externs buffer. *)
Theorem externs_sink_restored_on_return :
  (forall node ns s s',
      visitExternsOutcome' node ns s = Returned s' ->
      s' = visitExterns' node ns s
      /\ output s' = output s /\ mainOutput s' = mainOutput s)
  /\ (forall node ns s s',
         visitExternsOutcome' node ns s = Thrown s' ->
         output s' = ExternsOutput /\ mainOutput s' = mainOutput s)
  /\ (forall node ns s,
         plainPaths ns node = true -> unshadowed s ->
         exists s', visitExternsOutcome' node ns s = Returned s')
  /\ (forall node s s1,
         Ambient (flags (nodeInfo node)) = true ->
         output s = MainOutput ->
         visitExternsOutcome' node [] s = Returned s1 ->
         let text := getFullText fileText (range (nodeInfo node)) in
         let s' := snd (maybeProcess' node s) in
         output s' = MainOutput
         /\ mainOutput s' = mainOutput s ++ (if Js.truthy text then [text] else [])
         /\ externsOutput s' = externsOutput s1
         /\ diagnostics s' = diagnostics s1).
Proof.
  assert (R : forall node ns s s',
             visitExternsOutcome' node ns s = Returned s' ->
             s' = visitExterns' node ns s
             /\ output s' = output s /\ mainOutput s' = mainOutput s).
  { intros node ns s s' H.
    pose proof (visitExternsOutcome_cases node ns s) as C. rewrite H in C. subst s'.
    destruct (visitExterns_untouched fileText untyped translate getLeadingCommentRanges
                closureExternsBlacklist node ns s) as (O & M & _). auto. }
  split; [exact R|]. split; [|split].
  - intros node ns s s' H.
    pose proof (visitExternsOutcome_cases node ns s) as C. rewrite H in C. exact C.
  - intros node ns s Hplain Hu. eexists.
    apply (visitExternsOutcome_returns node ns s Hplain Hu).
  - intros node s s1 Hamb Hout H. simpl.
    destruct (R node [] s s1 H) as (-> & O & M).
    unfold maybeProcess. rewrite Hamb. simpl.
    unfold writeRange, getFullText.
    destruct (Js.truthy _).
    + unfold emit. rewrite O, Hout. simpl. rewrite M. auto.
    + rewrite O, M, app_nil_r. auto.
Qed.

End OutcomeTheorems.

(** ** Enums *)

Lemma enumValues_names (ms : list EnumMember) :
  forall i, map fst (enumValues i ms) = enumMemberNames ms.
Proof.
  induction ms as [|m ms IH]; intros i; simpl; [reflexivity|].
  destruct (initializer m), (constantValue m); simpl; rewrite IH; reflexivity.
Qed.

Lemma keys_app {V} (a b : JsObject.t V) :
  JsObject.keys (a ++ b) = JsObject.keys a ++ JsObject.keys b.
Proof. unfold JsObject.keys. apply map_app. Qed.

Lemma set_fresh {V} (k : string) (v : V) (o : JsObject.t V) :
  JsObject.plainKey k = true -> ~ In k (JsObject.keys o) ->
  JsObject.set k v o = o ++ [(k, v)].
Proof.
  intros Hk Hin. unfold JsObject.set. rewrite (plainKey_not_proto _ Hk).
  apply put_fresh. exact Hin.
Qed.

(** The object that the first loop builds holds the members in declaration
    order with the values of the specification. *)
Lemma gatherMembers_fold (ms : list EnumMember) :
  forall acc i,
    NoDup (JsObject.keys acc ++ enumMemberNames ms) ->
    forallb JsObject.plainKey (enumMemberNames ms) = true ->
    fst (fold_left gatherMember ms (acc, i)) = acc ++ enumValues i ms.
Proof.
  induction ms as [|m ms IH]; intros acc i Hnd Hplain; simpl.
  - now rewrite app_nil_r.
  - simpl in Hplain. apply andb_true_iff in Hplain. destruct Hplain as [Hk Hrest].
    simpl in Hnd.
    assert (Hfresh : ~ In (nameGetText (enumMemberName m)) (JsObject.keys acc)).
    { intros Hin. apply NoDup_remove_2 in Hnd. apply Hnd.
      apply in_or_app. left. exact Hin. }
    assert (Hnd' : forall v,
               NoDup (JsObject.keys (acc ++ [(nameGetText (enumMemberName m), v)])
                      ++ enumMemberNames ms)).
    { intros v. rewrite keys_app. simpl. rewrite <- app_assoc. exact Hnd. }
    destruct (initializer m) as [init|], (constantValue m) as [c|];
      rewrite set_fresh by assumption;
      rewrite IH by (auto using Hnd');
      rewrite <- app_assoc; reflexivity.
Qed.

Lemma enumValues_safe (total : Z) (ms : list EnumMember) :
  forall i left,
    Forall (safeConstant total) ms ->
    (Z.of_nat (length ms) <= left <= total)%Z ->
    (- 2 ^ 53 < i)%Z -> (i + left <= 2 ^ 53)%Z ->
    Forall safeValue (enumValues i ms).
Proof.
  induction ms as [|m ms IH]; intros i left Hall Hlen Hlow Hhigh; simpl; [constructor|].
  inversion Hall as [|? ? Hm Hrest]; subst.
  assert (Hl : (Z.of_nat (length (m :: ms)) = 1 + Z.of_nat (length ms))%Z).
  { simpl length. lia. }
  unfold safeConstant in Hm.
  destruct (initializer m) as [init|]; [destruct (constantValue m) as [c|]|].
  - constructor; [unfold safeValue; simpl; lia|].
    apply (IH (c + 1)%Z (left - 1)%Z); [exact Hrest | lia | lia | lia].
  - constructor; [exact I|].
    apply (IH i (left - 1)%Z); [exact Hrest | lia | lia | lia].
  - constructor; [unfold safeValue; simpl; lia|].
    apply (IH (i + 1)%Z (left - 1)%Z); [exact Hrest | lia | lia | lia].
Qed.

Lemma safeConstants_values (ms : list EnumMember) :
  safeConstants ms -> Forall safeValue (enumValues 0 ms).
Proof.
  intros [Hlen Hall].
  apply (enumValues_safe (Z.of_nat (length ms)) ms 0%Z (Z.of_nat (length ms)));
    [exact Hall | lia | lia | lia].
Qed.

Section EnumTheorems.

Variable fileText : string.
Variable untyped : bool.
Variable translate : Ty -> bool -> string.
Variable getLeadingCommentRanges : string -> list (nat * nat).
Variable escapeForComment : string -> string.
Variable visit : Expression -> Annotator -> Annotator.
Variable closureExternsBlacklist : list string.
Variable processClass : NodeInfo -> TypeDecl -> Annotator -> bool * Annotator.
Variable processFunction : NodeInfo -> FunctionLike -> Annotator -> bool * Annotator.

Local Abbreviation maybeProcess' :=
  (maybeProcess fileText untyped translate getLeadingCommentRanges escapeForComment
                visit closureExternsBlacklist processClass processFunction).


End EnumTheorems.

(** ** Leading comments *)

Section CommentTheorems.

Variable fileText : string.
Variable untyped : bool.
Variable translate : Ty -> bool -> string.
Variable getLeadingCommentRanges : string -> list (nat * nat).
Variable escapeForComment : string -> string.

Lemma last_some {A} (l : list A) (x : A) :
  last (map Some (l ++ [x])) None = Some x.
Proof.
  induction l as [|a l IH]; [reflexivity|].
  simpl map. simpl app.
  destruct (map Some (l ++ [x])) eqn:E; [|exact IH].
  destruct l; discriminate.
Qed.

(** C8.  When a declaration has leading comments, [getJSDoc] parses the last
    one and nothing else: its result, including the fault it may record, is
    the one it gives when the earlier comments are not there, and so is the
    annotation block that [emitFunctionType] and [visitProperty] merge from
    it. *)
Theorem only_last_leading_comment :
  forall node earlier pos end_ s,
    getLeadingCommentRanges (getFullText fileText node) = earlier ++ [(pos, end_)] ->
    getJSDoc fileText getLeadingCommentRanges node s
    = match getJSDocAnnotation (Js.slice pos end_ (getFullText fileText node)) with
      | Tags tags => (Some tags, s)
      | NotJSDoc => (None, s)
      | Fault message => (None, error (getFullStart node + pos) message s)
      end
    /\ getJSDoc fileText getLeadingCommentRanges node s
       = getJSDoc fileText (fun _ => [(pos, end_)]) node s
    /\ (forall f extra,
           range (fnInfo f) = node ->
           emitFunctionType fileText untyped translate getLeadingCommentRanges f extra s
           = emitFunctionType fileText untyped translate (fun _ => [(pos, end_)]) f extra s)
    /\ (forall ns p,
           range (memberInfo p) = node ->
           visitProperty fileText untyped translate getLeadingCommentRanges
                         escapeForComment ns p s
           = visitProperty fileText untyped translate (fun _ => [(pos, end_)])
                           escapeForComment ns p s).
Proof.
  intros node earlier pos end_ s H.
  assert (E : getJSDoc fileText getLeadingCommentRanges node s
              = getJSDoc fileText (fun _ => [(pos, end_)]) node s).
  { unfold getJSDoc. rewrite H, last_some. reflexivity. }
  split; [|split; [exact E|split]].
  - unfold getJSDoc. rewrite H, last_some. reflexivity.
  - intros f extra Hf. unfold emitFunctionType. rewrite Hf, E. reflexivity.
  - intros ns p Hp. unfold visitProperty. rewrite Hp, E. reflexivity.
Qed.

End CommentTheorems.

(** ** Untyped mode *)

Lemma substring_none (n : nat) (s : string) : substring n 0 s = EmptyString.
Proof.
  revert n. induction s as [|c s IH]; intros [|n]; simpl; auto.
Qed.

Lemma writeRange_empty (fileText : string) (n : nat) (s : Annotator) :
  writeRange fileText n n s = s.
Proof.
  unfold writeRange, Js.slice. rewrite Nat.sub_diag, substring_none. reflexivity.
Qed.

Section UntypedTheorems.

Variable fileText : string.
Variable translate : Ty -> bool -> string.
Variable getLeadingCommentRanges : string -> list (nat * nat).
Variable escapeForComment : string -> string.
Variable visit : Expression -> Annotator -> Annotator.
Variable closureExternsBlacklist : list string.
Variable processClass : NodeInfo -> TypeDecl -> Annotator -> bool * Annotator.
Variable processFunction : NodeInfo -> FunctionLike -> Annotator -> bool * Annotator.

Local Abbreviation maybeProcessUntyped :=
  (maybeProcess fileText true translate getLeadingCommentRanges escapeForComment
                visit closureExternsBlacklist processClass processFunction).

(** In untyped mode [typeToClosure] renders every type as the unknown
    marker. *)
Lemma typeToClosure_untyped (type : Ty) (destructuring : bool) :
  typeToClosure true translate type destructuring = "?".
Proof. reflexivity. Qed.

(** C2, the failing input.  With [untyped] set, the externs written for
    [declare enum E { A }] annotate the member with the type [number]:
    [writeExternsEnum] does not go through [typeToClosure] and has no test
    of [options.untyped], unlike [maybeProcessEnum]. *)
Theorem untyped_externs_enum_says_number :
  let s := snd (maybeProcessUntyped Examples.declareEnumE newAnnotator) in
  externsOutput s
  = [Js.cat [LF; "/** @const */"; LF]; Js.cat ["E = {};"; LF];
     Js.cat ["/** @const {number} */"; LF]; Js.cat ["E.A;"; LF]]
  /\ externsOf s
     = Some (Js.cat ["/** @externs */"; LF; LF; "/** @const */"; LF; "E = {};"; LF;
                     "/** @const {number} */"; LF; "E.A;"; LF]).
Proof.
  assert (E : snd (maybeProcessUntyped Examples.declareEnumE newAnnotator)
              = visitExterns fileText true translate getLeadingCommentRanges
                             closureExternsBlacklist Examples.declareEnumE [] newAnnotator).
  { unfold maybeProcess. simpl snd. apply writeRange_empty. }
  rewrite E. split; reflexivity.
Qed.

(** C10, as amended.  In untyped mode an interface declaration that is not
    ambient gets no synthesized output: [emitInterface] emits nothing and
    [maybeProcess] copies the text of the interface verbatim. *)
Theorem untyped_interface_verbatim :
  forall info decl s,
    Ambient (flags info) = false ->
    emitInterface fileText true translate getLeadingCommentRanges escapeForComment decl s = s
    /\ maybeProcessUntyped (InterfaceDeclaration info decl) s
       = (true, writeRange fileText (getFullStart (range info)) (getEnd (range info)) s).
Proof.
  intros info decl s Hamb. split; [reflexivity|].
  unfold maybeProcess. simpl. rewrite Hamb. reflexivity.
Qed.

End UntypedTheorems.

(** ** More on objects as maps *)

Lemma get_put_same {V} (k : string) (v : V) (o : JsObject.t V) :
  JsObject.get k (JsObject.put k v o) = Some v.
Proof.
  induction o as [|[k' v'] o IH]; simpl.
  - now rewrite String.eqb_refl.
  - destruct (String.eqb k' k) eqn:E; simpl; rewrite E; auto.
Qed.

Lemma get_put_other {V} (k k' : string) (v : V) (o : JsObject.t V) :
  k <> k' -> JsObject.get k' (JsObject.put k v o) = JsObject.get k' o.
Proof.
  intros Hne. induction o as [|[k0 v0] o IH]; simpl.
  - destruct (String.eqb k k') eqn:E; [apply String.eqb_eq in E; tauto | reflexivity].
  - destruct (String.eqb k0 k) eqn:E; simpl.
    + apply String.eqb_eq in E. subst k0.
      destruct (String.eqb k k') eqn:E'; [apply String.eqb_eq in E'; tauto | reflexivity].
    + destruct (String.eqb k0 k'); auto.
Qed.

Lemma get_set_same {V} (k : string) (v : V) (o : JsObject.t V) :
  JsObject.plainKey k = true -> JsObject.get k (JsObject.set k v o) = Some v.
Proof.
  intros H. unfold JsObject.set. rewrite (plainKey_not_proto _ H). apply get_put_same.
Qed.

Lemma get_set_other {V} (k k' : string) (v : V) (o : JsObject.t V) :
  k <> k' -> JsObject.get k' (JsObject.set k v o) = JsObject.get k' o.
Proof.
  intros H. unfold JsObject.set. destruct (String.eqb k "__proto__"); auto.
  apply get_put_other. exact H.
Qed.

Lemma get_hasOwnProperty {V} (k : string) (v : V) (o : JsObject.t V) :
  JsObject.get k o = Some v -> JsObject.hasOwnProperty k o = true.
Proof.
  induction o as [|[k' v'] o IH]; simpl; [discriminate|].
  destruct (String.eqb k' k); simpl; auto.
Qed.

Lemma includes_In (x : string) (l : list string) : includes x l = true <-> In x l.
Proof.
  unfold includes. rewrite existsb_exists. split.
  - intros (y & Hy & E). apply String.eqb_eq in E. now subst.
  - intros H. exists x. split; [exact H | apply String.eqb_refl].
Qed.

Lemma hasOwnProperty_includes {V} (k : string) (o : JsObject.t V) :
  JsObject.hasOwnProperty k o = includes k (JsObject.keys o).
Proof.
  unfold JsObject.hasOwnProperty, includes, JsObject.keys.
  induction o as [|[k' v'] o IH]; simpl; [reflexivity|].
  rewrite IH. f_equal. apply String.eqb_sym.
Qed.

Lemma keys_put {V} (k : string) (v : V) (o : JsObject.t V) :
  JsObject.keys (JsObject.put k v o)
  = if JsObject.hasOwnProperty k o then JsObject.keys o else JsObject.keys o ++ [k].
Proof.
  unfold JsObject.keys. induction o as [|[k' v'] o IH]; simpl; [reflexivity|].
  destruct (String.eqb k' k) eqn:E; simpl; [reflexivity|].
  rewrite IH. destruct (JsObject.hasOwnProperty k o); reflexivity.
Qed.

Lemma keys_set {V} (k : string) (v : V) (o : JsObject.t V) :
  JsObject.plainKey k = true ->
  JsObject.keys (JsObject.set k v o)
  = if includes k (JsObject.keys o) then JsObject.keys o else JsObject.keys o ++ [k].
Proof.
  intros H. unfold JsObject.set. rewrite (plainKey_not_proto _ H), keys_put.
  rewrite hasOwnProperty_includes. reflexivity.
Qed.

Lemma firstOccurrences_In (l : list string) :
  forall seen x, In x (Requires.firstOccurrences seen l) <-> In x seen \/ In x l.
Proof.
  induction l as [|y l IH]; intros seen x; simpl.
  - tauto.
  - rewrite IH. destruct (includes y seen) eqn:E.
    + apply includes_In in E. split; [tauto|]. intros [H | [<- | H]]; auto.
    + rewrite in_app_iff. simpl. tauto.
Qed.

Lemma firstOccurrences_NoDup (l : list string) :
  forall seen, NoDup seen -> NoDup (Requires.firstOccurrences seen l).
Proof.
  induction l as [|y l IH]; intros seen Hnd; simpl; [exact Hnd|].
  apply IH. destruct (includes y seen) eqn:E; [exact Hnd|].
  apply NoDup_app; [exact Hnd | repeat constructor; simpl; tauto |].
  intros x Hx [<- | []].
  apply includes_In in Hx. congruence.
Qed.

(** ** The traversal of the module-rewrite pass changes the output only *)


Section PostFrames.

Import PostProcessor Requires.

Variable fileName : string.
Variable fileText : string.
Variable pathToModuleName : string -> string -> string.


Lemma bindings_emit (str : string) (s : State) : bindings (emit str s) = bindings s.
Proof. reflexivity. Qed.

Lemma bindings_writeRange (a b : nat) (s : State) :
  bindings (writeRange fileText a b s) = bindings s.
Proof. unfold writeRange. destruct (Js.truthy _); reflexivity. Qed.

Lemma bindings_maybeProcess (node : JsNode) (s s' : State) :
  maybeProcess fileText node s = Some s' -> bindings s' = bindings s.
Proof.
  unfold maybeProcess.
  destruct (kind node); try discriminate.
  destruct (children node) as [|e [|n [|x l]]]; try discriminate.
  destruct (negb (String.eqb (nodeText n) "default")); [discriminate|].
  destruct (negb (isKind (kind e) Identifier)); [discriminate|].
  destruct (negb (JsObject.hasOwnProperty _ _)); [discriminate|].
  intros H. injection H as <-. rewrite bindings_emit. apply bindings_writeRange.
Qed.

Lemma bindings_visit (node : JsNode) :
  forall s, bindings (visit fileText node s) = bindings s.
Proof.
  induction node as [k r t cs IH] using JsNode_induction; intros s.
  simpl. change (match k with
                 | PropertyAccessExpression => _
                 | _ => None
                 end) with (maybeProcess fileText (mkNode k r t cs) s).
  destruct (maybeProcess fileText (mkNode k r t cs) s) as [s'|] eqn:E.
  - eapply bindings_maybeProcess. exact E.
  - match goal with
    | |- bindings (let '(pos, s0) := ?F cs _ in _) = _ =>
        assert (H : forall a, bindings (snd (F cs a)) = bindings (snd a))
    end.
    { clear E.
      induction IH as [|c rest Hc Hrest IHrest]; intros [pos x]; simpl; [reflexivity|].
      rewrite IHrest. simpl. rewrite Hc. apply bindings_writeRange. }
    match goal with
    | |- bindings (let '(pos, s0) := ?X in _) = _ =>
        specialize (H (getFullStart r, s)); destruct X as [pos x]
    end.
    simpl in H. rewrite bindings_writeRange. exact H.
Qed.

Lemma bindings_visitStatement (stmt : Statement) (s : State) :
  bindings (visitStatement fileText stmt s) = bindings s.
Proof.
  unfold visitStatement.
  match goal with
  | |- bindings (let '(pos, s0) := fold_left ?f _ _ in _) = _ =>
      assert (H : forall l a, bindings (snd (fold_left f l a)) = bindings (snd a))
  end.
  { induction l as [|c rest IH]; intros [pos x]; simpl; [reflexivity|].
    rewrite IH. simpl. rewrite bindings_visit. apply bindings_writeRange. }
  match goal with
  | |- bindings (let '(pos, s0) := fold_left ?f ?cs ?a in _) = _ =>
      specialize (H cs a); destruct (fold_left f cs a) as [pos x]
  end.
  simpl in H. rewrite bindings_writeRange. exact H.
Qed.

Lemma moduleVariables_bindings (s s' : State) :
  bindings s' = bindings s -> moduleVariables s' = moduleVariables s.
Proof. unfold bindings. intros H. now injection H. Qed.

Lemma strippedStrict_bindings (s s' : State) :
  bindings s' = bindings s -> strippedStrict s' = strippedStrict s.
Proof. unfold bindings. intros H. now injection H. Qed.

End PostFrames.

(** ** One top-level statement *)

Section PostSteps.

Import PostProcessor Requires.

Variable fileName : string.
Variable fileText : string.
Variable pathToModuleName : string -> string -> string.

Local Abbreviation writeRange' := (writeRange fileText).
Local Abbreviation resolve' := (resolve fileName pathToModuleName).
Local Abbreviation rewriteRequire' := (rewriteRequire fileName fileText pathToModuleName).
Local Abbreviation emitRewrittenRequires' :=
  (emitRewrittenRequires fileName fileText pathToModuleName).
Local Abbreviation visitTopLevel' := (visitTopLevel fileName fileText pathToModuleName).
Local Abbreviation processStatements' :=
  (processStatements fileName fileText pathToModuleName).
Local Abbreviation exportedModule' := (exportedModule fileName pathToModuleName).
Local Abbreviation requiredModule' := (requiredModule fileName pathToModuleName).
Local Abbreviation referencedModule' := (referencedModule fileName pathToModuleName).
Local Abbreviation referencedModulesOf' := (referencedModulesOf fileName pathToModuleName).

Lemma moduleVariables_writeRange (a b : nat) (s : State) :
  moduleVariables (writeRange' a b s) = moduleVariables s.
Proof. unfold writeRange. destruct (Js.truthy _); reflexivity. Qed.

Lemma strippedStrict_writeRange (a b : nat) (s : State) :
  strippedStrict (writeRange' a b s) = strippedStrict s.
Proof. unfold writeRange. destruct (Js.truthy _); reflexivity. Qed.

(** What [rewriteRequire] does for a statement that binds [X]. *)
Lemma rewriteRequire_named (r : Range) (X : string) (call : JsNode) (require : string)
    (s : State) :
  truthyRequire (isRequire call) = Some require ->
  let m := resolve' require in
  let s1 := if String.prefix "goog:" require then setNamespaceImport X s else s in
  let s2 := writeRange' (getFullStart r) (getStart r) s1 in
  rewriteRequire' r (Some X) call s
  = if JsObject.hasOwnProperty m (moduleVariables s)
    then (true, emit (Js.cat ["var "; X; " = ";
                              match JsObject.get m (moduleVariables s) with
                              | Some v => v
                              | None => "undefined"
                              end; ";"]) s2)
    else (true, setModuleVariable m X
                  (emit (Js.cat ["var "; X; " = goog.require('"; m; "');"]) s2)).
Proof.
  intros H. unfold rewriteRequire, resolve. rewrite H.
  destruct (String.prefix "goog:" require); simpl;
    rewrite moduleVariables_writeRange; simpl; reflexivity.
Qed.

(** What [rewriteRequire] does to the bindings, bound variable or not. *)
Lemma rewriteRequire_moduleVariables (r : Range) (vn : option string) (call : JsNode)
    (s : State) :
  strippedStrict (snd (rewriteRequire' r vn call s)) = strippedStrict s
  /\ match option_map resolve' (truthyRequire (isRequire call)) with
     | Some m =>
         fst (rewriteRequire' r vn call s) = true
         /\ if JsObject.hasOwnProperty m (moduleVariables s)
            then moduleVariables (snd (rewriteRequire' r vn call s)) = moduleVariables s
            else exists X, moduleVariables (snd (rewriteRequire' r vn call s))
                           = JsObject.set m X (moduleVariables s)
     | None => rewriteRequire' r vn call s = (false, s)
     end.
Proof.
  unfold rewriteRequire, resolve.
  destruct (truthyRequire (isRequire call)) as [require|]; simpl; [|auto].
  destruct vn as [X|]; destruct (String.prefix "goog:" require); simpl;
    rewrite moduleVariables_writeRange; simpl;
    match goal with
    | |- context [JsObject.hasOwnProperty ?m ?mv] =>
        destruct (JsObject.hasOwnProperty m mv) eqn:E
    end; simpl; rewrite ?strippedStrict_writeRange, ?moduleVariables_writeRange;
    simpl; eauto.
Qed.

Lemma isUseStrict_shape (stmt : Statement) :
  isUseStrict stmt = true <->
  exists r e, stmt = ExpressionStatement r e
              /\ kind e = StringLiteral /\ nodeText e = "use strict".
Proof.
  split.
  - destruct stmt as [r e|r ds|r cs]; simpl; try discriminate.
    destruct (kind e) eqn:K; simpl; try discriminate.
    intros H. apply String.eqb_eq in H. eauto.
  - intros (r & e & -> & K & T). simpl. rewrite K, T. reflexivity.
Qed.

Lemma useStrict_refers_to_nothing (stmt : Statement) :
  isUseStrict stmt = true ->
  exportedModule' stmt = None /\ requiredModule' stmt = None.
Proof.
  intros H. apply isUseStrict_shape in H. destruct H as (r & e & -> & K & _).
  unfold exportedModule, requiredModule. rewrite K. auto.
Qed.

(** How one statement changes [moduleVariables]. *)
Lemma visitTopLevel_moduleVariables (stmt : Statement) (s : State) :
  let mv := moduleVariables s in
  let mv' := moduleVariables (visitTopLevel' stmt s) in
  match exportedModule' stmt with
  | Some m => mv' = JsObject.set m "*" mv
  | None =>
      match requiredModule' stmt with
      | Some m => if JsObject.hasOwnProperty m mv then mv' = mv
                  else exists X, mv' = JsObject.set m X mv
      | None => mv' = mv
      end
  end.
Proof.
  simpl. destruct stmt as [r e|r ds|r cs].
  - unfold visitTopLevel.
    destruct (negb (strippedStrict s) && isUseStrict (ExpressionStatement r e)) eqn:U.
    + apply andb_true_iff in U. destruct U as [_ U].
      destruct (useStrict_refers_to_nothing _ U) as [-> ->].
      simpl. apply moduleVariables_writeRange.
    + unfold exportedModule, requiredModule, emitRewrittenRequires.
      destruct (isKind (kind e) CallExpression); simpl.
      * destruct (truthyRequire (isExportRequire e)) as [require|]; simpl.
        -- rewrite moduleVariables_writeRange. reflexivity.
        -- destruct (rewriteRequire_moduleVariables r None e s) as [_ H].
           destruct (option_map resolve' (truthyRequire (isRequire e))) as [m|].
           ++ destruct H as [Hf H].
              destruct (rewriteRequire' r None e s) as [b s']. simpl in *. subst b.
              exact H.
           ++ rewrite H. apply moduleVariables_bindings, bindings_visitStatement.
      * apply moduleVariables_bindings, bindings_visitStatement.
  - unfold visitTopLevel, exportedModule, requiredModule, emitRewrittenRequires.
    destruct ds as [|d [|d' ds]];
      try (apply moduleVariables_bindings, bindings_visitStatement).
    destruct (isKind (kind (name d)) Identifier); simpl;
      [|apply moduleVariables_bindings, bindings_visitStatement].
    destruct (initializer d) as [call|]; simpl;
      [|apply moduleVariables_bindings, bindings_visitStatement].
    destruct (isKind (kind call) CallExpression); simpl;
      [|apply moduleVariables_bindings, bindings_visitStatement].
    match goal with
    | |- context [rewriteRequire' r ?vn call s] =>
        destruct (rewriteRequire_moduleVariables r vn call s) as [_ H];
        destruct (option_map resolve' (truthyRequire (isRequire call))) as [m|];
        [ destruct H as [Hf H];
          destruct (rewriteRequire' r vn call s) as [b s']; simpl in *; subst b; exact H
        | rewrite H; apply moduleVariables_bindings, bindings_visitStatement ]
    end.
  - unfold visitTopLevel. simpl.
    apply moduleVariables_bindings, bindings_visitStatement.
Qed.

(** A binding survives a statement, unless the statement is an
    [__export] of the same module, which rebinds it to the placeholder. *)
Lemma visitTopLevel_get (stmt : Statement) (s : State) (M v : string) :
  JsObject.get M (moduleVariables s) = Some v ->
  (exportedModule' stmt <> Some M ->
   JsObject.get M (moduleVariables (visitTopLevel' stmt s)) = Some v)
  /\ (JsObject.plainKey M = true -> exportedModule' stmt = Some M ->
      JsObject.get M (moduleVariables (visitTopLevel' stmt s)) = Some "*").
Proof.
  intros Hget. pose proof (visitTopLevel_moduleVariables stmt s) as H. simpl in H.
  destruct (exportedModule' stmt) as [m|].
  - rewrite H. split.
    + intros Hne. rewrite get_set_other; [exact Hget | congruence].
    + intros Hplain Hm. injection Hm as ->. apply get_set_same. exact Hplain.
  - split; [intros _ | discriminate].
    destruct (requiredModule' stmt) as [m|]; [|now rewrite H].
    destruct (JsObject.hasOwnProperty m (moduleVariables s)) eqn:Hhas; [now rewrite H|].
    destruct H as [X ->]. rewrite get_set_other; [exact Hget|].
    intros ->. apply get_hasOwnProperty in Hget. congruence.
Qed.

(** The keys after one statement. *)
Lemma visitTopLevel_keys (stmt : Statement) (s : State) :
  match referencedModule' stmt with
  | Some m =>
      JsObject.plainKey m = true ->
      JsObject.keys (moduleVariables (visitTopLevel' stmt s))
      = if includes m (JsObject.keys (moduleVariables s))
        then JsObject.keys (moduleVariables s)
        else JsObject.keys (moduleVariables s) ++ [m]
  | None => JsObject.keys (moduleVariables (visitTopLevel' stmt s))
            = JsObject.keys (moduleVariables s)
  end.
Proof.
  pose proof (visitTopLevel_moduleVariables stmt s) as H. simpl in H.
  unfold referencedModule. destruct (exportedModule' stmt) as [m|].
  - intros Hplain. rewrite H. apply keys_set. exact Hplain.
  - destruct (requiredModule' stmt) as [m|]; [|now rewrite H].
    intros Hplain. rewrite <- hasOwnProperty_includes.
    destruct (JsObject.hasOwnProperty m (moduleVariables s)) eqn:Hhas; [now rewrite H|].
    destruct H as [X ->]. rewrite keys_set by exact Hplain.
    rewrite <- hasOwnProperty_includes, Hhas. reflexivity.
Qed.

Lemma strippedStrict_visitTopLevel (stmt : Statement) (s : State) :
  strippedStrict (visitTopLevel' stmt s) = strippedStrict s || isUseStrict stmt.
Proof.
  destruct stmt as [r e|r ds|r cs].
  - unfold visitTopLevel.
    destruct (strippedStrict s) eqn:S, (isUseStrict (ExpressionStatement r e)) eqn:U;
      simpl; try reflexivity.
    all: unfold emitRewrittenRequires;
      destruct (isKind (kind e) CallExpression); simpl;
      [ destruct (truthyRequire (isExportRequire e)); simpl;
        [ rewrite strippedStrict_writeRange; exact S
        | destruct (rewriteRequire_moduleVariables r None e s) as [Hs _];
          destruct (rewriteRequire' r None e s) as [[|] s']; simpl in *;
          [ congruence
          | rewrite (strippedStrict_bindings _ _ (bindings_visitStatement fileText _ s'));
            congruence ] ]
      | rewrite (strippedStrict_bindings _ _ (bindings_visitStatement fileText _ s));
        exact S ].
  - unfold visitTopLevel. simpl isUseStrict. rewrite orb_false_r.
    destruct (emitRewrittenRequires' (VariableStatement r ds) s) as [b s'] eqn:E.
    assert (Hs : strippedStrict s' = strippedStrict s).
    { unfold emitRewrittenRequires in E.
      destruct ds as [|d [|d' ds]]; try (injection E as _ <-; reflexivity).
      destruct (negb (isKind (kind (name d)) Identifier));
        [injection E as _ <-; reflexivity|].
      destruct (initializer d) as [call|]; [|injection E as _ <-; reflexivity].
      destruct (negb (isKind (kind call) CallExpression));
        [injection E as _ <-; reflexivity|].
      match type of E with
      | rewriteRequire' r ?vn call s = _ =>
          destruct (rewriteRequire_moduleVariables r vn call s) as [H _];
          rewrite E in H; exact H
      end. }
    destruct b; [exact Hs|].
    rewrite (strippedStrict_bindings _ _ (bindings_visitStatement fileText _ s')).
    exact Hs.
  - unfold visitTopLevel. simpl isUseStrict. rewrite orb_false_r.
    apply strippedStrict_bindings, bindings_visitStatement.
Qed.

(** ** The loop over the statements *)

Lemma processStatements_app (a b : list Statement) :
  forall pos s,
    processStatements' (a ++ b) pos s
    = let '(pos', s') := processStatements' a pos s in processStatements' b pos' s'.
Proof.
  induction a as [|x a IH]; intros pos s; simpl; [reflexivity | apply IH].
Qed.

Lemma processStatements_get (stmts : list Statement) (M v : string) :
  forall pos s,
    JsObject.get M (moduleVariables s) = Some v ->
    (forall stmt, In stmt stmts -> exportedModule' stmt <> Some M) ->
    JsObject.get M (moduleVariables (snd (processStatements' stmts pos s))) = Some v.
Proof.
  induction stmts as [|x stmts IH]; intros pos s Hget Hno; simpl; [exact Hget|].
  apply IH; [|intros; apply Hno; right; assumption].
  apply visitTopLevel_get; [|apply Hno; left; reflexivity].
  rewrite moduleVariables_writeRange. exact Hget.
Qed.

Lemma processStatements_placeholder (stmts : list Statement) (M : string) :
  JsObject.plainKey M = true ->
  forall pos s,
    JsObject.get M (moduleVariables s) = Some "*" ->
    JsObject.get M (moduleVariables (snd (processStatements' stmts pos s))) = Some "*".
Proof.
  intros Hplain.
  induction stmts as [|x stmts IH]; intros pos s Hget; simpl; [exact Hget|].
  apply IH.
  assert (Hw : JsObject.get M (moduleVariables
                 (writeRange' pos (getFullStart (statementRange x)) s)) = Some "*").
  { rewrite moduleVariables_writeRange. exact Hget. }
  destruct (visitTopLevel_get x _ M "*" Hw) as [Hother Hsame].
  destruct (exportedModule' x) as [m|] eqn:E.
  - destruct (string_dec m M) as [->|Hne].
    + apply Hsame; [exact Hplain | reflexivity].
    + apply Hother. congruence.
  - apply Hother. discriminate.
Qed.

Lemma referencedModulesOf_app (a b : list Statement) :
  referencedModulesOf' (a ++ b) = referencedModulesOf' a ++ referencedModulesOf' b.
Proof. unfold referencedModulesOf. apply flat_map_app. Qed.

Lemma processStatements_keys (stmts : list Statement) :
  forall pos s,
    forallb JsObject.plainKey (referencedModulesOf' stmts) = true ->
    JsObject.keys (moduleVariables (snd (processStatements' stmts pos s)))
    = firstOccurrences (JsObject.keys (moduleVariables s)) (referencedModulesOf' stmts).
Proof.
  induction stmts as [|x stmts IH]; intros pos s Hplain; simpl; [reflexivity|].
  change (referencedModulesOf' (x :: stmts))
    with (match referencedModule' x with Some m => [m] | None => [] end
          ++ referencedModulesOf' stmts) in *.
  rewrite forallb_app in Hplain. apply andb_true_iff in Hplain.
  destruct Hplain as [Hx Hrest].
  rewrite IH by exact Hrest.
  pose proof (visitTopLevel_keys x (writeRange' pos (getFullStart (statementRange x)) s)) as K.
  rewrite moduleVariables_writeRange in K.
  destruct (referencedModule' x) as [m|]; simpl.
  - simpl in Hx. rewrite andb_true_r in Hx. rewrite (K Hx). reflexivity.
  - rewrite K. reflexivity.
Qed.

Lemma processStatements_strippedStrict (stmts : list Statement) :
  forall pos s,
    strippedStrict (snd (processStatements' stmts pos s))
    = strippedStrict s || existsb isUseStrict stmts.
Proof.
  induction stmts as [|x stmts IH]; intros pos s; simpl.
  - now rewrite orb_false_r.
  - rewrite IH, strippedStrict_visitTopLevel, strippedStrict_writeRange.
    now rewrite orb_assoc.
Qed.

End PostSteps.

(** ** The module-rewrite pass on a file *)

Section PostTheorems.

Import PostProcessor Requires.

Variable fileName : string.
Variable fileText : string.
Variable pathToModuleName : string -> string -> string.

Local Abbreviation writeRange' := (writeRange fileText).
Local Abbreviation resolve' := (resolve fileName pathToModuleName).
Local Abbreviation visitTopLevel' := (visitTopLevel fileName fileText pathToModuleName).
Local Abbreviation processStatements' :=
  (processStatements fileName fileText pathToModuleName).
Local Abbreviation process' := (process fileName fileText pathToModuleName).
Local Abbreviation exportedModule' := (exportedModule fileName pathToModuleName).
Local Abbreviation referencedModule' := (referencedModule fileName pathToModuleName).
Local Abbreviation referencedModulesOf' := (referencedModulesOf fileName pathToModuleName).
Local Abbreviation stateAt' := (stateAt fileName fileText pathToModuleName).
Local Abbreviation startState' := (startState fileName pathToModuleName).


Lemma visitTopLevel_varRequire (r : Range) (X R : string) (s : State) :
  Js.truthy X = true -> Js.truthy R = true ->
  let m := resolve' R in
  let s2 := writeRange' (getFullStart r) (getStart r) (importedAs R X s) in
  visitTopLevel' (varRequire r X R) s
  = if JsObject.hasOwnProperty m (moduleVariables s)
    then emit (Js.cat ["var "; X; " = ";
                       match JsObject.get m (moduleVariables s) with
                       | Some v => v
                       | None => "undefined"
                       end; ";"]) s2
    else setModuleVariable m X
           (emit (Js.cat ["var "; X; " = goog.require('"; m; "');"]) s2).
Proof.
  intros HX HR. unfold visitTopLevel, emitRewrittenRequires, varRequire. simpl.
  rewrite HX.
  assert (H : truthyRequire (isRequire (requireCall R)) = Some R).
  { simpl. rewrite HR. reflexivity. }
  rewrite (rewriteRequire_named fileName fileText pathToModuleName r X _ R s H).
  unfold importedAs.
  destruct (JsObject.hasOwnProperty _ _); reflexivity.
Qed.

Lemma moduleVariables_stateAt (before : list Statement) (next : Range) :
  moduleVariables (stateAt' before next)
  = moduleVariables (snd (processStatements' before 0 startState')).
Proof.
  unfold stateAt. destruct (processStatements' before 0 startState') as [pos s].
  apply moduleVariables_writeRange.
Qed.

Lemma strippedStrict_stateAt (before : list Statement) (next : Range) :
  strippedStrict (stateAt' before next) = existsb isUseStrict before.
Proof.
  unfold stateAt.
  pose proof (processStatements_strippedStrict fileName fileText pathToModuleName
                before 0 startState') as H.
  destruct (processStatements' before 0 startState') as [pos s].
  rewrite strippedStrict_writeRange. exact H.
Qed.

(** The state in which the statement after [before ++ [stmt]] is visited. *)
Lemma moduleVariables_stateAt_snoc (before after : list Statement) (stmt : Statement)
    (next : Range) :
  moduleVariables (stateAt' (before ++ stmt :: after) next)
  = moduleVariables
      (snd (processStatements' after (getEnd (statementRange stmt))
              (visitTopLevel' stmt (stateAt' before (statementRange stmt))))).
Proof.
  rewrite moduleVariables_stateAt. unfold stateAt.
  rewrite processStatements_app.
  destruct (processStatements' before 0 startState') as [pos s]. reflexivity.
Qed.

Lemma plainKey_referenced (stmts : list Statement) (m : string) :
  forallb JsObject.plainKey (referencedModulesOf' stmts) = true ->
  In m (referencedModulesOf' stmts) -> JsObject.plainKey m = true.
Proof. intros H Hin. rewrite forallb_forall in H. auto. Qed.


(** C5, as amended.  A statement is recognized as [use strict] exactly when
    it is an expression statement whose expression is the string literal
    [use strict].  In any file, the first top-level statement so recognized
    is stripped, whatever its position: only its leading trivia is copied.
    Every later one is left in place: it is visited like any other
    statement. *)
Theorem use_strict_stripped_once :
  (forall stmt,
      isUseStrict stmt = true <->
      exists r e, stmt = ExpressionStatement r e
                  /\ kind e = StringLiteral /\ nodeText e = "use strict")
  /\ (forall pre us,
         isUseStrict us = true ->
         existsb isUseStrict pre = false ->
         let s := stateAt' pre (statementRange us) in
         visitTopLevel' us s
         = setStrippedStrict
             (writeRange' (getFullStart (statementRange us))
                          (getStart (statementRange us)) s))
  /\ (forall pre us mid later,
         isUseStrict us = true ->
         isUseStrict later = true ->
         let s := stateAt' (pre ++ us :: mid) (statementRange later) in
         visitTopLevel' later s = visitStatement fileText later s).
Proof.
  split; [exact isUseStrict_shape|split].
  - intros pre us Hus Hpre s.
    assert (Hs : strippedStrict s = false).
    { unfold s. rewrite strippedStrict_stateAt. exact Hpre. }
    destruct (proj1 (isUseStrict_shape us) Hus) as (r & e & -> & K & T).
    unfold visitTopLevel. rewrite Hs, Hus. reflexivity.
  - intros pre us mid later Hus Hlater s.
    assert (Hs : strippedStrict s = true).
    { unfold s. rewrite strippedStrict_stateAt, existsb_app. simpl.
      rewrite Hus. now rewrite orb_true_r. }
    destruct (proj1 (isUseStrict_shape later) Hlater) as (r & e & -> & K & T).
    unfold visitTopLevel, emitRewrittenRequires. rewrite Hs, K. reflexivity.
Qed.

End PostTheorems.

(** * Further properties *)

(** ** The documentation-comment parser *)

Lemma substring_cut (s : string) :
  forall n, n <= String.length s ->
            s = (substring 0 n s ++ substring n (String.length s - n) s)%string.
Proof.
  induction s as [|c s IH]; intros [|n] H; simpl in *.
  - reflexivity.
  - lia.
  - now rewrite substring_all.
  - f_equal. apply IH. lia.
Qed.

Lemma substring_length_le (s : string) :
  forall n m, n + m <= String.length s -> String.length (substring n m s) = m.
Proof.
  induction s as [|c s IH]; intros [|n] [|m] H; simpl in *; try lia; auto.
  - f_equal. apply (IH 0 m). lia.
  - apply (IH n 0). lia.
  - apply (IH n (S m)). lia.
Qed.

Lemma substring_substring_tail (s : string) :
  forall n m, n + m <= String.length s ->
    substring n (String.length s - n) s
    = (substring n m s ++ substring (n + m) (String.length s - (n + m)) s)%string.
Proof.
  induction s as [|c s IH]; intros [|n] m H; simpl in *.
  - destruct m; [reflexivity | lia].
  - lia.
  - destruct m as [|m]; simpl.
    + now rewrite substring_all.
    + f_equal. rewrite substring_all.
      pose proof (IH 0 m) as E. simpl in E. rewrite Nat.sub_0_r, substring_all in E.
      apply E. lia.
  - apply IH. lia.
Qed.

(** The first pattern matches exactly the strings that open with the three
    characters and close with the two. *)
Lemma matchJSDoc_inv (comment body : string) :
  matchJSDoc comment = Some body -> comment = ("/**" ++ body ++ "*/")%string.
Proof.
  unfold matchJSDoc.
  destruct (String.prefix "/**" comment) eqn:P; [|discriminate].
  destruct (5 <=? String.length comment) eqn:L; [|discriminate].
  destruct (Js.endsWith "*/" comment) eqn:E; [|discriminate].
  simpl. intros H. injection H as <-.
  apply Nat.leb_le in L. apply String.prefix_correct in P. simpl String.length in P.
  unfold Js.endsWith in E. simpl String.length in E.
  apply andb_true_iff in E. destruct E as [_ E]. apply String.eqb_eq in E.
  assert (H : comment
              = (substring 0 3 comment
                 ++ substring 3 (String.length comment - 5) comment
                 ++ substring (String.length comment - 2) 2 comment)%string).
  { rewrite (substring_cut comment 3) at 1 by lia. f_equal.
    rewrite (substring_substring_tail comment 3 (String.length comment - 5)) by lia.
    f_equal.
    replace (3 + (String.length comment - 5)) with (String.length comment - 2) by lia.
    replace (String.length comment - (String.length comment - 2)) with 2 by lia.
    reflexivity. }
  rewrite P, E in H. exact H.
Qed.

Lemma parseLines_not_null (lines : list string) :
  forall tags, parseLines lines tags <> NotJSDoc.
Proof.
  induction lines as [|l rest IH]; intros tags; simpl; [discriminate|].
  destruct (matchTagLine l) as [[n t]|].
  - destruct (parseTagLine n t); [discriminate | apply IH].
  - destruct tags; apply IH.
Qed.

(** X1.  [getJSDocAnnotation] answers not-a-documentation-comment exactly
    for the strings that are not delimited by a slash and two stars in front
    and a star and a slash at the end. *)
Theorem not_jsdoc_iff_not_delimited (comment : string) :
  getJSDocAnnotation comment = NotJSDoc
  <-> (forall body, comment <> ("/**" ++ body ++ "*/")%string).
Proof.
  unfold getJSDocAnnotation. split.
  - intros H body ->. rewrite matchJSDoc_delimited in H.
    exact (parseLines_not_null _ _ H).
  - intros H. destruct (matchJSDoc comment) as [body|] eqn:E; [|reflexivity].
    apply matchJSDoc_inv in E. destruct (H body E).
Qed.

Lemma parseTagLine_fault (name text message : string) :
  parseTagLine name text = inl message ->
  handWrittenType name text
  /\ (message = "@type annotations are not allowed"
      \/ message = "type annotations (using {...}) are not allowed").
Proof.
  unfold parseTagLine, handWrittenType.
  destruct (String.eqb name "type") eqn:T.
  - apply String.eqb_eq in T. intros [= <-]. auto.
  - destruct ((String.eqb name "param" || String.eqb name "return")
              && Js.firstCharIs "{"%char text) eqn:B.
    + intros [= <-]. apply andb_true_iff in B. destruct B as [B1 B2].
      apply orb_true_iff in B1. rewrite !String.eqb_eq in B1. auto.
    + destruct (String.eqb name "param"); [destruct (matchParamName text) as [[p t]|]|];
        discriminate.
Qed.

Lemma parseLines_fault (lines : list string) :
  forall tags message,
    parseLines lines tags = Fault message ->
    (exists line name text,
        In line lines /\ matchTagLine line = Some (name, text)
        /\ handWrittenType name text)
    /\ (message = "@type annotations are not allowed"
        \/ message = "type annotations (using {...}) are not allowed").
Proof.
  induction lines as [|l rest IH]; intros tags message; simpl; [discriminate|].
  destruct (matchTagLine l) as [[n t]|] eqn:M.
  - destruct (parseTagLine n t) as [m|tag] eqn:P.
    + intros [= <-]. destruct (parseTagLine_fault _ _ _ P) as [Hbad Hmsg].
      split; [|exact Hmsg]. exists l, n, t. auto.
    + intros H. destruct (IH _ _ H) as [(line & name & text & Hin & Hm & Hbad) Hmsg].
      split; [|exact Hmsg]. exists line, name, text. auto.
  - intros H.
    assert (H' : exists tags', parseLines rest tags' = Fault message).
    { destruct tags; eexists; exact H. }
    destruct H' as [tags' H'].
    destruct (IH _ _ H') as [(line & name & text & Hin & Hm & Hbad) Hmsg].
    split; [|exact Hmsg]. exists line, name, text. auto.
Qed.

(** X2.  [getJSDocAnnotation] throws exactly on the documentation comments
    one of whose lines the tag pattern reads as an [@type] tag, or as an
    [@param] or [@return] tag whose text opens with a brace; the message is
    one of two fixed messages. *)
Theorem fault_iff_hand_written_type (comment : string) :
  ((exists message, getJSDocAnnotation comment = Fault message)
   <-> (exists body line name text,
           comment = ("/**" ++ body ++ "*/")%string
           /\ In line (docLines body)
           /\ matchTagLine line = Some (name, text)
           /\ handWrittenType name text))
  /\ (forall message,
         getJSDocAnnotation comment = Fault message ->
         message = "@type annotations are not allowed"
         \/ message = "type annotations (using {...}) are not allowed").
Proof.
  unfold getJSDocAnnotation. split; [split|].
  - intros [message H]. destruct (matchJSDoc comment) as [body|] eqn:E; [|discriminate].
    apply matchJSDoc_inv in E.
    destruct (parseLines_fault _ _ _ H) as [(line & name & text & H1 & H2 & H3) _].
    exists body, line, name, text. auto.
  - intros (body & line & name & text & -> & H1 & H2 & H3).
    rewrite matchJSDoc_delimited. eapply parseLines_rejects; eassumption.
  - intros message H. destruct (matchJSDoc comment) as [body|]; [|discriminate].
    apply (parseLines_fault _ _ _ H).
Qed.

Lemma parsedTag_appendToLast (extra : string) (tags : list JSDocTag) :
  Forall parsedTag tags -> Forall parsedTag (appendToLast extra tags).
Proof.
  induction 1 as [|t rest Ht Hrest IH]; simpl; [constructor|].
  destruct rest as [|t' rest'].
  - constructor; [|constructor]. unfold parsedTag in *. simpl. exact Ht.
  - constructor; [exact Ht | exact IH].
Qed.

Lemma appendToLast_nonempty (extra : string) (tags : list JSDocTag) :
  tags <> [] -> appendToLast extra tags <> [].
Proof.
  destruct tags as [|t [|t' r]]; simpl; [tauto | discriminate | discriminate].
Qed.

Lemma parsedTag_parseTagLine (name text : string) (tag : JSDocTag) :
  parseTagLine name text = inr tag -> parsedTag tag /\ tagName tag = Some name.
Proof.
  unfold parseTagLine.
  destruct (String.eqb name "type") eqn:T; [discriminate|].
  destruct (_ && _); [discriminate|].
  apply String.eqb_neq in T.
  destruct (String.eqb name "param") eqn:P.
  - apply String.eqb_eq in P. subst name.
    destruct (matchParamName text) as [[p t]|]; intros [= <-];
      unfold parsedTag; simpl; repeat split; auto; congruence.
  - intros [= <-]. unfold parsedTag; simpl; repeat split; auto; congruence.
Qed.

Lemma parseLines_tags (lines : list string) :
  forall tags result,
    parseLines lines tags = Tags result ->
    (Forall parsedTag tags -> Forall parsedTag result)
    /\ (tags <> [] \/ lines <> [] -> result <> []).
Proof.
  induction lines as [|l rest IH]; intros tags result; simpl.
  - intros [= <-]. split; [auto | intros [H | H]; tauto].
  - destruct (matchTagLine l) as [[n t]|].
    + destruct (parseTagLine n t) as [m|tag] eqn:P; [discriminate|].
      intros H. destruct (IH _ _ H) as [I1 I2]. split.
      * intros Ht. apply I1. apply Forall_app. split; [exact Ht|].
        constructor; [|constructor]. apply (parsedTag_parseTagLine _ _ _ P).
      * intros _. apply I2. left. destruct tags; discriminate.
    + destruct tags as [|t0 tags'].
      * intros H. destruct (IH _ _ H) as [I1 I2]. split.
        -- intros _. apply I1. constructor; [|constructor].
           unfold parsedTag, simpleTag; simpl. repeat split; auto; congruence.
        -- intros _. apply I2. left. discriminate.
      * intros H. destruct (IH _ _ H) as [I1 I2]. split.
        -- intros Ht. apply I1. apply parsedTag_appendToLast. exact Ht.
        -- intros _. apply I2. left. apply appendToLast_nonempty. discriminate.
Qed.

Lemma docLines_nonempty (body : string) : docLines body <> [].
Proof.
  unfold docLines.
  destruct (stripStars 0 true (Js.trim body)) as [|c s]; simpl; [discriminate|].
  destruct (Nat.eqb _ 10); [discriminate|].
  destruct (Js.splitLines s); discriminate.
Qed.

(** X3.  A tag list that [getJSDocAnnotation] returns is never empty, and
    each of its tags is free of a type and of flags, is not an [@type] tag,
    and names a parameter only if it is an [@param] tag. *)
Theorem parsed_tags_carry_no_type (comment : string) (tags : list JSDocTag) :
  getJSDocAnnotation comment = Tags tags ->
  tags <> [] /\ Forall parsedTag tags.
Proof.
  unfold getJSDocAnnotation.
  destruct (matchJSDoc comment) as [body|]; [|discriminate].
  intros H. destruct (parseLines_tags _ _ _ H) as [I1 I2]. split.
  - apply I2. right. apply docLines_nonempty.
  - apply I1. constructor.
Qed.

Lemma tagNames_app (a b : list JSDocTag) : tagNames (a ++ b) = tagNames a ++ tagNames b.
Proof. unfold tagNames. apply flat_map_app. Qed.

Lemma tagNames_appendToLast (extra : string) (tags : list JSDocTag) :
  tagNames (appendToLast extra tags) = tagNames tags.
Proof.
  induction tags as [|t rest IH]; [reflexivity|].
  destruct rest as [|t' rest'].
  - reflexivity.
  - change (appendToLast extra (t :: t' :: rest'))
      with (t :: appendToLast extra (t' :: rest')).
    change (tagNames (t :: appendToLast extra (t' :: rest')))
      with (match tagName t with Some n => [n] | None => [] end
            ++ tagNames (appendToLast extra (t' :: rest'))).
    rewrite IH. reflexivity.
Qed.

Lemma parseLines_names (lines : list string) :
  forall tags result,
    parseLines lines tags = Tags result ->
    tagNames result = tagNames tags ++ tagLineNames lines.
Proof.
  induction lines as [|l rest IH]; intros tags result; simpl.
  - intros [= <-]. now rewrite app_nil_r.
  - unfold tagLineNames. simpl. fold (tagLineNames rest).
    destruct (matchTagLine l) as [[n t]|].
    + destruct (parseTagLine n t) as [m|tag] eqn:P; [discriminate|].
      intros H. rewrite (IH _ _ H), tagNames_app, <- app_assoc. f_equal.
      unfold tagNames. simpl.
      rewrite (proj2 (parsedTag_parseTagLine _ _ _ P)). reflexivity.
    + destruct tags as [|t0 tags'].
      * intros H. rewrite (IH _ _ H). reflexivity.
      * intros H. rewrite (IH _ _ H), tagNames_appendToLast. reflexivity.
Qed.


Lemma string_append_assoc (a b c : string) :
  ((a ++ b) ++ c)%string = (a ++ b ++ c)%string.
Proof. induction a as [|x a IH]; simpl; [reflexivity | now rewrite IH]. Qed.

Lemma join_first_two (a b : string) (r : list string) :
  Js.join " " (Js.cat [a; " "; b] :: r) = Js.join " " (a :: b :: r).
Proof.
  unfold Js.join, Js.cat. simpl. destruct r as [|c r]; [reflexivity|].
  rewrite string_append_assoc. reflexivity.
Qed.

Lemma parseLines_plain (lines : list string) :
  plainLines lines ->
  forall acc,
    parseLines lines [simpleTag None (Some acc)]
    = Tags [simpleTag None (Some (Js.join " " (acc :: map Js.trim lines)))].
Proof.
  induction 1 as [|l rest Hl Hrest IH]; intros acc.
  - reflexivity.
  - simpl parseLines. rewrite Hl.
    etransitivity; [exact (IH (Js.cat [acc; " "; Js.trim l]))|].
    simpl map. rewrite join_first_two. reflexivity.
Qed.


(** ** Comments in the usual layout *)

Lemma append_empty_r (a : string) : (a ++ EmptyString)%string = a.
Proof. induction a as [|c a IH]; simpl; [reflexivity | now rewrite IH]. Qed.

Lemma trimEnd_blanks (x w : string) :
  forallChars Js.isWhiteSpace w = true -> Js.trimEnd (x ++ w) = Js.trimEnd x.
Proof.
  intros Hw. induction x as [|c x IH]; simpl.
  - induction w as [|d w IHw]; simpl; [reflexivity|].
    simpl in Hw. apply andb_true_iff in Hw. destruct Hw as [Hd Hw].
    rewrite (IHw Hw), Hd. reflexivity.
  - rewrite IH. reflexivity.
Qed.

Lemma trimEnd_inked (x l : string) :
  l <> EmptyString -> Js.trimEnd l = l -> Js.trimEnd (x ++ l) = (x ++ l)%string.
Proof.
  intros Hne Hl. induction x as [|c x IH]; simpl; [exact Hl|].
  rewrite IH. destruct (x ++ l)%string eqn:E.
  - destruct x; simpl in E; [contradiction | discriminate].
  - simpl. rewrite andb_false_r. reflexivity.
Qed.

Lemma join_starred (l : string) (rest : list string) :
  Js.join LF (map (fun l => (" * " ++ l)%string) (l :: rest))
  = (" * " ++ l ++ starred rest)%string.
Proof.
  revert l. induction rest as [|l' rest IH]; intros l.
  - simpl. now rewrite append_empty_r.
  - change (Js.join LF (map (fun l => (" * " ++ l)%string) (l :: l' :: rest)))
      with ((" * " ++ l) ++ LF
            ++ Js.join LF (map (fun l => (" * " ++ l)%string) (l' :: rest)))%string.
    rewrite IH. simpl. rewrite ?string_append_assoc. reflexivity.
Qed.

Lemma join_unstarred (l : string) (rest : list string) :
  Js.join LF (l :: rest) = (l ++ unstarred rest)%string.
Proof.
  revert l. induction rest as [|l' rest IH]; intros l.
  - simpl. now rewrite append_empty_r.
  - change (Js.join LF (l :: l' :: rest)) with (l ++ LF ++ Js.join LF (l' :: rest))%string.
    rewrite IH. reflexivity.
Qed.

Lemma starred_ends (l : string) (rest : list string) :
  exists x, (l ++ starred rest)%string = (x ++ last (l :: rest) EmptyString)%string.
Proof.
  revert l. induction rest as [|l' rest IH]; intros l.
  - exists EmptyString. simpl. now rewrite append_empty_r.
  - destruct (IH l') as [x Hx].
    exists (l ++ LF ++ " * " ++ x)%string.
    change (last (l :: l' :: rest) EmptyString) with (last (l' :: rest) EmptyString).
    change (starred (l' :: rest)) with (LF ++ " * " ++ l' ++ starred rest)%string.
    rewrite Hx, !string_append_assoc. reflexivity.
Qed.

Lemma trim_laidOut (l : string) (rest : list string) :
  layable (l :: rest) ->
  Js.trim (laidOut (l :: rest)) = ("* " ++ l ++ starred rest)%string.
Proof.
  intros (_ & Hne & Hend). unfold laidOut, Js.cat.
  rewrite join_starred.
  change (String.concat EmptyString [LF; (" * " ++ l ++ starred rest)%string; LF; " "])
    with (LF ++ (" * " ++ l ++ starred rest) ++ LF ++ " ")%string.
  unfold Js.trim.
  change (Js.trimStart (LF ++ (" * " ++ l ++ starred rest) ++ LF ++ " "))
    with (("* " ++ l ++ starred rest) ++ LF ++ " ")%string.
  rewrite trimEnd_blanks by reflexivity.
  destruct (starred_ends l rest) as [x Hx].
  rewrite Hx. rewrite <- string_append_assoc.
  apply trimEnd_inked; assumption.
Qed.

Lemma stripStars_line (l r : string) :
  forallChars notLineTerminator l = true ->
  stripStars 0 false (l ++ r) = (l ++ stripStars 0 false r)%string.
Proof.
  induction l as [|c l IH]; intros H; simpl; [reflexivity|].
  simpl in H. apply andb_true_iff in H. destruct H as [Hc Hl].
  unfold notLineTerminator in Hc. apply negb_true_iff in Hc.
  rewrite Hc, (IH Hl). reflexivity.
Qed.

Lemma stripStars_star (r : string) :
  stripStars 0 true ("* " ++ r) = stripStars 0 false r.
Proof. destruct r; reflexivity. Qed.

Lemma stripStars_break (r : string) :
  stripStars 0 false (LF ++ " * " ++ r) = (LF ++ stripStars 0 false r)%string.
Proof. destruct r; reflexivity. Qed.

Lemma stripStars_starred (rest : list string) :
  Forall (fun l => forallChars notLineTerminator l = true) rest ->
  stripStars 0 false (starred rest) = unstarred rest.
Proof.
  induction 1 as [|l rest Hl Hrest IH]; [reflexivity|].
  change (starred (l :: rest)) with (LF ++ " * " ++ l ++ starred rest)%string.
  rewrite stripStars_break, stripStars_line by exact Hl.
  rewrite IH. reflexivity.
Qed.

Lemma splitLines_line (l r : string) :
  forallChars notLineTerminator l = true ->
  Js.splitLines (l ++ LF ++ r) = l :: Js.splitLines r.
Proof.
  induction l as [|c l IH]; intros H; [reflexivity|].
  simpl in H. apply andb_true_iff in H. destruct H as [Hc Hl].
  cbn [Js.splitLines String.append]. rewrite (IH Hl).
  unfold notLineTerminator, Js.isLineTerminator in Hc.
  apply negb_true_iff, orb_false_iff in Hc. destruct Hc as [Hc _].
  rewrite Hc. reflexivity.
Qed.

Lemma splitLines_last (l : string) :
  forallChars notLineTerminator l = true -> Js.splitLines l = [l].
Proof.
  induction l as [|c l IH]; intros H; [reflexivity|].
  simpl in H. apply andb_true_iff in H. destruct H as [Hc Hl].
  simpl. rewrite (IH Hl).
  unfold notLineTerminator, Js.isLineTerminator in Hc.
  apply negb_true_iff, orb_false_iff in Hc. destruct Hc as [Hc _].
  rewrite Hc. reflexivity.
Qed.

Lemma splitLines_unstarred (l : string) (rest : list string) :
  Forall (fun l => forallChars notLineTerminator l = true) (l :: rest) ->
  Js.splitLines (l ++ unstarred rest) = l :: rest.
Proof.
  revert l. induction rest as [|l' rest IH]; intros l H.
  - simpl. rewrite append_empty_r. apply splitLines_last. now inversion H.
  - inversion H as [|? ? Hl Hrest]; subst.
    change (unstarred (l' :: rest)) with (LF ++ l' ++ unstarred rest)%string.
    rewrite splitLines_line by exact Hl.
    rewrite (IH l' Hrest). reflexivity.
Qed.

(** The lines that the parser reads in a comment in the usual layout are
    the lines as written. *)
Lemma docLines_laidOut (lines : list string) :
  layable lines -> docLines (laidOut lines) = lines.
Proof.
  intros H. destruct lines as [|l rest].
  - destruct H as (_ & Hne & _). simpl in Hne. congruence.
  - unfold docLines. rewrite trim_laidOut by exact H.
    destruct H as (Hall & _).
    rewrite stripStars_star.
    inversion Hall as [|? ? Hl Hrest]; subst.
    rewrite stripStars_line by exact Hl.
    rewrite stripStars_starred by exact Hrest.
    apply splitLines_unstarred. exact Hall.
Qed.

(** ** Tag lines with a hand-written type *)

Lemma takeWhile_dropWhile (p : ascii -> bool) (s : string) :
  s = (Js.takeWhile p s ++ Js.dropWhile p s)%string.
Proof.
  induction s as [|c s IH]; simpl; [reflexivity|].
  destruct (p c); simpl; [now rewrite <- IH | reflexivity].
Qed.

Lemma dropWhile_head (p : ascii -> bool) (s : string) :
  Js.dropWhile p s = EmptyString
  \/ exists c r, Js.dropWhile p s = String c r /\ p c = false.
Proof.
  induction s as [|c s IH]; simpl; [auto|].
  destruct (p c) eqn:E; [exact IH|]. right. exists c, s. auto.
Qed.

Lemma isSpace_space (c : ascii) : isSpace c = true -> c = " "%char.
Proof.
  unfold isSpace. intros H. apply Nat.eqb_eq in H.
  rewrite <- (ascii_nat_embedding c), H. reflexivity.
Qed.

Lemma dropWhile_spaces (n : nat) (r : string) :
  Js.dropWhile isSpace (spaces n ++ String "{"%char r) = String "{"%char r.
Proof. induction n as [|n IH]; simpl; [reflexivity | exact IH]. Qed.

Lemma spaces_dropWhile (s : string) :
  exists n, s = (spaces n ++ Js.dropWhile isSpace s)%string.
Proof.
  induction s as [|c s IH]; simpl; [exists 0; reflexivity|].
  destruct (isSpace c) eqn:E; [|exists 0; reflexivity].
  destruct IH as [n Hn]. exists (S n). simpl.
  rewrite (isSpace_space _ E). f_equal. exact Hn.
Qed.

Lemma takeWhile_brace (p : ascii -> bool) (s : string) :
  Js.firstCharIs "{"%char (Js.takeWhile p s) = true -> exists r, s = String "{"%char r.
Proof.
  destruct s as [|c s]; [discriminate|].
  cbn [Js.takeWhile]. destruct (p c); [|discriminate].
  unfold Js.firstCharIs. intros H. apply Ascii.eqb_eq in H. subst c. eauto.
Qed.

Lemma matchTagLine_inv (line name text : string) :
  matchTagLine line = Some (name, text) ->
  exists rest,
    line = String "@"%char rest
    /\ name = Js.takeWhile notWhiteSpace rest
    /\ text = Js.takeWhile notLineTerminator
                (Js.dropWhile isSpace (Js.dropWhile notWhiteSpace rest)).
Proof.
  unfold matchTagLine. destruct line as [|c rest]; [discriminate|].
  destruct c as [[] [] [] [] [] [] [] []]; try discriminate.
  destruct (Js.isEmpty _); [discriminate|].
  intros [= <- <-]. exists rest. auto.
Qed.

(** The tag pattern reads a line as a tag with a hand-written type exactly
    when the line opens that way. *)
Lemma typedTagLine_read (line : string) :
  typedTagLine line
  <-> exists name text, matchTagLine line = Some (name, text) /\ handWrittenType name text.
Proof.
  split.
  - intros [|c rest Hc|n rest|n rest].
    + exists "type", EmptyString. split; [reflexivity | left; reflexivity].
    + assert (Hn : notWhiteSpace c = false).
      { unfold notWhiteSpace. rewrite Hc. reflexivity. }
      assert (E1 : Js.takeWhile notWhiteSpace ("type" ++ String c rest) = "type").
      { cbn [String.append Js.takeWhile]. rewrite Hn. reflexivity. }
      assert (E2 : Js.dropWhile notWhiteSpace ("type" ++ String c rest) = String c rest).
      { cbn [String.append Js.dropWhile]. rewrite Hn. reflexivity. }
      eexists; eexists. split; [|left; reflexivity].
      change ("@type" ++ String c rest)%string
        with (String "@"%char ("type" ++ String c rest)).
      unfold matchTagLine. rewrite E1, E2. reflexivity.
    + eexists; eexists. split.
      * simpl. rewrite dropWhile_spaces. reflexivity.
      * right. split; [left; reflexivity | reflexivity].
    + eexists; eexists. split.
      * simpl. rewrite dropWhile_spaces. reflexivity.
      * right. split; [right; reflexivity | reflexivity].
  - intros (name & text & Hm & Hbad).
    destruct (matchTagLine_inv _ _ _ Hm) as (rest & -> & Hname & Htext).
    rewrite (takeWhile_dropWhile notWhiteSpace rest), <- Hname.
    destruct Hbad as [-> | [Hn Hbrace]].
    + destruct (dropWhile_head notWhiteSpace rest) as [-> | (c & r & -> & Hc)].
      * apply typeAlone.
      * apply (typeThenBlank c r). apply negb_false_iff. exact Hc.
    + rewrite Htext in Hbrace. apply takeWhile_brace in Hbrace. destruct Hbrace as [r Hr].
      destruct (spaces_dropWhile (Js.dropWhile notWhiteSpace rest)) as [n Hn'].
      rewrite Hr in Hn'. rewrite Hn'.
      destruct n as [|n].
      * destruct (dropWhile_head notWhiteSpace rest) as [E | (c & r' & E & Hc)];
          rewrite E in Hn'; simpl in Hn'; [discriminate|].
        injection Hn' as -> _. discriminate.
      * destruct Hn as [-> | ->].
        -- apply (paramThenBrace n r).
        -- apply (returnThenBrace n r).
Qed.


(** ** Enum numbering *)

Lemma enumValues_uninitialized (ms : list EnumMember) :
  uninitialized ms ->
  forall a i,
    enumValues (i + Z.of_nat a) ms
    = map (fun km : nat * EnumMember =>
             (nameGetText (enumMemberName (snd km)), inl (i + Z.of_nat (fst km))%Z))
          (combine (seq a (length ms)) ms).
Proof.
  induction 1 as [|m ms Hm Hms IH]; intros a i; simpl; [reflexivity|].
  rewrite Hm. f_equal.
  replace (i + Z.of_nat a + 1)%Z with (i + Z.of_nat (S a))%Z by lia.
  apply IH.
Qed.

Lemma enumValues_numberedFrom (ms : list EnumMember) (i : Z) :
  uninitialized ms -> enumValues i ms = numberedFrom i ms.
Proof.
  intros H. unfold numberedFrom.
  rewrite <- (enumValues_uninitialized ms H 0 i). f_equal. simpl. lia.
Qed.

Lemma enumValues_app (pre rest : list EnumMember) :
  forall i, exists j, enumValues i (pre ++ rest) = enumValues i pre ++ enumValues j rest.
Proof.
  induction pre as [|m pre IH]; intros i; simpl.
  - exists i. reflexivity.
  - destruct (initializer m), (constantValue m);
      match goal with
      | |- context [enumValues ?k (pre ++ rest)] =>
          destruct (IH k) as [j ->]; exists j; reflexivity
      end.
Qed.

Lemma gatherMembers_enumValues (ms : list EnumMember) :
  NoDup (enumMemberNames ms) ->
  forallb JsObject.plainKey (enumMemberNames ms) = true ->
  gatherMembers ms = enumValues 0 ms.
Proof.
  intros Hnd Hplain. unfold gatherMembers. rewrite gatherMembers_fold; auto.
Qed.

(** X6.  In an enum none of whose members has an initializer, the object
    that [maybeProcessEnum] gathers gives the [k]-th member the value [k]
    (members with distinct, plain names). *)
Theorem enum_without_initializers_counts_from_zero (ms : list EnumMember) :
  uninitialized ms ->
  NoDup (enumMemberNames ms) ->
  forallb JsObject.plainKey (enumMemberNames ms) = true ->
  gatherMembers ms = numberedFrom 0 ms.
Proof.
  intros Hu Hnd Hplain.
  rewrite gatherMembers_enumValues by assumption.
  apply enumValues_numberedFrom. exact Hu.
Qed.

Lemma enumMemberNames_app (a b : list EnumMember) :
  enumMemberNames (a ++ b) = enumMemberNames a ++ enumMemberNames b.
Proof. unfold enumMemberNames. apply map_app. Qed.

(** X7.  A member with a constant initializer [c] takes [c] whatever the
    members before it are, and the members without initializer that follow
    it take [c + 1], [c + 2], and so on; the members before it keep the
    values they have in the enum cut before it; every value is below 2^53
    in magnitude (members with distinct names that are plain property
    names; constants and counter below 2^53 in magnitude). *)
Theorem enum_constant_restarts_the_count
    (pre run : list EnumMember) (m : EnumMember) (init : Expression) (c : Z) :
  initializer m = Some init ->
  constantValue m = Some c ->
  uninitialized run ->
  NoDup (enumMemberNames (pre ++ m :: run)) ->
  forallb JsObject.plainKey (enumMemberNames (pre ++ m :: run)) = true ->
  safeConstants (pre ++ m :: run) ->
  gatherMembers (pre ++ m :: run)
  = gatherMembers pre
    ++ (nameGetText (enumMemberName m), inl c) :: numberedFrom (c + 1) run
  /\ Forall safeValue (gatherMembers (pre ++ m :: run)).
Proof.
  intros Hi Hc Hrun Hnd Hplain Hsafe.
  split;
    [|rewrite gatherMembers_enumValues by assumption;
      apply safeConstants_values; exact Hsafe].
  rewrite gatherMembers_enumValues by assumption.
  rewrite enumMemberNames_app in Hnd, Hplain.
  rewrite forallb_app in Hplain. apply andb_true_iff in Hplain.
  rewrite gatherMembers_enumValues;
    [| exact (NoDup_app_remove_r _ _ Hnd) | tauto].
  destruct (enumValues_app pre (m :: run) 0) as [j ->]. f_equal.
  simpl. rewrite Hi, Hc. f_equal. apply enumValues_numberedFrom. exact Hrun.
Qed.

(** ** The annotation block of a callable *)

Section FunctionTagTheorems.

Variable fileText : string.
Variable untyped : bool.
Variable translate : Ty -> bool -> string.
Variable getLeadingCommentRanges : string -> list (nat * nat).

Lemma filter_none {A} (p q : A -> bool) (l : list A) :
  (forall x, q x = true -> p x = false) -> filter p (filter q l) = [].
Proof.
  intros H. induction l as [|x l IH]; simpl; [reflexivity|].
  destruct (q x) eqn:Q; simpl; [rewrite (H x Q)|]; exact IH.
Qed.

Lemma filter_all {A} (p : A -> bool) (l : list A) :
  (forall x, In x l -> p x = true) -> filter p l = l.
Proof.
  intros H. induction l as [|x l IH]; simpl; [reflexivity|].
  rewrite (H x (or_introl eq_refl)). f_equal. apply IH. intros; apply H; now right.
Qed.

Lemma filter_nothing {A} (p : A -> bool) (l : list A) :
  (forall x, In x l -> p x = false) -> filter p l = [].
Proof.
  intros H. induction l as [|x l IH]; simpl; [reflexivity|].
  rewrite (H x (or_introl eq_refl)). apply IH. intros; apply H; now right.
Qed.

Lemma isTagNamed_paramTag (jsDoc : list JSDocTag) (p : ParameterDeclaration) (n : string) :
  isTagNamed n (paramTag untyped translate jsDoc p) = String.eqb "param" n.
Proof. reflexivity. Qed.

Lemma isTagNamed_returnTag (jsDoc : list JSDocTag) (f : FunctionLike) (n : string) (t : JSDocTag) :
  In t (returnTag untyped translate jsDoc f) -> isTagNamed n t = String.eqb "return" n.
Proof.
  unfold returnTag. destruct (fnIsConstructor f); simpl; [tauto|].
  intros [<- | []]. reflexivity.
Qed.

(** X8.  The comment that [emitFunctionType] emits is built from one list
    of tags.  In that list, apart from the extra tags the caller passes, the
    [@param] tags are exactly one per parameter of the signature, in
    declaration order, and there is one [@return] tag, the last tag, unless
    the callable is a constructor, which has none: the [@param] and
    [@return] tags of the existing comment are not copied. *)
Theorem synthesized_param_and_return_tags
    (fnDecl : FunctionLike) (extraTags : list JSDocTag) (s : Annotator) :
  let doc := getJSDoc fileText getLeadingCommentRanges (range (fnInfo fnDecl)) s in
  let jsDoc := orEmpty (fst doc) in
  let tags := functionTags untyped translate jsDoc extraTags fnDecl in
  emitFunctionType fileText untyped translate getLeadingCommentRanges fnDecl extraTags s
  = emit (Js.cat [" */"; LF])
         (emits (flat_map tagChunks tags) (emit (Js.cat [LF; "/**"; LF]) (snd doc)))
  /\ filter (isTagNamed "param") tags
     = filter (isTagNamed "param") extraTags
       ++ map (paramTag untyped translate jsDoc) (fnParameters fnDecl)
  /\ filter (isTagNamed "return") tags
     = filter (isTagNamed "return") extraTags ++ returnTag untyped translate jsDoc fnDecl
  /\ map parameterName (map (paramTag untyped translate jsDoc) (fnParameters fnDecl))
     = map (fun p => Some (unescapeName (paramSymbolName p))) (fnParameters fnDecl)
  /\ length (returnTag untyped translate jsDoc fnDecl)
     = (if fnIsConstructor fnDecl then 0 else 1).
Proof.
  simpl. repeat split.
  - unfold emitFunctionType, functionTags.
    destruct (getJSDoc _ _ _ s) as [doc s1]. reflexivity.
  - unfold functionTags. rewrite !filter_app. f_equal.
    rewrite filter_none.
    + simpl. rewrite filter_all, filter_nothing, app_nil_r; [reflexivity| |].
      * intros t Ht. rewrite (isTagNamed_returnTag _ _ _ _ Ht). reflexivity.
      * intros t Ht. apply in_map_iff in Ht. destruct Ht as (p & <- & _). reflexivity.
    + intros t Ht. apply negb_true_iff, orb_false_iff in Ht. tauto.
  - unfold functionTags. rewrite !filter_app. f_equal.
    rewrite filter_none.
    + simpl. rewrite filter_nothing, filter_all; [reflexivity| |].
      * intros t Ht. rewrite (isTagNamed_returnTag _ _ _ _ Ht). reflexivity.
      * intros t Ht. apply in_map_iff in Ht. destruct Ht as (p & <- & _). reflexivity.
    + intros t Ht. apply negb_true_iff, orb_false_iff in Ht. tauto.
  - rewrite map_map. reflexivity.
  - unfold returnTag. destruct (fnIsConstructor fnDecl); reflexivity.
Qed.

End FunctionTagTheorems.

(** ** The externs walk only appends *)

Lemma appends_refl (s : Annotator) : appends s s.
Proof. unfold appends. repeat split; exists []; now rewrite app_nil_r. Qed.

Lemma appends_trans (s1 s2 s3 : Annotator) :
  appends s1 s2 -> appends s2 s3 -> appends s1 s3.
Proof.
  unfold appends.
  intros ([a1 A1] & [b1 B1] & [c1 C1]) ([a2 A2] & [b2 B2] & [c2 C2]).
  repeat split.
  - exists (a1 ++ a2). now rewrite A2, A1, app_assoc.
  - exists (b1 ++ b2). now rewrite B2, B1, app_assoc.
  - exists (c1 ++ c2). now rewrite C2, C1, app_assoc.
Qed.

Lemma appends_emit (str : string) (s : Annotator) : appends s (emit str s).
Proof.
  unfold appends, emit. destruct (output s); simpl; repeat split;
    first [ exists [str]; reflexivity | exists []; now rewrite app_nil_r ].
Qed.

Lemma appends_error (start : nat) (m : string) (s : Annotator) :
  appends s (error start m s).
Proof.
  unfold appends, error; simpl; repeat split;
    first [ exists [mkDiagnostic start m]; reflexivity | exists []; now rewrite app_nil_r ].
Qed.

Lemma appends_markEmitted (k : string) (s : Annotator) : appends s (markEmitted k s).
Proof. unfold appends; simpl; repeat split; exists []; now rewrite app_nil_r. Qed.

Lemma appends_setOutput (o : Sink) (s : Annotator) : appends s (setOutput o s).
Proof. unfold appends; simpl; repeat split; exists []; now rewrite app_nil_r. Qed.

Lemma appends_logSkeleton (k : string) (s : Annotator) : appends s (logSkeleton k s).
Proof. unfold appends; simpl; repeat split; exists []; now rewrite app_nil_r. Qed.

Lemma appends_fold {A} (f : Annotator -> A -> Annotator) (l : list A) :
  (forall s a, appends s (f s a)) -> forall s, appends s (fold_left f l s).
Proof.
  intros Hf. induction l as [|a l IH]; intros s; simpl.
  - apply appends_refl.
  - eapply appends_trans; [apply Hf | apply IH].
Qed.

Ltac appends_chain :=
  repeat first
    [ apply appends_refl
    | apply appends_emit
    | apply appends_error
    | eapply appends_trans; [| first [apply appends_emit | apply appends_error
                                      | apply appends_markEmitted
                                      | apply appends_setOutput
                                      | apply appends_logSkeleton]] ].

Section ExternsAppend.

Variable fileText : string.
Variable untyped : bool.
Variable translate : Ty -> bool -> string.
Variable getLeadingCommentRanges : string -> list (nat * nat).
Variable closureExternsBlacklist : list string.

Local Abbreviation visitExterns' :=
  (visitExterns fileText untyped translate getLeadingCommentRanges closureExternsBlacklist).

Lemma appends_getJSDoc (node : Range) (s : Annotator) :
  appends s (snd (getJSDoc fileText getLeadingCommentRanges node s)).
Proof.
  unfold getJSDoc.
  destruct (last _ None) as [[pos end_]|]; simpl; [|apply appends_refl].
  destruct (getJSDocAnnotation _); simpl;
    first [apply appends_refl | apply appends_error].
Qed.

Lemma appends_emitFunctionType (f : FunctionLike) (extra : list JSDocTag) (s : Annotator) :
  appends s (emitFunctionType fileText untyped translate getLeadingCommentRanges f extra s).
Proof.
  unfold emitFunctionType.
  pose proof (appends_getJSDoc (range (fnInfo f)) s) as H.
  destruct (getJSDoc _ _ _ s) as [doc s1]; simpl in H.
  eapply appends_trans; [exact H|].
  eapply appends_trans; [|apply appends_emit].
  eapply appends_trans; [apply appends_emit|].
  unfold emits. apply appends_fold. intros; apply appends_emit.
Qed.

Lemma appends_emitJSDocType (ty : Ty) (s : Annotator) :
  appends s (emitJSDocType untyped translate ty s).
Proof. unfold emitJSDocType. appends_chain. Qed.

Lemma appends_writeExternsFunction (name params : string) (ns : list string) (s : Annotator) :
  appends s (writeExternsFunction name params ns s).
Proof. unfold writeExternsFunction. destruct (0 <? length ns); apply appends_emit. Qed.

Lemma appends_writeExternsMember (typeName : string) (ns : list string) (m : Member)
    (s : Annotator) :
  appends s (writeExternsMember fileText untyped translate getLeadingCommentRanges
                                typeName ns m s).
Proof.
  unfold writeExternsMember. destruct (memberKind m) as [n|f|c|k n].
  - eapply appends_trans; [apply appends_emitJSDocType | apply appends_emit].
  - eapply appends_trans; [apply appends_emitFunctionType | apply appends_emit].
  - apply appends_refl.
  - apply appends_emit.
Qed.

Lemma appends_writeExternsType (isClass : bool) (decl : TypeDecl) (ns : list string)
    (s : Annotator) :
  appends s (writeExternsType fileText untyped translate getLeadingCommentRanges
                              closureExternsBlacklist isClass decl ns s).
Proof.
  unfold writeExternsType.
  destruct (includes _ closureExternsBlacklist); [apply appends_markEmitted|].
  set (s1 := markEmitted _ (markEmitted _ s)).
  assert (H1 : appends s s1).
  { eapply appends_trans; apply appends_markEmitted. }
  match goal with
  | |- appends s (let '(p, s0) := ?X in _) =>
      assert (H2 : appends s (snd X)); [|destruct X as [p s2]; simpl in H2]
  end.
  { destruct isClass.
    - destruct (constructorsOf (members decl)) as [|ctor more]; simpl.
      + eapply appends_trans; [exact H1 | apply appends_emit].
      + eapply appends_trans; [|apply appends_emitFunctionType].
        destruct more; [exact H1|].
        eapply appends_trans; [exact H1 | apply appends_error].
    - simpl. eapply appends_trans; [exact H1 | apply appends_emit]. }
  eapply appends_trans; [exact H2|].
  eapply appends_trans; [apply appends_writeExternsFunction|].
  apply appends_fold. intros. apply appends_writeExternsMember.
Qed.

Lemma appends_writeExternsVariable (decl : VariableDeclaration) (ns : list string)
    (s : Annotator) :
  appends s (writeExternsVariable untyped translate closureExternsBlacklist decl ns s).
Proof.
  unfold writeExternsVariable, errorUnimplementedKind.
  destruct (isIdentifier _); [|apply appends_error].
  destruct (includes _ _); [apply appends_refl|].
  destruct (0 <? length ns);
    (eapply appends_trans; [apply appends_emitJSDocType | apply appends_emit]).
Qed.

Lemma appends_writeExternsEnum (decl : EnumDecl) (ns : list string) (s : Annotator) :
  appends s (writeExternsEnum decl ns s).
Proof.
  unfold writeExternsEnum.
  eapply appends_trans; [|apply appends_fold; intros; appends_chain].
  appends_chain.
Qed.

Lemma appends_swap (s y : Annotator) :
  appends (setOutput ExternsOutput s) y -> appends s (setOutput (output s) y).
Proof. intros H. exact H. Qed.

(** X9.  Whatever it visits, the externs walk only appends: what the main
    buffer, the externs buffer and the list of diagnostics held before the
    walk is still there, in place, after it, and the main buffer has not
    grown. *)
Theorem externs_walk_only_appends (node : Node) :
  forall ns s,
    (exists more, externsOutput (visitExterns' node ns s) = externsOutput s ++ more)
    /\ (exists more, diagnostics (visitExterns' node ns s) = diagnostics s ++ more)
    /\ mainOutput (visitExterns' node ns s) = mainOutput s.
Proof.
  assert (A : forall node ns s, appends s (visitExterns' node ns s)).
  { clear node. intros node.
    induction node using Node_induction; intros ns s;
      [ | rewrite visitExterns_block | | | | | | ]; try simpl; apply appends_swap.
    - destruct (nameKind name);
        try (first [apply appends_refl | apply appends_error]).
      eapply appends_trans; [|apply IHnode].
      eapply appends_trans; [|apply appends_markEmitted].
      destruct (JsObject.hasOwnProperty _ _); [apply appends_refl|].
      unfold emitNamespaceSkeleton.
      eapply appends_trans; [|apply appends_logSkeleton].
      eapply appends_trans; [apply appends_emit|].
      destruct (1 <? length _); apply appends_emit.
    - generalize (setOutput ExternsOutput s).
      induction H as [|n r Hn Hr IH]; intros x; simpl.
      + apply appends_refl.
      + eapply appends_trans; [apply Hn | apply IH].
    - apply appends_writeExternsType.
    - apply appends_writeExternsType.
    - eapply appends_trans;
        [apply appends_emitFunctionType | apply appends_writeExternsFunction].
    - apply appends_fold. intros. apply appends_writeExternsVariable.
    - apply appends_writeExternsEnum.
    - apply appends_emit. }
  intros ns s. destruct (A node ns s) as (_ & E & D).
  destruct (visitExterns_untouched fileText untyped translate getLeadingCommentRanges
              closureExternsBlacklist node ns s) as (_ & M & _).
  auto.
Qed.

(** X10.  A class or interface whose qualified name is on the blacklist
    gets no externs, but its name is recorded as emitted: an ambient
    namespace of the same name that follows it gets no skeleton either, so
    the two together leave the externs as they were. *)
Theorem blacklisted_type_hides_namespace
    (isClass : bool) (info info' info'' : NodeInfo) (decl : TypeDecl) (name : Name)
    (ns : list string) (s : Annotator) :
  nameKind name = Identifier ->
  getIdentifierText name = nameGetText (declName decl) ->
  includes (Js.join "." (ns ++ [nameGetText (declName decl)]))
           closureExternsBlacklist = true ->
  JsObject.plainKey (Js.join "." (ns ++ [nameGetText (declName decl)])) = true ->
  let typeNode := if isClass then ClassDeclaration info decl
                  else InterfaceDeclaration info decl in
  let s1 := visitExterns' typeNode ns s in
  let s2 := visitExterns' (ModuleDeclaration info' name (ModuleBlock info'' [])) ns s1 in
  externsOutput s1 = externsOutput s
  /\ JsObject.hasOwnProperty (Js.join "." (ns ++ [nameGetText (declName decl)]))
                             (emittedNamespaces s1) = true
  /\ externsOutput s2 = externsOutput s
  /\ skeletonLog s2 = skeletonLog s.
Proof.
  intros Hk Hname Hbl Hplain typeNode s1 s2.
  assert (E1 : s1 = setOutput (output s)
                      (markEmitted (Js.join "." (ns ++ [nameGetText (declName decl)]))
                                   (setOutput ExternsOutput s))).
  { unfold s1, typeNode. destruct isClass; simpl; unfold writeExternsType;
      rewrite Hbl; reflexivity. }
  assert (H1 : JsObject.hasOwnProperty (Js.join "." (ns ++ [nameGetText (declName decl)]))
                 (emittedNamespaces s1) = true).
  { rewrite E1. simpl. apply hasOwnProperty_set_same. exact Hplain. }
  split; [rewrite E1; reflexivity|]. split; [exact H1|].
  unfold s2. simpl. rewrite Hk, Hname. simpl. rewrite H1. simpl.
  rewrite E1. simpl. auto.
Qed.

End ExternsAppend.

(** ** Untyped mode *)

(** X11.  In untyped mode the type translator is never consulted: the
    externs walk, the annotation block of a callable and the declaration of
    a property come out the same whatever the translator is. *)
Theorem untyped_ignores_translator
    (fileText : string) (t1 t2 : Ty -> bool -> string)
    (getLeadingCommentRanges : string -> list (nat * nat))
    (escapeForComment : string -> string) (blacklist : list string) :
  (forall node ns s,
      visitExterns fileText true t1 getLeadingCommentRanges blacklist node ns s
      = visitExterns fileText true t2 getLeadingCommentRanges blacklist node ns s)
  /\ (forall f extra s,
         emitFunctionType fileText true t1 getLeadingCommentRanges f extra s
         = emitFunctionType fileText true t2 getLeadingCommentRanges f extra s)
  /\ (forall ns p s,
         visitProperty fileText true t1 getLeadingCommentRanges escapeForComment ns p s
         = visitProperty fileText true t2 getLeadingCommentRanges escapeForComment ns p s).
Proof. repeat split. Qed.

(** ** The type-annotations helper *)

Lemma emitsChunks_refl (s : Annotator) : emitsChunks s s [].
Proof. unfold emitsChunks. now rewrite app_nil_r. Qed.

Lemma emitsChunks_trans (s1 s2 s3 : Annotator) (a b : list string) :
  emitsChunks s1 s2 a -> emitsChunks s2 s3 b -> emitsChunks s1 s3 (a ++ b).
Proof.
  unfold emitsChunks. intros [B1 O1] [B2 O2]. split; [|congruence].
  rewrite B2, B1, app_assoc. reflexivity.
Qed.

Lemma emitsChunks_emit (str : string) (s : Annotator) : emitsChunks s (emit str s) [str].
Proof.
  unfold emitsChunks, currentBuffer, emit. destruct (output s) eqn:E; simpl; auto.
Qed.

Section HelperChunks.

Variable fileText : string.
Variable untyped : bool.
Variable translate : Ty -> bool -> string.
Variable getLeadingCommentRanges : string -> list (nat * nat).
Variable escapeForComment : string -> string.

Local Abbreviation visitProperty' :=
  (visitProperty fileText untyped translate getLeadingCommentRanges escapeForComment).
Local Abbreviation visitProperties' :=
  (visitProperties fileText untyped translate getLeadingCommentRanges escapeForComment).
Local Abbreviation emitTypeAnnotationsHelper' :=
  (emitTypeAnnotationsHelper fileText untyped translate getLeadingCommentRanges
                             escapeForComment).
Local Abbreviation propertyChunks' :=
  (propertyChunks fileText untyped translate getLeadingCommentRanges escapeForComment).

Lemma getJSDoc_docTags (node : Range) (s : Annotator) :
  orEmpty (fst (getJSDoc fileText getLeadingCommentRanges node s))
  = docTags fileText getLeadingCommentRanges node
  /\ emitsChunks s (snd (getJSDoc fileText getLeadingCommentRanges node s)) [].
Proof.
  unfold getJSDoc, docTags. destruct (last _ None) as [[pos end_]|];
    [|split; [reflexivity | apply emitsChunks_refl]].
  destruct (getJSDocAnnotation _); simpl;
    (split; [reflexivity|]); try apply emitsChunks_refl.
  unfold emitsChunks, currentBuffer, error; simpl. now rewrite app_nil_r.
Qed.

Lemma visitProperty_chunks (ns : list string) (p : Member) (s : Annotator) :
  emitsChunks s (visitProperty' ns p s) (propertyChunks' ns p).
Proof.
  unfold visitProperty, propertyChunks, present, valueOf.
  destruct (propertyName p) as [name|]; [destruct (Js.truthy name)|];
    try apply emitsChunks_emit.
  destruct (getJSDoc_docTags (range (memberInfo p)) s) as (D & G).
  destruct (getJSDoc _ _ _ s) as [doc s1]. simpl in D, G. rewrite D.
  apply (emitsChunks_trans s s1 _ [] _ G).
  apply (emitsChunks_trans _ _ _ [" /**"] _ (emitsChunks_emit _ _)).
  destruct (Js.truthy (existingAnnotation _)).
  - apply (emitsChunks_trans _ _ _ [_] _ (emitsChunks_emit _ _)).
    apply (emitsChunks_trans _ _ _ [_] [_] (emitsChunks_emit _ _)).
    apply emitsChunks_emit.
  - apply (emitsChunks_trans _ _ _ [_] [_] (emitsChunks_emit _ _)).
    apply emitsChunks_emit.
Qed.

Lemma visitProperties_chunks (ns : list string) (ps : list Member) :
  forall s, emitsChunks s (visitProperties' ns ps s) (flat_map (propertyChunks' ns) ps).
Proof.
  unfold visitProperties. induction ps as [|p ps IH]; intros s; simpl.
  - apply emitsChunks_refl.
  - eapply emitsChunks_trans; [apply visitProperty_chunks | apply IH].
Qed.


End HelperChunks.

(** ** [export * from ...] *)

Lemma localSetOf_spec (locals : list LocalSymbol) (n : string) :
  (JsObject.hasOwnProperty n (localSetOf locals) = true -> In n (localExports locals))
  /\ (JsObject.plainKey n = true -> In n (localExports locals) ->
      JsObject.hasOwnProperty n (localSetOf locals) = true).
Proof.
  unfold localSetOf, localExports.
  assert (G : forall acc,
             (JsObject.hasOwnProperty n
                (fold_left (fun localSet local =>
                              if hasImportSpecifier local then localSet
                              else JsObject.set (localName local) true localSet)
                           locals acc) = true ->
              JsObject.hasOwnProperty n acc = true
              \/ In n (map localName (filter (fun l => negb (hasImportSpecifier l)) locals)))
             /\ (JsObject.plainKey n = true ->
                 JsObject.hasOwnProperty n acc = true
                 \/ In n (map localName (filter (fun l => negb (hasImportSpecifier l)) locals)) ->
                 JsObject.hasOwnProperty n
                   (fold_left (fun localSet local =>
                                 if hasImportSpecifier local then localSet
                                 else JsObject.set (localName local) true localSet)
                              locals acc) = true)).
  { induction locals as [|l locals IH]; intros acc; simpl.
    - split; [auto | intros _ [H | []]; exact H].
    - destruct (IH (if hasImportSpecifier l then acc
                    else JsObject.set (localName l) true acc)) as [I1 I2].
      destruct (hasImportSpecifier l); simpl.
      + split; [exact I1 | exact I2].
      + split.
        * intros H. destruct (I1 H) as [H1 | H1]; [|auto].
          destruct (string_dec (localName l) n) as [->|Hne]; [auto|].
          left. unfold JsObject.set in H1.
          destruct (String.eqb (localName l) "__proto__"); [exact H1|].
          rewrite hasOwnProperty_keys, keys_put in H1.
          destruct (JsObject.hasOwnProperty (localName l) acc).
          -- apply hasOwnProperty_keys. exact H1.
          -- apply in_app_or in H1. destruct H1 as [H1 | [H1 | []]];
               [apply hasOwnProperty_keys; exact H1 | congruence].
        * intros Hplain H. apply (I2 Hplain).
          destruct H as [H | [H | H]].
          -- left. apply hasOwnProperty_set_mono. exact H.
          -- left. rewrite H. apply hasOwnProperty_set_same. exact Hplain.
          -- right. exact H. }
  destruct (G JsObject.empty) as [G1 G2]. split.
  - intros H. destruct (G1 H) as [H1 | H1]; [discriminate | exact H1].
  - intros Hplain H. apply (G2 Hplain). right. exact H.
Qed.

(** What the loop over the exports keeps true of [generatedExports] and
    [reexports]. *)
Lemma reexport_loop (localSet gen0 : JsObject.t bool) (exports : list string) :
  forallb JsObject.plainKey exports = true ->
  forall gen re,
    NoDup (JsObject.keys re) ->
    (forall n, In n (JsObject.keys re) -> JsObject.hasOwnProperty n gen = true) ->
    let '(gen', re') := fold_left (reexportStep localSet) exports (gen, re) in
    NoDup (JsObject.keys re')
    /\ (forall n, In n (JsObject.keys re') <->
                  In n (JsObject.keys re)
                  \/ (In n exports /\ JsObject.hasOwnProperty n localSet = false
                      /\ JsObject.hasOwnProperty n gen = false))
    /\ (forall n, JsObject.hasOwnProperty n gen' = true <->
                  JsObject.hasOwnProperty n gen = true \/ In n (JsObject.keys re')).
Proof.
  induction exports as [|x exports IH]; intros Hplain gen re Hnd Hsub; simpl.
  - split; [exact Hnd|]. split; intros n; [tauto|]. split; [auto|].
    intros [H | H]; auto.
  - simpl in Hplain. apply andb_true_iff in Hplain. destruct Hplain as [Hx Hrest].
    destruct (JsObject.hasOwnProperty x localSet) eqn:L;
      [|destruct (JsObject.hasOwnProperty x gen) eqn:G].
    + specialize (IH Hrest gen re Hnd Hsub).
      destruct (fold_left _ exports (gen, re)) as [gen' re'].
      destruct IH as (I1 & I2 & I3). split; [exact I1|]. split; [|exact I3].
      intros n. rewrite I2. split; [tauto|].
      intros [H | ([<- | H] & H1 & H2)]; [auto | congruence | auto].
    + specialize (IH Hrest gen re Hnd Hsub).
      destruct (fold_left _ exports (gen, re)) as [gen' re'].
      destruct IH as (I1 & I2 & I3). split; [exact I1|]. split; [|exact I3].
      intros n. rewrite I2. split; [tauto|].
      intros [H | ([<- | H] & H1 & H2)]; [auto | congruence | auto].
    + assert (Hfresh : ~ In x (JsObject.keys re)).
      { intros H. apply Hsub in H. congruence. }
      assert (Hkeys : JsObject.keys (JsObject.set x true re) = JsObject.keys re ++ [x]).
      { rewrite keys_set by exact Hx.
        destruct (includes x (JsObject.keys re)) eqn:E; [|reflexivity].
        apply includes_In in E. tauto. }
      assert (Hgen : forall n, JsObject.hasOwnProperty n (JsObject.set x true gen) = true
                               <-> JsObject.hasOwnProperty n gen = true \/ n = x).
      { intros n. rewrite !hasOwnProperty_keys, keys_set by exact Hx.
        destruct (includes x (JsObject.keys gen)) eqn:E.
        - apply includes_In in E. split; [auto | intros [H | ->]; auto].
        - rewrite in_app_iff. simpl. intuition congruence. }
      specialize (IH Hrest (JsObject.set x true gen) (JsObject.set x true re)).
      destruct (fold_left _ exports _) as [gen' re'].
      destruct IH as (I1 & I2 & I3).
      * rewrite Hkeys. apply NoDup_app; [exact Hnd | repeat constructor; simpl; tauto|].
        intros n Hn [<- | []]. tauto.
      * intros n. rewrite Hkeys, in_app_iff, Hgen. simpl.
        intros [H | [<- | []]]; auto.
      * split; [exact I1|]. split.
        -- intros n. rewrite I2, Hkeys, in_app_iff. simpl. split.
           ++ intros [[H | [<- | []]] | (H1 & H2 & H3)]; auto.
              right. split; [auto|]. split; [exact H2|].
              destruct (JsObject.hasOwnProperty n gen) eqn:E; [|reflexivity].
              rewrite (proj2 (Hgen n) (or_introl E)) in H3. discriminate.
           ++ intros [H | ([<- | H1] & H2 & H3)]; auto.
              destruct (string_dec n x) as [->|Hne]; [auto|].
              right. split; [exact H1|]. split; [exact H2|].
              destruct (JsObject.hasOwnProperty n (JsObject.set x true gen)) eqn:E;
                [|reflexivity].
              apply Hgen in E. destruct E; congruence.
        -- intros n. rewrite I3, Hgen. rewrite I2, Hkeys, in_app_iff. simpl.
           intuition auto.
Qed.


(** ** How the module-rewrite pass reads a statement *)

Section ReadingTheorems.

Import PostProcessor Requires Imports.

Variable fileName : string.
Variable fileText : string.
Variable pathToModuleName : string -> string -> string.

Local Abbreviation writeRange' := (writeRange fileText).
Local Abbreviation resolve' := (resolve fileName pathToModuleName).
Local Abbreviation rewriteRequire' := (rewriteRequire fileName fileText pathToModuleName).
Local Abbreviation rewritten' := (rewritten fileName fileText pathToModuleName).
Local Abbreviation emitRewrittenRequires' :=
  (emitRewrittenRequires fileName fileText pathToModuleName).
Local Abbreviation visitTopLevel' := (visitTopLevel fileName fileText pathToModuleName).
Local Abbreviation processStatements' :=
  (processStatements fileName fileText pathToModuleName).
Local Abbreviation process' := (process fileName fileText pathToModuleName).
Local Abbreviation referencedModule' := (referencedModule fileName pathToModuleName).
Local Abbreviation exportedModule' := (exportedModule fileName pathToModuleName).
Local Abbreviation requiredModule' := (requiredModule fileName pathToModuleName).
Local Abbreviation referencedModulesOf' := (referencedModulesOf fileName pathToModuleName).
Local Abbreviation stateAt' := (stateAt fileName fileText pathToModuleName).
Local Abbreviation startState' := (startState fileName pathToModuleName).

Lemma rewriteRequire_read (r : Range) (vn : option string) (call : JsNode) (R : string)
    (s : State) :
  truthyRequire (isRequire call) = Some R ->
  rewriteRequire' r vn call s = (true, rewritten' r vn R s).
Proof.
  intros H. unfold rewriteRequire, rewritten, resolve, unusedName. rewrite H.
  destruct vn as [X|]; destruct (String.prefix "goog:" R); simpl;
    rewrite moduleVariables_writeRange; simpl;
    match goal with
    | |- context [JsObject.hasOwnProperty ?m ?mv] => destruct (JsObject.hasOwnProperty m mv)
    end; reflexivity.
Qed.

Lemma rewriteRequire_unread (r : Range) (vn : option string) (call : JsNode) (s : State) :
  truthyRequire (isRequire call) = None -> rewriteRequire' r vn call s = (false, s).
Proof. intros H. unfold rewriteRequire. rewrite H. reflexivity. Qed.

(** [emitRewrittenRequires] in terms of the reading of the statement. *)
Lemma emitRewrittenRequires_read (stmt : Statement) (s : State) :
  emitRewrittenRequires' stmt s
  = let r := statementRange stmt in
    match readStatement stmt with
    | NotARequire => (false, s)
    | ExportOf R =>
        let m := pathToModuleName fileName R in
        (true, setModuleVariable m "*"
                 (emit (Js.cat ["__export(goog.require('"; m; "'));"])
                       (writeRange' (getFullStart r) (getStart r) s)))
    | RequireOf vn R => (true, rewritten' r vn R s)
    end.
Proof.
  destruct stmt as [r e|r ds|r cs]; simpl; [| |reflexivity].
  - destruct (isKind (kind e) CallExpression); simpl; [|reflexivity].
    destruct (truthyRequire (isExportRequire e)) as [R|]; [reflexivity|].
    destruct (truthyRequire (isRequire e)) as [R|] eqn:E.
    + apply rewriteRequire_read. exact E.
    + apply rewriteRequire_unread. exact E.
  - destruct ds as [|d [|d' ds]]; try reflexivity.
    destruct (isKind (kind (name d)) Identifier); simpl; [|reflexivity].
    destruct (initializer d) as [call|]; [|reflexivity].
    destruct (isKind (kind call) CallExpression); simpl; [|reflexivity].
    destruct (truthyRequire (isRequire call)) as [R|] eqn:E.
    + apply rewriteRequire_read. exact E.
    + apply rewriteRequire_unread. exact E.
Qed.

Lemma useStrict_not_a_require (stmt : Statement) :
  isUseStrict stmt = true -> readStatement stmt = NotARequire.
Proof.
  intros H. apply isUseStrict_shape in H. destruct H as (r & e & -> & K & _).
  unfold readStatement. rewrite K. reflexivity.
Qed.

(** [visitTopLevel] in terms of the reading of the statement. *)
Lemma visitTopLevel_read (stmt : Statement) (s : State) :
  visitTopLevel' stmt s
  = if negb (strippedStrict s) && isUseStrict stmt then
      setStrippedStrict
        (writeRange' (getFullStart (statementRange stmt))
                     (getStart (statementRange stmt)) s)
    else if fst (emitRewrittenRequires' stmt s)
         then snd (emitRewrittenRequires' stmt s)
         else visitStatement fileText stmt s.
Proof.
  destruct stmt as [r e|r ds|r cs].
  - unfold visitTopLevel.
    destruct (negb (strippedStrict s) && isUseStrict (ExpressionStatement r e));
      [reflexivity|].
    rewrite emitRewrittenRequires_read.
    destruct (readStatement (ExpressionStatement r e)); reflexivity.
  - unfold visitTopLevel. simpl isUseStrict. rewrite andb_false_r.
    rewrite emitRewrittenRequires_read.
    destruct (readStatement (VariableStatement r ds)); reflexivity.
  - unfold visitTopLevel. simpl isUseStrict. rewrite andb_false_r. reflexivity.
Qed.

(** ** The list of referenced modules *)

Lemma keys_set_cases {V} (k : string) (v : V) (o : JsObject.t V) :
  (JsObject.keys (JsObject.set k v o) = JsObject.keys o
   \/ (~ In k (JsObject.keys o)
       /\ JsObject.keys (JsObject.set k v o) = JsObject.keys o ++ [k]))
  /\ (JsObject.plainKey k = true -> In k (JsObject.keys (JsObject.set k v o))).
Proof.
  split.
  - unfold JsObject.set. destruct (String.eqb k "__proto__"); [auto|].
    rewrite keys_put. destruct (JsObject.hasOwnProperty k o) eqn:E; [auto|].
    right. split; [|reflexivity]. rewrite <- hasOwnProperty_keys. congruence.
  - intros H. apply hasOwnProperty_keys. apply hasOwnProperty_set_same. exact H.
Qed.

Lemma visitTopLevel_keys_any (stmt : Statement) (s : State) :
  let K := JsObject.keys (moduleVariables s) in
  let K' := JsObject.keys (moduleVariables (visitTopLevel' stmt s)) in
  (K' = K \/ exists m, referencedModule' stmt = Some m /\ ~ In m K /\ K' = K ++ [m])
  /\ (forall m, referencedModule' stmt = Some m -> JsObject.plainKey m = true -> In m K').
Proof.
  simpl. pose proof (visitTopLevel_moduleVariables fileName fileText pathToModuleName stmt s)
    as H. simpl in H.
  unfold referencedModule. destruct (exportedModule' stmt) as [m|].
  - rewrite H. destruct (keys_set_cases m "*" (moduleVariables s)) as [[E | [N E]] P].
    + split; [left; exact E | intros m' [= <-]; exact P].
    + split; [right; exists m; auto | intros m' [= <-]; exact P].
  - destruct (requiredModule' stmt) as [m|].
    + destruct (JsObject.hasOwnProperty m (moduleVariables s)) eqn:Hhas.
      * rewrite H. split; [left; reflexivity|].
        intros m' [= <-] _. apply hasOwnProperty_keys. exact Hhas.
      * destruct H as [X ->].
        destruct (keys_set_cases m X (moduleVariables s)) as [[E | [N E]] P].
        -- split; [left; exact E | intros m' [= <-]; exact P].
        -- split; [right; exists m; auto | intros m' [= <-]; exact P].
    + rewrite H. split; [left; reflexivity | discriminate].
Qed.

Lemma processStatements_keys_any (stmts : list Statement) :
  forall pos s,
    let K := JsObject.keys (moduleVariables s) in
    let K' := JsObject.keys (moduleVariables (snd (processStatements' stmts pos s))) in
    (NoDup K -> NoDup K')
    /\ (forall m, In m K' -> In m K \/ In m (referencedModulesOf' stmts))
    /\ (forall m, JsObject.plainKey m = true ->
                  In m K \/ In m (referencedModulesOf' stmts) -> In m K').
Proof.
  induction stmts as [|x stmts IH]; intros pos s; simpl.
  - split; [auto|]. split; [auto | intros m _ [H | []]; exact H].
  - set (s1 := visitTopLevel' x (writeRange' pos (getFullStart (statementRange x)) s)).
    destruct (IH (getEnd (statementRange x)) s1) as (I1 & I2 & I3).
    pose proof (visitTopLevel_keys_any x
                  (writeRange' pos (getFullStart (statementRange x)) s)) as K.
    simpl in K. rewrite moduleVariables_writeRange in K. fold s1 in K.
    destruct K as [K1 K2].
    change (referencedModulesOf' (x :: stmts))
      with (match referencedModule' x with Some m => [m] | None => [] end
            ++ referencedModulesOf' stmts).
    split; [|split].
    + intros Hnd. apply I1. destruct K1 as [-> | (m & _ & N & ->)]; [exact Hnd|].
      apply NoDup_app; [exact Hnd | repeat constructor; simpl; tauto|].
      intros y Hy [<- | []]. tauto.
    + intros m Hm. destruct (I2 m Hm) as [H | H].
      * destruct K1 as [E | (m' & R & _ & E)]; rewrite E in H; [auto|].
        apply in_app_or in H. destruct H as [H | [<- | []]]; [auto|].
        right. rewrite R. left. reflexivity.
      * right. apply in_or_app. right. exact H.
    + intros m Hp H. apply (I3 m Hp). destruct H as [H | H].
      * left. destruct K1 as [E | (m' & _ & _ & E)]; rewrite E; [exact H|].
        apply in_or_app. left. exact H.
      * apply in_app_or in H. destruct H as [H | H]; [|auto].
        left. destruct (referencedModule' x) as [m'|] eqn:R; [|destruct H].
        destruct H as [<- | []]. apply (K2 m' eq_refl Hp).
Qed.

(** X15.  [referencedModules] never lists a module twice; every module it
    lists is the module of a require or [__export] statement of the file;
    and every such module, if its identifier is a plain key, is listed. *)
Theorem referenced_modules_are_exact (stmts : list Statement) :
  NoDup (snd (process' stmts))
  /\ (forall m, In m (snd (process' stmts)) -> In m (referencedModulesOf' stmts))
  /\ (forall m, JsObject.plainKey m = true ->
                In m (referencedModulesOf' stmts) -> In m (snd (process' stmts))).
Proof.
  unfold process. fold startState'.
  pose proof (processStatements_keys_any stmts 0 startState') as H. simpl in H.
  destruct (processStatements' stmts 0 startState') as [pos s]. simpl in *.
  rewrite moduleVariables_writeRange.
  destruct H as (H1 & H2 & H3). split; [|split].
  - apply H1. constructor.
  - intros m Hm. destruct (H2 m Hm) as [[] | H]. exact H.
  - intros m Hp Hm. apply (H3 m Hp). right. exact Hm.
Qed.

End ReadingTheorems.

(** ** Namespace imports and made-up names *)

Section ImportsTheorems.

Import PostProcessor Requires Imports.

Variable fileName : string.
Variable fileText : string.
Variable pathToModuleName : string -> string -> string.

Local Abbreviation writeRange' := (writeRange fileText).
Local Abbreviation resolve' := (resolve fileName pathToModuleName).
Local Abbreviation rewritten' := (rewritten fileName fileText pathToModuleName).
Local Abbreviation visitTopLevel' := (visitTopLevel fileName fileText pathToModuleName).
Local Abbreviation processStatements' :=
  (processStatements fileName fileText pathToModuleName).
Local Abbreviation process' := (process fileName fileText pathToModuleName).
Local Abbreviation stateAt' := (stateAt fileName fileText pathToModuleName).
Local Abbreviation startState' := (startState fileName pathToModuleName).

(** The four things [visitTopLevel] can do with a statement. *)
Lemma visitTopLevel_cases (stmt : Statement) (s : State) :
  let r := statementRange stmt in
  (readStatement stmt = NotARequire
   /\ (visitTopLevel' stmt s
       = setStrippedStrict (writeRange' (getFullStart r) (getStart r) s)
       \/ visitTopLevel' stmt s = visitStatement fileText stmt s))
  \/ (exists R, readStatement stmt = ExportOf R
                /\ visitTopLevel' stmt s
                   = setModuleVariable (pathToModuleName fileName R) "*"
                       (emit (Js.cat ["__export(goog.require('";
                                      pathToModuleName fileName R; "'));"])
                             (writeRange' (getFullStart r) (getStart r) s)))
  \/ (exists vn R, readStatement stmt = RequireOf vn R
                   /\ visitTopLevel' stmt s = rewritten' r vn R s).
Proof.
  simpl. rewrite visitTopLevel_read.
  destruct (negb (strippedStrict s) && isUseStrict stmt) eqn:U.
  - left. apply andb_true_iff in U. destruct U as [_ U].
    split; [apply useStrict_not_a_require; exact U | left; reflexivity].
  - rewrite emitRewrittenRequires_read.
    destruct (readStatement stmt) as [|R|vn R]; simpl.
    + left. split; [reflexivity | right; reflexivity].
    + right. left. exists R. split; reflexivity.
    + right. right. exists vn, R. split; reflexivity.
Qed.

Lemma namespaceImports_writeRange (a b : nat) (s : State) :
  namespaceImports (writeRange' a b s) = namespaceImports s.
Proof. unfold writeRange. destruct (Js.truthy _); reflexivity. Qed.

Lemma unusedIndex_writeRange (a b : nat) (s : State) :
  unusedIndex (writeRange' a b s) = unusedIndex s.
Proof. unfold writeRange. destruct (Js.truthy _); reflexivity. Qed.

Lemma namespaceImports_rewritten (r : Range) (vn : option string) (R : string) (s : State) :
  namespaceImports (rewritten' r vn R s)
  = if String.prefix "goog:" R
    then JsObject.set (match vn with
                       | Some X => X
                       | None => unusedName (unusedIndex s)
                       end) true (namespaceImports s)
    else namespaceImports s.
Proof.
  unfold rewritten.
  destruct (JsObject.hasOwnProperty _ _); simpl; rewrite namespaceImports_writeRange;
    destruct (String.prefix "goog:" R); destruct vn; reflexivity.
Qed.

Lemma unusedIndex_rewritten (r : Range) (vn : option string) (R : string) (s : State) :
  unusedIndex (rewritten' r vn R s)
  = match vn with Some _ => unusedIndex s | None => S (unusedIndex s) end.
Proof.
  unfold rewritten.
  destruct (JsObject.hasOwnProperty _ _); simpl; rewrite unusedIndex_writeRange;
    destruct (String.prefix "goog:" R); destruct vn; reflexivity.
Qed.

Lemma namespaceImports_bindings (s s' : State) :
  bindings s' = bindings s -> namespaceImports s' = namespaceImports s.
Proof. unfold bindings. intros H. now injection H. Qed.

Lemma unusedIndex_bindings (s s' : State) :
  bindings s' = bindings s -> unusedIndex s' = unusedIndex s.
Proof. unfold bindings. intros H. now injection H. Qed.

Lemma namespaceImports_visitTopLevel (stmt : Statement) (s : State) :
  (isNamespaceRequire stmt = false ->
   namespaceImports (visitTopLevel' stmt s) = namespaceImports s)
  /\ (forall X, JsObject.hasOwnProperty X (namespaceImports s) = true ->
                JsObject.hasOwnProperty X (namespaceImports (visitTopLevel' stmt s)) = true).
Proof.
  unfold isNamespaceRequire.
  destruct (visitTopLevel_cases stmt s)
    as [[Hr [-> | ->]] | [(R & Hr & ->) | (vn & R & Hr & ->)]]; rewrite Hr; simpl.
  - rewrite namespaceImports_writeRange. auto.
  - rewrite (namespaceImports_bindings _ _ (bindings_visitStatement fileText stmt s)). auto.
  - rewrite namespaceImports_writeRange. auto.
  - rewrite namespaceImports_rewritten. split.
    + intros ->. reflexivity.
    + intros X H. destruct (String.prefix "goog:" R); [|exact H].
      apply hasOwnProperty_set_mono. exact H.
Qed.

Lemma unusedIndex_visitTopLevel (stmt : Statement) (s : State) :
  unusedIndex (visitTopLevel' stmt s)
  = unusedIndex s + (if needsFreshName stmt then 1 else 0).
Proof.
  unfold needsFreshName.
  destruct (visitTopLevel_cases stmt s)
    as [[Hr [-> | ->]] | [(R & Hr & ->) | (vn & R & Hr & ->)]]; rewrite Hr; simpl.
  - rewrite unusedIndex_writeRange. lia.
  - rewrite (unusedIndex_bindings _ _ (bindings_visitStatement fileText stmt s)). lia.
  - rewrite unusedIndex_writeRange. lia.
  - rewrite unusedIndex_rewritten. destruct vn; lia.
Qed.

Lemma processStatements_namespaceImports (stmts : list Statement) :
  forall pos s,
    (forallb (fun stmt => negb (isNamespaceRequire stmt)) stmts = true ->
     namespaceImports (snd (processStatements' stmts pos s)) = namespaceImports s)
    /\ (forall X, JsObject.hasOwnProperty X (namespaceImports s) = true ->
                  JsObject.hasOwnProperty X
                    (namespaceImports (snd (processStatements' stmts pos s))) = true).
Proof.
  induction stmts as [|x stmts IH]; intros pos s; simpl; [auto|].
  set (s0 := writeRange' pos (getFullStart (statementRange x)) s).
  destruct (IH (getEnd (statementRange x)) (visitTopLevel' x s0)) as [I1 I2].
  destruct (namespaceImports_visitTopLevel x s0) as [V1 V2].
  assert (E0 : namespaceImports s0 = namespaceImports s)
    by apply namespaceImports_writeRange.
  split.
  - intros H. apply andb_true_iff in H. destruct H as [Hx Hrest].
    rewrite (I1 Hrest), V1, E0; [reflexivity|]. apply negb_true_iff. exact Hx.
  - intros X H. apply I2, V2. rewrite E0. exact H.
Qed.

Lemma processStatements_unusedIndex (stmts : list Statement) :
  forall pos s,
    unusedIndex (snd (processStatements' stmts pos s))
    = unusedIndex s + length (filter needsFreshName stmts).
Proof.
  induction stmts as [|x stmts IH]; intros pos s; simpl; [lia|].
  rewrite IH, unusedIndex_visitTopLevel, unusedIndex_writeRange.
  destruct (needsFreshName x); simpl; lia.
Qed.

Lemma stateAt_split (before after : list Statement) (stmt : Statement) (next : Range) :
  exists pos,
    stateAt' (before ++ stmt :: after) next
    = writeRange' pos (getFullStart next)
        (snd (processStatements' after (getEnd (statementRange stmt))
                (visitTopLevel' stmt (stateAt' before (statementRange stmt))))).
Proof.
  unfold stateAt. rewrite processStatements_app.
  destruct (processStatements' before 0 startState') as [p s]. simpl.
  destruct (processStatements' after _ _) as [p' s']. exists p'. reflexivity.
Qed.

Lemma prefix_namespace (N : string) : String.prefix "goog:" ("goog:" ++ N) = true.
Proof. simpl. destruct N; reflexivity. Qed.

Lemma resolve_namespace (N : string) : resolve' ("goog:" ++ N) = N.
Proof.
  unfold resolve, Js.substr. rewrite prefix_namespace.
  simpl. rewrite Nat.sub_0_r. apply substring_all.
Qed.


(** X17.  In a file none of whose requires names a [goog:] namespace, no
    variable is ever recorded as a namespace import, so the traversal
    rewrites no property access: every [.default] stays as written. *)
Theorem no_namespace_import_no_rewrite (stmts : list Statement) (next : Range) :
  forallb (fun stmt => negb (isNamespaceRequire stmt)) stmts = true ->
  namespaceImports (stateAt' stmts next) = JsObject.empty
  /\ forall node, maybeProcess fileText node (stateAt' stmts next) = None.
Proof.
  intros H.
  assert (E : namespaceImports (stateAt' stmts next) = JsObject.empty).
  { unfold stateAt.
    pose proof (proj1 (processStatements_namespaceImports stmts 0 startState') H) as K.
    destruct (processStatements' stmts 0 startState') as [pos s]. simpl in K.
    rewrite namespaceImports_writeRange. exact K. }
  split; [exact E|]. intros node. unfold maybeProcess. rewrite E.
  destruct (kind node); try reflexivity.
  destruct (children node) as [|e [|n [|x l]]]; try reflexivity.
  destruct (negb (String.eqb (nodeText n) "default")); [reflexivity|].
  destruct (negb (isKind (kind e) Identifier)); reflexivity.
Qed.

Lemma numberToString_inj (a b : Z) :
  Js.numberToString a = Js.numberToString b -> a = b.
Proof.
  unfold Js.numberToString. intros H.
  assert (P : forall z, NilZero.int_of_string (NilZero.string_of_int (Z.to_int z))
                        = Some (Z.to_int z)).
  { intros z. apply NilZero.isi; destruct z; simpl; try discriminate;
      intros [= E]; exact (DecimalPos.Unsigned.to_uint_nonnil _ E). }
  pose proof (P a) as Pa. rewrite H, P in Pa. injection Pa as Pa.
  rewrite <- (DecimalZ.of_to a), <- (DecimalZ.of_to b), Pa. reflexivity.
Qed.

Lemma append_cancel_r (a b c : string) :
  (a ++ c)%string = (b ++ c)%string -> a = b.
Proof.
  revert b. induction a as [|x a IH]; intros [|y b] H; simpl in *.
  - reflexivity.
  - exfalso. apply (f_equal String.length) in H. simpl in H.
    rewrite append_length in H. lia.
  - exfalso. apply (f_equal String.length) in H. simpl in H.
    rewrite append_length in H. lia.
  - injection H as -> H. f_equal. apply IH. exact H.
Qed.

Lemma unusedName_inj (i j : nat) : unusedName i = unusedName j -> i = j.
Proof.
  unfold unusedName, Js.cat. simpl. intros H. injection H as H.
  apply append_cancel_r in H. apply numberToString_inj in H. lia.
Qed.


(** ** The output only grows *)

Lemma outputGrows_refl (s : State) : outputGrows s s.
Proof. exists []. now rewrite app_nil_r. Qed.

Lemma outputGrows_trans (s1 s2 s3 : State) :
  outputGrows s1 s2 -> outputGrows s2 s3 -> outputGrows s1 s3.
Proof.
  intros [a A] [b B]. exists (a ++ b). now rewrite B, A, app_assoc.
Qed.

Lemma outputGrows_emit (str : string) (s : State) : outputGrows s (emit str s).
Proof. exists [str]. reflexivity. Qed.

Lemma outputGrows_writeRange (a b : nat) (s : State) :
  outputGrows s (writeRange' a b s).
Proof.
  unfold writeRange. destruct (Js.truthy _);
    [apply outputGrows_emit | apply outputGrows_refl].
Qed.

Lemma outputGrows_maybeProcess (node : JsNode) (s s' : State) :
  maybeProcess fileText node s = Some s' -> outputGrows s s'.
Proof.
  unfold maybeProcess.
  destruct (kind node); try discriminate.
  destruct (children node) as [|e [|n [|x l]]]; try discriminate.
  destruct (negb (String.eqb (nodeText n) "default")); [discriminate|].
  destruct (negb (isKind (kind e) Identifier)); [discriminate|].
  destruct (negb (JsObject.hasOwnProperty _ _)); [discriminate|].
  intros H. injection H as <-.
  eapply outputGrows_trans; [apply outputGrows_writeRange | apply outputGrows_emit].
Qed.

Lemma outputGrows_visit (node : JsNode) :
  forall s, outputGrows s (visit fileText node s).
Proof.
  induction node as [k r t cs IH] using JsNode_induction; intros s.
  simpl. change (match k with
                 | PropertyAccessExpression => _
                 | _ => None
                 end) with (maybeProcess fileText (mkNode k r t cs) s).
  destruct (maybeProcess fileText (mkNode k r t cs) s) as [s'|] eqn:E.
  - eapply outputGrows_maybeProcess. exact E.
  - clear E.
    match goal with
    | |- outputGrows s (let '(pos, s0) := ?F cs _ in _) =>
        assert (H : forall a, outputGrows (snd a) (snd (F cs a)))
    end.
    { induction IH as [|c rest Hc Hrest IHrest]; intros [pos x]; simpl;
        [apply outputGrows_refl|].
      eapply outputGrows_trans; [|apply IHrest]. simpl.
      eapply outputGrows_trans; [apply outputGrows_writeRange | apply Hc]. }
    match goal with
    | |- outputGrows s (let '(pos, s0) := ?X in _) =>
        specialize (H (getFullStart r, s)); destruct X as [pos x]
    end.
    simpl in H. eapply outputGrows_trans; [exact H | apply outputGrows_writeRange].
Qed.

Lemma outputGrows_visitStatement (stmt : Statement) (s : State) :
  outputGrows s (visitStatement fileText stmt s).
Proof.
  unfold visitStatement.
  match goal with
  | |- outputGrows s (let '(pos, s0) := fold_left ?f _ _ in _) =>
      assert (H : forall l a, outputGrows (snd a) (snd (fold_left f l a)))
  end.
  { induction l as [|c rest IH]; intros [pos x]; simpl; [apply outputGrows_refl|].
    eapply outputGrows_trans; [|apply IH]. simpl.
    eapply outputGrows_trans; [apply outputGrows_writeRange | apply outputGrows_visit]. }
  match goal with
  | |- outputGrows s (let '(pos, s0) := fold_left ?f ?cs ?a in _) =>
      specialize (H cs a); destruct (fold_left f cs a) as [pos x]
  end.
  simpl in H. eapply outputGrows_trans; [exact H | apply outputGrows_writeRange].
Qed.

Lemma outputGrows_rewritten (r : Range) (vn : option string) (R : string) (s : State) :
  outputGrows s (rewritten' r vn R s).
Proof.
  unfold rewritten.
  assert (W : forall x, output x = output s ->
                        outputGrows s (writeRange' (getFullStart r) (getStart r) x)).
  { intros x E. destruct (outputGrows_writeRange (getFullStart r) (getStart r) x) as [m M].
    exists m. rewrite M, E. reflexivity. }
  match goal with
  | |- context [writeRange' _ _ ?x] =>
      assert (E : output x = output s)
        by (destruct (String.prefix "goog:" R); destruct vn; reflexivity);
      destruct (W x E) as [m M]
  end.
  destruct (JsObject.hasOwnProperty _ _);
    eexists; simpl; rewrite M, <- app_assoc; reflexivity.
Qed.

Lemma outputGrows_visitTopLevel (stmt : Statement) (s : State) :
  outputGrows s (visitTopLevel' stmt s).
Proof.
  destruct (visitTopLevel_cases stmt s)
    as [[Hr [-> | ->]] | [(R & Hr & ->) | (vn & R & Hr & ->)]].
  - destruct (outputGrows_writeRange (getFullStart (statementRange stmt))
                (getStart (statementRange stmt)) s) as [m M].
    exists m. exact M.
  - apply outputGrows_visitStatement.
  - destruct (outputGrows_writeRange (getFullStart (statementRange stmt))
                (getStart (statementRange stmt)) s) as [m M].
    exists (m ++ [Js.cat ["__export(goog.require('"; pathToModuleName fileName R; "'));"]]).
    simpl. rewrite M, app_assoc. reflexivity.
  - apply outputGrows_rewritten.
Qed.

Lemma outputGrows_processStatements (stmts : list Statement) :
  forall pos s, outputGrows s (snd (processStatements' stmts pos s)).
Proof.
  induction stmts as [|x stmts IH]; intros pos s; simpl; [apply outputGrows_refl|].
  eapply outputGrows_trans; [|apply IH].
  eapply outputGrows_trans; [apply outputGrows_writeRange | apply outputGrows_visitTopLevel].
Qed.

Lemma cat_cons (h : string) (rest : list string) :
  Js.cat (h :: rest) = (h ++ Js.cat rest)%string.
Proof.
  unfold Js.cat. destruct rest as [|x rest]; simpl; [|reflexivity].
  induction h as [|c h IH]; simpl; [reflexivity | now rewrite <- IH].
Qed.

(** X19.  Whatever the statements of the file, the output of [process]
    opens with the [goog.module] call for the module name of the file, with
    nothing before it. *)
Theorem output_opens_with_module_call (stmts : list Statement) :
  exists rest,
    fst (process' stmts)
    = (Js.cat ["goog.module('"; pathToModuleName EmptyString fileName; "');"]
       ++ rest)%string.
Proof.
  unfold process. fold startState'.
  pose proof (outputGrows_processStatements stmts 0 startState') as G.
  destruct (processStatements' stmts 0 startState') as [pos s]. simpl in G.
  pose proof (outputGrows_writeRange pos (String.length fileText) s) as W.
  destruct (outputGrows_trans _ _ _ G W) as [more M].
  simpl. rewrite M. unfold startState. simpl output.
  exists (Js.cat more). apply cat_cons.
Qed.

End ImportsTheorems.

(** ** Escaped names *)

(** X20.  [unescapeName] undoes the escaping of the compiler, which puts an
    underscore in front of a name that begins with two: the name comes back
    as it was, and a name that does not begin with three underscores is
    left alone. *)
Theorem unescapeName_undoes_escaping (name : string) :
  (String.prefix "__" name = true -> unescapeName (String "_" name) = name)
  /\ (String.prefix "___" name = false -> unescapeName name = name).
Proof.
  split.
  - intros H. unfold unescapeName.
    replace (String.prefix "___" (String "_" name)) with true
      by (symmetry; simpl; exact H).
    unfold Js.substr. simpl. rewrite Nat.sub_0_r. apply substring_all.
  - intros H. unfold unescapeName. rewrite H. reflexivity.
Qed.

(** ** The shapes of the rewritten statements *)

Section ShapeTheorems.

Import PostProcessor Requires Imports Shapes.

Variable fileName : string.
Variable fileText : string.
Variable pathToModuleName : string -> string -> string.

Local Abbreviation writeRange' := (writeRange fileText).
Local Abbreviation resolve' := (resolve fileName pathToModuleName).
Local Abbreviation emitRewrittenRequires' :=
  (emitRewrittenRequires fileName fileText pathToModuleName).
Local Abbreviation visitTopLevel' := (visitTopLevel fileName fileText pathToModuleName).
Local Abbreviation process' := (process fileName fileText pathToModuleName).
Local Abbreviation processStatements' :=
  (processStatements fileName fileText pathToModuleName).
Local Abbreviation exportedModule' := (exportedModule fileName pathToModuleName).
Local Abbreviation referencedModule' := (referencedModule fileName pathToModuleName).
Local Abbreviation referencedModulesOf' := (referencedModulesOf fileName pathToModuleName).
Local Abbreviation stateAt' := (stateAt fileName fileText pathToModuleName).
Local Abbreviation startState' := (startState fileName pathToModuleName).

Lemma isKind_eq (k k' : SyntaxKind) : isKind k k' = true <-> k = k'.
Proof.
  destruct k, k'; split; intros H; try discriminate H; reflexivity.
Qed.

Lemma isRequire_shape (call : JsNode) (R : string) :
  isRequire call = Some R
  <-> exists callee arg,
        children call = [callee; arg]
        /\ kind callee = Identifier /\ nodeText callee = "require"
        /\ kind arg = StringLiteral /\ nodeText arg = R.
Proof.
  unfold isRequire. split.
  - destruct (children call) as [|callee [|arg [|more rest]]]; try discriminate.
    + destruct (negb (isKind (kind callee) Identifier)); [discriminate|].
      destruct (negb (String.eqb (nodeText callee) "require")); discriminate.
    + destruct (isKind (kind callee) Identifier) eqn:K1; simpl; [|discriminate].
      destruct (String.eqb (nodeText callee) "require") eqn:T; simpl; [|discriminate].
      destruct (isKind (kind arg) StringLiteral) eqn:K2; simpl; [|discriminate].
      intros [= <-]. exists callee, arg.
      apply isKind_eq in K1, K2. apply String.eqb_eq in T. auto.
    + destruct (negb (isKind (kind callee) Identifier)); [discriminate|].
      destruct (negb (String.eqb (nodeText callee) "require")); discriminate.
  - intros (callee & arg & -> & K1 & T & K2 & <-).
    rewrite K1, T, K2. reflexivity.
Qed.

Lemma isExportRequire_shape (call : JsNode) (R : string) :
  isExportRequire call = Some R
  <-> exists callee inner,
        children call = [callee; inner]
        /\ kind callee = Identifier /\ nodeText callee = "__export"
        /\ kind inner = CallExpression /\ isRequire inner = Some R.
Proof.
  unfold isExportRequire. split.
  - destruct (children call) as [|callee [|arg [|more rest]]]; try discriminate.
    + destruct (negb (isKind (kind callee) Identifier)); [discriminate|].
      destruct (negb (String.eqb (nodeText callee) "__export")); discriminate.
    + destruct (isKind (kind callee) Identifier) eqn:K1; simpl; [|discriminate].
      destruct (String.eqb (nodeText callee) "__export") eqn:T; simpl; [|discriminate].
      destruct (isKind (kind arg) CallExpression) eqn:K2; simpl; [|discriminate].
      intros H. exists callee, arg.
      apply isKind_eq in K1, K2. apply String.eqb_eq in T. auto.
    + destruct (negb (isKind (kind callee) Identifier)); [discriminate|].
      destruct (negb (String.eqb (nodeText callee) "__export")); discriminate.
  - intros (callee & arg & -> & K1 & T & K2 & H).
    rewrite K1, T, K2. exact H.
Qed.

Lemma truthyRequire_some (x : option string) (R : string) :
  truthyRequire x = Some R <-> x = Some R /\ R <> EmptyString.
Proof.
  unfold truthyRequire. destruct x as [r|]; [|split; [discriminate | intros [H _]; discriminate]].
  destruct r; simpl; split.
  - discriminate.
  - intros [[= <-] H]. congruence.
  - intros [= <-]. split; [reflexivity | discriminate].
  - intros [[= <-] _]. reflexivity.
Qed.

(** The call that [emitRewrittenRequires] takes for a require is a call
    expression of the shape [require("R")], with [R] not empty. *)
Lemma requireOf_read (call : JsNode) (R : string) :
  requireOf R call
  <-> kind call = CallExpression /\ truthyRequire (isRequire call) = Some R.
Proof.
  unfold requireOf, callOf. rewrite truthyRequire_some, isRequire_shape. split.
  - intros (Hne & arg & (K & callee & C & K1 & T) & K2 & N).
    split; [exact K|]. split; [|exact Hne]. exists callee, arg. auto.
  - intros (K & (callee & arg & C & K1 & T & K2 & N) & Hne).
    split; [exact Hne|]. exists arg. split; [|auto]. split; [exact K|]. exists callee. auto.
Qed.

Lemma exportOf_read (call : JsNode) (R : string) :
  (exists inner, callOf "__export" inner call /\ requireOf R inner)
  <-> kind call = CallExpression /\ truthyRequire (isExportRequire call) = Some R.
Proof.
  rewrite truthyRequire_some, isExportRequire_shape. split.
  - intros (inner & (K & callee & C & K1 & T) & Hr).
    apply requireOf_read in Hr. destruct Hr as [Ki Hr].
    apply truthyRequire_some in Hr. destruct Hr as [Hr Hne].
    split; [exact K|]. split; [|exact Hne]. exists callee, inner. auto.
  - intros (K & (callee & inner & C & K1 & T & Ki & Hr) & Hne).
    exists inner. split.
    + split; [exact K|]. exists callee. auto.
    + apply requireOf_read. split; [exact Ki|]. apply truthyRequire_some. auto.
Qed.

(** The statements that [emitRewrittenRequires] reads as a require are
    those of the three shapes. *)
Lemma requireForm_read (stmt : Statement) :
  requireForm stmt <-> readStatement stmt <> NotARequire.
Proof.
  split.
  - intros [r x call R Kx Hcall | r call R Hcall | r call inner R Hexp Hinner].
    + apply requireOf_read in Hcall. destruct Hcall as [K H].
      simpl. rewrite Kx, K, H. simpl. discriminate.
    + apply requireOf_read in Hcall. destruct Hcall as [K H].
      simpl. rewrite K, H. simpl.
      destruct (truthyRequire (isExportRequire call)); discriminate.
    + assert (H : kind call = CallExpression
                  /\ truthyRequire (isExportRequire call) = Some R).
      { apply exportOf_read. exists inner. auto. }
      destruct H as [K H]. simpl. rewrite K, H. simpl. discriminate.
  - destruct stmt as [r e|r ds|r cs]; simpl.
    + destruct (isKind (kind e) CallExpression) eqn:K; [|congruence].
      apply isKind_eq in K.
      destruct (truthyRequire (isExportRequire e)) as [R|] eqn:E.
      * intros _.
        destruct (proj2 (exportOf_read e R) (conj K E)) as (inner & H1 & H2).
        exact (exportForm r e inner R H1 H2).
      * destruct (truthyRequire (isRequire e)) as [R|] eqn:E'; [|congruence].
        intros _. apply (bareForm r e R). apply requireOf_read. auto.
    + destruct ds as [|[x i] [|d' ds]]; try congruence. simpl.
      destruct (isKind (kind x) Identifier) eqn:Kx; [|congruence].
      destruct i as [call|]; [|congruence].
      destruct (isKind (kind call) CallExpression) eqn:K; [|congruence].
      destruct (truthyRequire (isRequire call)) as [R|] eqn:E; [|congruence].
      intros _. apply isKind_eq in Kx, K.
      apply (varForm r x call R Kx). apply requireOf_read. auto.
    + congruence.
Qed.


End ShapeTheorems.

Section AliasTheorems.

Import PostProcessor Requires Imports Shapes.

Variable fileName : string.
Variable fileText : string.
Variable pathToModuleName : string -> string -> string.

Local Abbreviation writeRange' := (writeRange fileText).
Local Abbreviation resolve' := (resolve fileName pathToModuleName).
Local Abbreviation visitTopLevel' := (visitTopLevel fileName fileText pathToModuleName).
Local Abbreviation processStatements' :=
  (processStatements fileName fileText pathToModuleName).
Local Abbreviation process' := (process fileName fileText pathToModuleName).
Local Abbreviation exportedModule' := (exportedModule fileName pathToModuleName).
Local Abbreviation referencedModule' := (referencedModule fileName pathToModuleName).
Local Abbreviation referencedModulesOf' := (referencedModulesOf fileName pathToModuleName).
Local Abbreviation stateAt' := (stateAt fileName fileText pathToModuleName).
Local Abbreviation startState' := (startState fileName pathToModuleName).

Lemma bindsRequire_read (stmt : Statement) (r : Range) (X R : string) :
  bindsRequire stmt r X R -> Js.truthy X = true ->
  statementRange stmt = r
  /\ isUseStrict stmt = false
  /\ readStatement stmt = RequireOf (Some X) R.
Proof.
  intros (x & call & -> & Kx & <- & Hcall) HX.
  apply requireOf_read in Hcall. destruct Hcall as [K H].
  split; [reflexivity|]. split; [reflexivity|].
  simpl. rewrite Kx, K, H, HX. reflexivity.
Qed.

Lemma visitTopLevel_bindsRequire (stmt : Statement) (r : Range) (X R : string) (s : State) :
  bindsRequire stmt r X R -> Js.truthy X = true ->
  let m := resolve' R in
  let s2 := writeRange' (getFullStart r) (getStart r) (importedAs R X s) in
  visitTopLevel' stmt s
  = if JsObject.hasOwnProperty m (moduleVariables s)
    then emit (Js.cat ["var "; X; " = ";
                       match JsObject.get m (moduleVariables s) with
                       | Some v => v
                       | None => "undefined"
                       end; ";"]) s2
    else setModuleVariable m X
           (emit (Js.cat ["var "; X; " = goog.require('"; m; "');"]) s2).
Proof.
  intros Hb HX. destruct (bindsRequire_read stmt r X R Hb HX) as (Hr & Hu & Hread).
  rewrite visitTopLevel_read, Hu, andb_false_r, emitRewrittenRequires_read, Hread, Hr.
  reflexivity.
Qed.

Lemma referencedModule_bindsRequire (stmt : Statement) (r : Range) (X R : string) :
  bindsRequire stmt r X R -> referencedModule' stmt = Some (resolve' R).
Proof.
  intros (x & call & -> & Kx & _ & Hcall).
  apply requireOf_read in Hcall. destruct Hcall as [K H].
  unfold referencedModule, exportedModule, requiredModule. simpl.
  rewrite Kx, K, H. reflexivity.
Qed.

(** C4, as amended.  Take a file with [var A = require(RA)] and, later,
    [var B = require(RB)], both resolving to the module [M]; [M] is not
    referred to before the first and not exported from between the two, and
    the modules the file refers to are plain property names.  Then the first
    statement becomes a [goog.require] bound to [A], the second becomes the
    alias [var B = A;], and [referencedModules] lists the modules of the file
    in the order of their first occurrences, with [M] once. *)
Theorem repeated_require_is_aliased :
  forall pre mid post stmtA stmtB rA rB A B RA RB M,
    bindsRequire stmtA rA A RA -> bindsRequire stmtB rB B RB ->
    Js.truthy A = true -> Js.truthy B = true ->
    resolve' RA = M -> resolve' RB = M ->
    let stmts := pre ++ stmtA :: mid ++ stmtB :: post in
    forallb JsObject.plainKey (referencedModulesOf' stmts) = true ->
    ~ In M (referencedModulesOf' pre) ->
    (forall stmt, In stmt mid -> exportedModule' stmt <> Some M) ->
    let sA := stateAt' pre rA in
    let sB := stateAt' (pre ++ stmtA :: mid) rB in
    visitTopLevel' stmtA sA
    = setModuleVariable M A
        (emit (Js.cat ["var "; A; " = goog.require('"; M; "');"])
              (writeRange' (getFullStart rA) (getStart rA) (importedAs RA A sA)))
    /\ visitTopLevel' stmtB sB
       = emit (Js.cat ["var "; B; " = "; A; ";"])
              (writeRange' (getFullStart rB) (getStart rB) (importedAs RB B sB))
    /\ count_occ string_dec (snd (process' stmts)) M = 1
    /\ snd (process' stmts) = firstOccurrences [] (referencedModulesOf' stmts).
Proof.
  intros pre mid post stmtA stmtB rA rB A B RA RB M HbA HbB HA HB EA EB stmts
         Hplain Hfresh Hnoexport sA sB.
  assert (Hrefs : referencedModulesOf' stmts
                  = referencedModulesOf' pre
                    ++ M :: referencedModulesOf' mid
                    ++ M :: referencedModulesOf' post).
  { unfold stmts.
    rewrite referencedModulesOf_app.
    change (referencedModulesOf' (stmtA :: mid ++ stmtB :: post))
      with (match referencedModule' stmtA with Some m => [m] | None => [] end
            ++ referencedModulesOf' (mid ++ stmtB :: post)).
    rewrite referencedModulesOf_app.
    change (referencedModulesOf' (stmtB :: post))
      with (match referencedModule' stmtB with Some m => [m] | None => [] end
            ++ referencedModulesOf' post).
    rewrite (referencedModule_bindsRequire _ _ _ _ HbA),
      (referencedModule_bindsRequire _ _ _ _ HbB).
    rewrite EA, EB. reflexivity. }
  assert (HM : JsObject.plainKey M = true).
  { apply (plainKey_referenced fileName pathToModuleName stmts); [exact Hplain|].
    rewrite Hrefs. apply in_or_app. right. left. reflexivity. }
  assert (Hpre : forallb JsObject.plainKey (referencedModulesOf' pre) = true).
  { rewrite Hrefs, forallb_app in Hplain. apply andb_true_iff in Hplain. tauto. }
  assert (HsA : JsObject.hasOwnProperty M (moduleVariables sA) = false).
  { unfold sA. rewrite moduleVariables_stateAt, hasOwnProperty_includes.
    rewrite processStatements_keys by exact Hpre.
    destruct (includes M _) eqn:E; [|reflexivity].
    apply includes_In, firstOccurrences_In in E. simpl in E. tauto. }
  assert (H1 : visitTopLevel' stmtA sA
               = setModuleVariable M A
                   (emit (Js.cat ["var "; A; " = goog.require('"; M; "');"])
                      (writeRange' (getFullStart rA) (getStart rA) (importedAs RA A sA)))).
  { rewrite (visitTopLevel_bindsRequire _ _ _ _ _ HbA HA).
    rewrite EA, HsA. reflexivity. }
  assert (HrA : statementRange stmtA = rA).
  { apply (bindsRequire_read _ _ _ _ HbA HA). }
  assert (HsB : JsObject.get M (moduleVariables sB) = Some A).
  { unfold sB. rewrite moduleVariables_stateAt_snoc.
    apply processStatements_get; [|exact Hnoexport].
    rewrite HrA. fold sA. rewrite H1.
    simpl. apply get_set_same. exact HM. }
  assert (H4 : snd (process' stmts) = firstOccurrences [] (referencedModulesOf' stmts)).
  { unfold process.
    pose proof (processStatements_keys fileName fileText pathToModuleName stmts 0
                  startState' Hplain) as K.
    fold startState'.
    destruct (processStatements' stmts 0 startState') as [pos s]. simpl in *.
    rewrite moduleVariables_writeRange. exact K. }
  split; [exact H1|]. split; [|split; [|exact H4]].
  - rewrite (visitTopLevel_bindsRequire _ _ _ _ _ HbB HB).
    rewrite EB, (get_hasOwnProperty _ _ _ HsB), HsB. reflexivity.
  - rewrite H4. apply NoDup_count_occ'.
    + apply firstOccurrences_NoDup. constructor.
    + apply firstOccurrences_In. right. rewrite Hrefs.
      apply in_or_app. right. left. reflexivity.
Qed.

End AliasTheorems.

(** * Instances *)

Section ConcreteRuns.

Import Examples FurtherExamples.

Local Abbreviation visitExternsOf untyped :=
  (visitExterns EmptyString untyped noTranslate noComments defaultExternsBlacklist).
Local Abbreviation maybeProcessOf untyped :=
  (maybeProcess EmptyString untyped noTranslate noComments noEscape noVisit
                defaultExternsBlacklist noClass noFunction).



Lemma distinct_ABC : NoDup ["A"; "B"; "C"].
Proof. repeat constructor; simpl; intuition discriminate. Defined.



(** C3, as stated, fails: visiting [declare enum E { A }] twice in one run
    emits the empty-container skeleton of [E] twice, and the set of emitted
    namespaces is neither consulted nor updated. *)
Lemma enum_skeleton_emitted_twice :
  let s := visitExternsOf false declareEnumE []
             (visitExternsOf false declareEnumE [] newAnnotator) in
  count_occ string_dec (externsOutput s) (Js.cat ["E = {};"; LF]) = 2
  /\ emittedNamespaces s = JsObject.empty.
Proof. split; reflexivity. Qed.

(** C3, as amended, at a namespace that declares the same inner namespace
    twice: two skeletons, one per path; and at a class, which emits the same
    whether or not its name is in the set. *)
Lemma namespace_skeleton_at_most_once_witness :
  forallb (plainPaths []) [declareNamespaceA] = true
  /\ skeletonsOnce (fold_left (fun s n => visitExternsOf false n [] s)
                              [declareNamespaceA] newAnnotator)
  /\ skeletonLog (visitExternsOf false declareNamespaceA [] newAnnotator) = ["a"; "a.b"]
  /\ buffers (markEmitted "C" newAnnotator) = buffers newAnnotator
  /\ exists r1 r2,
       visitExternsOutcome EmptyString false noTranslate noComments defaultExternsBlacklist
                           declareClassC [] (markEmitted "C" newAnnotator) = Returned r1
       /\ visitExternsOutcome EmptyString false noTranslate noComments
                              defaultExternsBlacklist declareClassC [] newAnnotator
          = Returned r2
       /\ externsOutput r1 = externsOutput r2.
Proof.
  destruct (namespace_skeleton_at_most_once EmptyString false noTranslate noComments
              defaultExternsBlacklist) as (Hrun & _ & _ & Hclass).
  assert (H1 : forallb (plainPaths []) [declareNamespaceA] = true) by reflexivity.
  assert (H2 : buffers (markEmitted "C" newAnnotator) = buffers newAnnotator)
    by reflexivity.
  split; [exact H1|]. split; [exact (proj2 (Hrun [declareNamespaceA] H1))|].
  split; [reflexivity|]. split; [exact H2|].
  destruct (Hclass declareClassC ambientInfo _ [] _ _ (or_introl eq_refl) H2)
    as (r1 & r2 & E1 & E2 & B & _).
  exists r1, r2. split; [exact E1|]. split; [exact E2|].
  unfold buffers in B. congruence.
Defined.

(** C7, as stated, fails: after [declare class hasOwnProperty {}] the walk
    over [declare namespace x {}], entered with the sink on the main buffer,
    is left by an exception with the sink on the externs buffer. *)
Lemma sink_left_on_externs_by_exception :
  output newAnnotator = MainOutput
  /\ exists s',
       externsRun EmptyString false noTranslate noComments defaultExternsBlacklist
                  [declareClassHasOwnProperty; declareNamespaceX] newAnnotator
       = Thrown s'
       /\ output s' = ExternsOutput.
Proof. split; [reflexivity|]. eexists. split; reflexivity. Qed.

(** C7, as amended, at a class with two constructor signatures: an error
    is recorded during the walk, the walk returns, and the sink is the main
    buffer afterwards. *)
Lemma externs_sink_restored_on_return_witness :
  Ambient (flags (nodeInfo declareClassK)) = true
  /\ output newAnnotator = MainOutput
  /\ visitExternsOutcome EmptyString false noTranslate noComments defaultExternsBlacklist
                         declareClassK [] newAnnotator
     = Returned (visitExternsOf false declareClassK [] newAnnotator)
  /\ output (snd (maybeProcessOf false declareClassK newAnnotator)) = MainOutput
  /\ mainOutput (snd (maybeProcessOf false declareClassK newAnnotator)) = []
  /\ map messageText (diagnostics (snd (maybeProcessOf false declareClassK newAnnotator)))
     = ["multiple constructor signatures in declarations"].
Proof.
  assert (H1 : Ambient (flags (nodeInfo declareClassK)) = true) by reflexivity.
  assert (H2 : output newAnnotator = MainOutput) by reflexivity.
  assert (H3 : visitExternsOutcome EmptyString false noTranslate noComments
                                   defaultExternsBlacklist declareClassK [] newAnnotator
               = Returned (visitExternsOf false declareClassK [] newAnnotator))
    by reflexivity.
  destruct (proj2 (proj2 (proj2
              (externs_sink_restored_on_return EmptyString false noTranslate noComments
                 noEscape noVisit defaultExternsBlacklist noClass noFunction)))
              declareClassK newAnnotator _ H1 H2 H3) as (Ho & Hm & _ & Hd).
  split; [exact H1|]. split; [exact H2|]. split; [exact H3|]. split; [exact Ho|]. split.
  - rewrite Hm. reflexivity.
  - rewrite Hd. reflexivity.
Defined.

(** C8 at a function with two leading comments, the first of which has an
    [@type] tag: the tags are those of the second comment and no fault is
    recorded. *)
Lemma only_last_leading_comment_witness :
  twoCommentsRanges (getFullText twoCommentsText (range (fnInfo functionF)))
  = [(0, 16)] ++ [(17, 31)]
  /\ getJSDoc twoCommentsText twoCommentsRanges (range (fnInfo functionF)) newAnnotator
     = (Some [simpleTag (Some "export") None], newAnnotator).
Proof.
  assert (H1 : twoCommentsRanges (getFullText twoCommentsText (range (fnInfo functionF)))
               = [(0, 16)] ++ [(17, 31)]) by reflexivity.
  split; [exact H1|].
  rewrite (proj1 (only_last_leading_comment twoCommentsText false noTranslate
                    twoCommentsRanges noEscape _ _ _ _ newAnnotator H1)).
  reflexivity.
Defined.

(** C10, as stated, fails: in untyped mode [declare interface I { x }] still
    gets a record skeleton and a prototype declaration for its member, in the
    externs. *)
Lemma untyped_ambient_interface_gets_record :
  externsOutput (snd (maybeProcessOf true declareInterfaceI newAnnotator))
  = [Js.cat ["/** @record @struct */"; LF]; Js.cat ["function I() {}"; LF];
     " /**"; " @type {?} */"; Js.cat [LF; "I.prototype.x;"; LF]].
Proof. reflexivity. Qed.

(** C10, as amended, at [interface I { x }]. *)
Lemma untyped_interface_verbatim_witness :
  Ambient (flags plainInfo) = false
  /\ maybeProcessOf true plainInterfaceI newAnnotator = (true, newAnnotator).
Proof.
  assert (H1 : Ambient (flags plainInfo) = false) by reflexivity.
  split; [exact H1|]. unfold plainInterfaceI.
  rewrite (proj2 (untyped_interface_verbatim EmptyString noTranslate noComments noEscape
                    noVisit defaultExternsBlacklist noClass noFunction
                    plainInfo interfaceI newAnnotator H1)).
  reflexivity.
Defined.

End ConcreteRuns.

Section ConcreteFiles.

Import PostProcessor Requires Shapes FurtherExamples.

Local Abbreviation processOf text := (process "f" text moduleNameOfPath).
Local Abbreviation visitTopLevelOf text := (visitTopLevel "f" text moduleNameOfPath).
Local Abbreviation stateAtOf text := (stateAt "f" text moduleNameOfPath).

Lemma varRequireAt_binds (r rn rc rf ra : Range) (X R : string) :
  R <> EmptyString -> bindsRequire (varRequireAt r rn rc rf ra X R) r X R.
Proof.
  intros H. eexists; eexists. split; [reflexivity|]. split; [reflexivity|].
  split; [reflexivity|]. split; [exact H|]. eexists.
  split; [split; [reflexivity|]; eexists; split; [reflexivity|]; split; reflexivity
         | split; reflexivity].
Defined.

(** C4, as stated, fails: in the file
    [var a = require('m');__export(require('m'));var b = require('m');] the
    second require of the module is bound to the placeholder, not to [a]. *)
Lemma export_between_requires_breaks_the_alias :
  fst (processOf exportBetweenText exportBetween)
  = "goog.module('f');var a = goog.require('m');__export(goog.require('m'));var b = *;".
Proof. reflexivity. Qed.

(** C4, as amended, at the file
    [var a = require('m');var b = require('m');]. *)
Lemma repeated_require_is_aliased_witness :
  let stmts := [requireA; requireB] in
  bindsRequire requireA (mkRange 0 0 21) "a" "m"
  /\ bindsRequire requireB (mkRange 21 21 42) "b" "m"
  /\ forallb JsObject.plainKey (referencedModulesOf "f" moduleNameOfPath stmts) = true
  /\ output (visitTopLevelOf twoRequiresText requireB
               (stateAtOf twoRequiresText [requireA] (mkRange 21 21 42)))
     = ["goog.module('f');"; "var a = goog.require('m');"; "var b = a;"]
  /\ count_occ string_dec (snd (processOf twoRequiresText stmts)) "m" = 1
  /\ snd (processOf twoRequiresText stmts) = ["m"].
Proof.
  intros stmts.
  assert (NE : "m" <> EmptyString) by discriminate.
  assert (BA : bindsRequire requireA (mkRange 0 0 21) "a" "m")
    by exact (varRequireAt_binds _ _ _ _ _ "a" "m" NE).
  assert (BB : bindsRequire requireB (mkRange 21 21 42) "b" "m")
    by exact (varRequireAt_binds _ _ _ _ _ "b" "m" NE).
  assert (P : forallb JsObject.plainKey
                (referencedModulesOf "f" moduleNameOfPath stmts) = true) by reflexivity.
  assert (F : ~ In "m" (referencedModulesOf "f" moduleNameOfPath [])) by (simpl; tauto).
  assert (N : forall stmt, In stmt [] ->
                exportedModule "f" moduleNameOfPath stmt <> Some "m") by (simpl; tauto).
  destruct (repeated_require_is_aliased "f" twoRequiresText moduleNameOfPath
              [] [] [] requireA requireB _ _ "a" "b" "m" "m" "m"
              BA BB eq_refl eq_refl eq_refl eq_refl P F N)
    as (_ & H2 & H3 & H4).
  split; [exact BA|]. split; [exact BB|]. split; [exact P|]. split; [|split].
  - simpl app in H2. rewrite H2. reflexivity.
  - exact H3.
  - simpl app in H4. unfold stmts. rewrite H4. reflexivity.
Defined.


(** C5, as stated, fails: in the file [x;'use strict';] the [use strict]
    statement is the second top-level statement, and it is stripped. *)
Lemma late_use_strict_is_stripped :
  map isUseStrict lateStrict = [false; true]
  /\ fst (processOf lateStrictText lateStrict) = "goog.module('f');x;".
Proof. split; reflexivity. Qed.

(** C5, as amended, at the same file followed by a second [use strict]. *)
Lemma use_strict_stripped_once_witness :
  let other := nth 0 lateStrict (OtherStatement noRange []) in
  let us := nth 1 lateStrict (OtherStatement noRange []) in
  isUseStrict us = true
  /\ existsb isUseStrict [other] = false
  /\ output (visitTopLevelOf lateStrictText us
               (stateAtOf lateStrictText [other] (statementRange us)))
     = ["goog.module('f');"; "x"; ";"]
  /\ visitTopLevelOf lateStrictText us
       (stateAtOf lateStrictText [other; us] (statementRange us))
     = visitStatement lateStrictText us
         (stateAtOf lateStrictText [other; us] (statementRange us)).
Proof.
  intros other us.
  assert (U : isUseStrict us = true) by reflexivity.
  assert (P : existsb isUseStrict [other] = false) by reflexivity.
  destruct (use_strict_stripped_once "f" lateStrictText moduleNameOfPath)
    as (_ & Hfirst & Hlater).
  split; [exact U|]. split; [exact P|]. split.
  - rewrite (Hfirst [other] us U P). reflexivity.
  - exact (Hlater [other] us [] us U U).
Defined.

End ConcreteFiles.

Section MoreConcreteRuns.

Import Examples MoreExamples FurtherExamples.

(** X1 at a line comment. *)
Lemma not_jsdoc_iff_not_delimited_witness : getJSDocAnnotation "// x" = NotJSDoc.
Proof.
  apply (proj2 (not_jsdoc_iff_not_delimited "// x")).
  intros body H. simpl in H. discriminate H.
Defined.

(** X2 at a comment with a typed [@return] tag. *)
Lemma fault_iff_hand_written_type_witness :
  exists message, getJSDocAnnotation "/** @return {x} y */" = Fault message.
Proof.
  apply (proj2 (proj1 (fault_iff_hand_written_type "/** @return {x} y */"))).
  exists " @return {x} y ", "@return {x} y", "return", "{x} y".
  split; [reflexivity|]. split; [left; reflexivity|]. split; [reflexivity|].
  right. split; [right; reflexivity | reflexivity].
Defined.

(** X3 at a comment with one tag. *)
Lemma parsed_tags_carry_no_type_witness :
  getJSDocAnnotation "/** @export */" = Tags [simpleTag (Some "export") None]
  /\ [simpleTag (Some "export") None] <> []
  /\ Forall parsedTag [simpleTag (Some "export") None].
Proof.
  assert (H : getJSDocAnnotation "/** @export */" = Tags [simpleTag (Some "export") None])
    by reflexivity.
  split; [exact H|]. exact (parsed_tags_carry_no_type _ _ H).
Defined.



Lemma distinct_XYZ : NoDup ["X"; "Y"; "Z"].
Proof. repeat constructor; simpl; intuition discriminate. Defined.

(** X6 at [enum E { X, Y, Z }]. *)
Lemma enum_without_initializers_counts_from_zero_witness :
  uninitialized membersXYZ
  /\ gatherMembers membersXYZ = [("X", inl 0%Z); ("Y", inl 1%Z); ("Z", inl 2%Z)].
Proof.
  assert (H1 : uninitialized membersXYZ) by (repeat constructor).
  assert (H2 : NoDup (enumMemberNames membersXYZ)) by exact distinct_XYZ.
  assert (H3 : forallb JsObject.plainKey (enumMemberNames membersXYZ) = true)
    by reflexivity.
  split; [exact H1|].
  rewrite (enum_without_initializers_counts_from_zero membersXYZ H1 H2 H3).
  reflexivity.
Defined.

(** X7 at [enum E { A, B = 5, C }]. *)
Lemma enum_constant_restarts_the_count_witness :
  uninitialized [memberC]
  /\ safeConstants ([memberA] ++ memberB5 :: [memberC])
  /\ gatherMembers ([memberA] ++ memberB5 :: [memberC])
     = [("A", inl 0%Z); ("B", inl 5%Z); ("C", inl 6%Z)].
Proof.
  assert (H1 : uninitialized [memberC]) by (repeat constructor).
  assert (H2 : NoDup (enumMemberNames ([memberA] ++ memberB5 :: [memberC])))
    by exact distinct_ABC.
  assert (H3 : forallb JsObject.plainKey
                 (enumMemberNames ([memberA] ++ memberB5 :: [memberC])) = true)
    by reflexivity.
  assert (H4 : safeConstants ([memberA] ++ memberB5 :: [memberC])).
  { split; [reflexivity|]. repeat constructor. }
  split; [exact H1|]. split; [exact H4|].
  rewrite (proj1 (enum_constant_restarts_the_count [memberA] [memberC] memberB5
                    (mkExpression noRange) 5%Z eq_refl eq_refl H1 H2 H3 H4)).
  reflexivity.
Defined.

(** X10 at [declare class Symbol {}] followed by
    [declare namespace Symbol {}]. *)
Lemma blacklisted_type_hides_namespace_witness :
  includes (Js.join "." ([] ++ [nameGetText (declName classSymbol)]))
           defaultExternsBlacklist = true
  /\ externsOutput
       (visitExterns EmptyString false noTranslate noComments defaultExternsBlacklist
          (ModuleDeclaration ambientInfo (identifier "Symbol") (ModuleBlock ambientInfo []))
          []
          (visitExterns EmptyString false noTranslate noComments defaultExternsBlacklist
             (ClassDeclaration ambientInfo classSymbol) [] newAnnotator))
     = [].
Proof.
  assert (H1 : includes (Js.join "." ([] ++ [nameGetText (declName classSymbol)]))
                        defaultExternsBlacklist = true) by reflexivity.
  split; [exact H1|].
  destruct (blacklisted_type_hides_namespace EmptyString false noTranslate noComments
              defaultExternsBlacklist true ambientInfo ambientInfo ambientInfo
              classSymbol (identifier "Symbol") [] newAnnotator
              eq_refl eq_refl H1 eq_refl) as (_ & _ & H & _).
  exact H.
Defined.



End MoreConcreteRuns.

Section MoreConcreteFiles.

Import PostProcessor Requires Imports Shapes Examples MoreExamples FurtherExamples.


(** X15 at [var a = require("m"); __export(require("m"));]. *)
Lemma referenced_modules_are_exact_witness :
  JsObject.plainKey "m" = true
  /\ In "m" (snd (process "f" EmptyString moduleNameOfPath
                    [varRequire Requires.noRange "a" "m";
                     exportRequire Requires.noRange "m"])).
Proof.
  assert (P : JsObject.plainKey "m" = true) by reflexivity.
  split; [exact P|].
  apply (proj2 (proj2 (referenced_modules_are_exact "f" EmptyString moduleNameOfPath _))
               "m" P).
  simpl. auto.
Defined.


(** X17 at [var a = require("m");]. *)
Lemma no_namespace_import_no_rewrite_witness :
  forallb (fun stmt => negb (isNamespaceRequire stmt))
          [varRequire Requires.noRange "a" "m"] = true
  /\ maybeProcess EmptyString
       (defaultAccess Requires.noRange Requires.noRange Requires.noRange "a")
       (stateAt "f" EmptyString moduleNameOfPath [varRequire Requires.noRange "a" "m"]
                Requires.noRange)
     = None.
Proof.
  assert (H : forallb (fun stmt => negb (isNamespaceRequire stmt))
                      [varRequire Requires.noRange "a" "m"] = true) by reflexivity.
  split; [exact H|].
  exact (proj2 (no_namespace_import_no_rewrite "f" EmptyString moduleNameOfPath
                  [varRequire Requires.noRange "a" "m"] Requires.noRange H) _).
Defined.


(** X20 at a name that begins with three underscores. *)
Lemma unescapeName_undoes_escaping_witness :
  String.prefix "__" "__proto" = true /\ unescapeName "___proto" = "__proto".
Proof.
  assert (H : String.prefix "__" "__proto" = true) by reflexivity.
  split; [exact H|].
  exact (proj1 (unescapeName_undoes_escaping "__proto") H).
Defined.

End MoreConcreteFiles.
